(** * Sovo volume-booster bot: orchestration and safety core

    A shallow embedding of the JavaScript sources

      - [src/src/utils.js]            (ConfigManager validators, CircuitBreaker)
      - [src/src/trading/TradingEngine.js]
      - [src/unnamed/part_002]        (WalletManager)
      - [src/src/VolumeBoosterBot.js] (the orchestrator loop, the sweep)
      - [src/unnamed/part_000]        (MarketDataProvider)

    Conventions of the embedding.

      - A JavaScript [Number] is a rational ([Q]); [Math.floor] is
        [Qfloor].  Comparisons of doubles are exact, so they are the
        comparisons of [Q].  [JS.double] rounds a rational to the nearest
        double (IEEE 754 binary64, ties to even; overflow and subnormal
        numbers are not represented), and [JS.add], [JS.sub], [JS.mul] are
        the rounded operations.  They are used where a whole number is
        taken of a product of fractions, so that the last bit decides the
        result: the percentage of a partial sell ([partialSellAmount]) and
        the cooldown of a wallet ([getWalletCooldown_double], and the
        selection [loadActiveBatch_double] built on it), and the
        lamports of an amount of SOL ([validateSolAmount]).  Elsewhere the
        arithmetic of numbers is exact; [getWalletCooldown] with the
        selection [loadActiveBatch] is the cooldown without rounding, for
        the properties that do not depend on the last millisecond.  The
        numbers of the configuration ([ProcessEnv]) are the parsed ones.
      - [BN] (bn.js) and [BigInt] values are integers ([Z]); their division
        truncates towards zero ([Z.quot]) and [mod] keeps the sign of the
        dividend ([Z.rem]).
      - A JavaScript [Map] keyed by base58 strings is a [gmap string _].
      - Everything outside the process (RPC node, token accounts, trade
        execution service, [Math.random], [Date.now]) is an oracle of the
        environment [Env], indexed by a logical clock that counts the
        interactions made so far.  For the trading engine the market
        data provider ([src/unnamed/part_000]) only relays remote data and
        is an oracle as well; the provider itself is embedded in the
        module [MarketDataProvider], and the transfers of SOL (funding,
        final sweep) in the module [Transfers], each on a heap of its own.
      - Asynchronous methods are functions in a state-and-exception monad
        over the heap of the process ([World]); a rejected promise is
        [Throw]. *)

From Stdlib Require Import ZArith QArith Qround Qpower Lia Lqa Bool.
From stdpp Require Import base option list gmap strings.

#[local] Open Scope Z_scope.

(** ** JavaScript primitives *)

(** Completion of a call: a value, or a thrown exception with its message. *)
Inductive Outcome (A : Type) : Type :=
| Return (a : A)
| Throw (e : string).
Arguments Return {A} a.
Arguments Throw {A} e.

Module JS.

(** Comparison of numbers, as booleans. *)
Definition leb (a b : Q) : bool := Qle_bool a b.
Definition ltb (a b : Q) : bool := negb (Qle_bool b a).
Definition geb (a b : Q) : bool := leb b a.
Definition gtb (a b : Q) : bool := ltb b a.

(** [Math.floor], [Math.min], [Math.max], [Math.pow(2, n)]. *)
Definition floor (x : Q) : Z := Qfloor x.
Definition min (a b : Q) : Q := if leb a b then a else b.
Definition max (a b : Q) : Q := if leb a b then b else a.
Definition pow2 (n : nat) : Q := inject_Z (2 ^ Z.of_nat n).

(** A number that is a whole number. *)
Definition isInteger (x : Q) : bool := Qle_bool x (inject_Z (Qfloor x)).

(** Truncation towards zero (ToIntegerOrInfinity on a finite number). *)
Definition trunc (x : Q) : Z :=
  if Qle_bool 0 x then Qfloor x else Qceiling x.

(** [l.slice(0, e)]: a negative end counts from the end of the array. *)
Definition slice0 {A} (l : list A) (e : Q) : list A :=
  let k := trunc e in
  if k <? 0 then take (Z.to_nat (Z.of_nat (length l) + k)) l
  else take (Z.to_nat k) l.

(** [a % b === 0] on numbers; the remainder by zero is [NaN]. *)
Definition rem_is_zero (a b : Q) : bool :=
  negb (Qeq_bool b 0)
  && Qeq_bool (a - b * inject_Z (trunc (a / b))) 0.

(** [!!s] for a string. *)
Definition truthy_string (s : string) : bool :=
  if decide (s = EmptyString) then false else true.

(** bn.js [toNumber]: refuses integers of more than 53 bits. *)
Definition BN_toNumber (a : Z) : Outcome Z :=
  if Z.abs a <? 2 ^ 53 then Return a
  else Throw "Number can only safely store up to 53 bits".

(** bn.js [a.lt(b)] where [b] is a [BigInt] and not a [BN]: [cmp] reads
    the fields [negative] and [length] of its argument, which a [BigInt]
    does not have, and answers 1 for every [a] that is not negative, as a
    token balance is; so [lt] is false whatever the two values are. *)
Definition BN_lt_BigInt (a b : Z) : bool := false.

(** Rounding to the nearest integer, ties to the even one. *)
Definition roundTiesToEven (x : Q) : Z :=
  let f := Qfloor x in
  match (x - inject_Z f ?= 1 # 2)%Q with
  | Lt => f
  | Gt => f + 1
  | Eq => if Z.even f then f else f + 1
  end.

(** The exponent [e] of the last bit of the double nearest to a positive
    [x]: [2^52 <= x / 2^e < 2^53]. *)
Definition exponent (x : Q) : Z :=
  let e0 := Z.log2 (Qnum x) - Z.log2 (Zpos (Qden x)) - 52 in
  if Qle_bool (inject_Z (2 ^ 52)) (x / 2 ^ e0) then e0 else e0 - 1.

Definition double_pos (x : Q) : Q :=
  let e := exponent x in
  (inject_Z (roundTiesToEven (x / 2 ^ e)) * 2 ^ e)%Q.

(** The double nearest to [x]: a significand of 53 bits. *)
Definition double (x : Q) : Q :=
  match (x ?= 0)%Q with
  | Eq => 0%Q
  | Gt => Qred (double_pos x)
  | Lt => Qred (- double_pos (- x))
  end.

(** [a + b], [a - b] and [a * b] on doubles. *)
Definition add (a b : Q) : Q := double (a + b).
Definition sub (a b : Q) : Q := double (a - b).
Definition mul (a b : Q) : Q := double (a * b).

(** Half the distance between two neighbouring doubles, relative to their
    size: [2^-53]. *)
Definition ulp : Q := 1 # 9007199254740992.

End JS.

(** One SOL in lamports; the smallest token balance worth selling. *)
Definition LAMPORTS_PER_SOL : Z := 1000000000.
Definition MIN_MEME_TOKENS : Z := 1000000.
Definition MAX_COOLDOWN_AGE_MS : Z := 24 * 60 * 60 * 1000.
Definition SENTIMENT_FETCH_COOLDOWN_MS : Z := 3600000.
Definition DEFAULT_SLIPPAGE_RETAIL : Q := 1.
Definition DEFAULT_SLIPPAGE_WHALE : Q := 3 # 10.

(** ** ConfigManager (src/src/utils.js) *)

Inductive BehaviorProfile := retail | whale | mixed.
Inductive TradeMode :=
  adaptive | buy_first | sell_first | buy_only | sell_only | random.
Inductive Personality := flipper | hodler | momentum.

(** The validated configuration, with the fields the modelled code reads.
    Percentages are stored as fractions: see [validatePercentage].  The
    methods below take the configuration in force once the bot runs
    ([loadOrGenerateWallets] may have replaced [batchSize] when
    AUTO_SCALE_CONCURRENCY is set). *)
Record ConfigManager := {
  swapAmount : Z;
  tradeMode : TradeMode;
  buyProb : Q;
  numActionsPerCycle : Q;
  baseDelayMs : Q;
  jitterPct : Q;
  enableRebalancing : bool;
  enableCircuitBreaker : bool;
  maxConsecutiveFailures : Q;
  maxFailureRate : Q;
  failureRateWindow : Q;
  emergencyStopLoss : Q;
  batchSize : Q;
  partialSellEnabled : bool;
  partialSellMin : Q;
  partialSellMax : Q;
  behaviorProfile : BehaviorProfile;
  minWalletCooldownMs : Q;
  maxWalletCooldownMs : Q;
  shuffleWallets : bool;
  rebalanceInterval : Q;
  sessionPauseMin : Q;
  twapParts : Q;
  twapMaxDelay : Q;
  volThreshold : Q;
  rampCycles : Q;
  useBirdeye : bool
}.

(** [validateNumber(key, value, min, max, defaultValue)]: [value] is the
    parsed environment variable when it is set; [None] is the thrown
    configuration error. *)
Definition validateNumber (value : option Q) (min max defaultValue : Q)
  : option Q :=
  let num := match value with Some v => v | None => defaultValue end in
  if JS.ltb num min || JS.gtb num max then None else Some num.

(** [Math.floor(amount * 1e9)], the product being that of doubles. *)
Definition validateSolAmount (value : option Q) (min max defaultValue : Q)
  : option Z :=
  amount ← validateNumber value min max defaultValue;
  Some (JS.floor (JS.mul amount 1000000000)).

Definition validatePercentage (value : option Q) (defaultValue : Q)
  : option Q :=
  pct ← validateNumber value 0 100 defaultValue;
  Some (pct / 100)%Q.

Definition validateProbability (value : option Q) (defaultValue : Q)
  : option Q :=
  validateNumber value 0 1 defaultValue.

Definition validateBoolean (value : option bool) (defaultValue : bool)
  : option bool :=
  match value with None => Some defaultValue | Some b => Some b end.

(** The environment variables behind [ConfigManager], already parsed. *)
Record ProcessEnv := {
  SWAP_AMOUNT : option Q;
  TRADE_MODE : option TradeMode;
  BUY_PROB : option Q;
  NUM_ACTIONS_PER_CYCLE : option Q;
  DELAY_MS : option Q;
  JITTER_PCT : option Q;
  ENABLE_REBALANCING : option bool;
  ENABLE_CIRCUIT_BREAKER : option bool;
  MAX_CONSECUTIVE_FAILURES : option Q;
  MAX_FAILURE_RATE_PCT : option Q;
  FAILURE_RATE_WINDOW : option Q;
  EMERGENCY_STOP_LOSS_PCT : option Q;
  BATCH_SIZE : option Q;
  PARTIAL_SELL_ENABLED : option bool;
  PARTIAL_SELL_MIN_PCT : option Q;
  PARTIAL_SELL_MAX_PCT : option Q;
  BEHAVIOR_PROFILE : option BehaviorProfile;
  MIN_WALLET_COOLDOWN_MS : option Q;
  MAX_WALLET_COOLDOWN_MS : option Q;
  SHUFFLE_WALLETS : option bool;
  REBALANCE_INTERVAL_CYCLES : option Q;
  SESSION_PAUSE_MIN : option Q;
  TWAP_PARTS : option Q;
  TWAP_MAX_DELAY : option Q;
  VOL_THRESHOLD : option Q;
  RAMP_CYCLES : option Q;
  BIRDEYE_API_KEY : option string
}.

(** [validateAndLoadConfig], restricted to the fields of [ConfigManager]
    above, in the order of the source. *)
Definition validateAndLoadConfig (env : ProcessEnv) : option ConfigManager :=
  tradeMode' ← Some (default adaptive (TRADE_MODE env));
  buyProb' ← validateProbability (BUY_PROB env) (1 # 2);
  numActionsPerCycle' ← validateNumber (NUM_ACTIONS_PER_CYCLE env) 1 10 2;
  swapAmount' ← validateSolAmount (SWAP_AMOUNT env) (1 # 10000) 1 (1 # 100);
  baseDelayMs' ← validateNumber (DELAY_MS env) 100 60000 5000;
  jitterPct' ← validatePercentage (JITTER_PCT env) 10;
  enableRebalancing' ← validateBoolean (ENABLE_REBALANCING env) true;
  enableCircuitBreaker' ← validateBoolean (ENABLE_CIRCUIT_BREAKER env) true;
  maxConsecutiveFailures' ←
    validateNumber (MAX_CONSECUTIVE_FAILURES env) 1 100 10;
  maxFailureRate' ← validatePercentage (MAX_FAILURE_RATE_PCT env) 50;
  failureRateWindow' ← validateNumber (FAILURE_RATE_WINDOW env) 5 100 10;
  emergencyStopLoss' ← validatePercentage (EMERGENCY_STOP_LOSS_PCT env) 30;
  batchSize' ← validateNumber (BATCH_SIZE env) 1 1000 100;
  partialSellEnabled' ← validateBoolean (PARTIAL_SELL_ENABLED env) true;
  partialSellMin' ← validatePercentage (PARTIAL_SELL_MIN_PCT env) 22;
  partialSellMax' ← validatePercentage (PARTIAL_SELL_MAX_PCT env) 68;
  behaviorProfile' ← Some (default retail (BEHAVIOR_PROFILE env));
  minWalletCooldownMs' ←
    validateNumber (MIN_WALLET_COOLDOWN_MS env) 60000 3600000 300000;
  maxWalletCooldownMs' ←
    validateNumber (MAX_WALLET_COOLDOWN_MS env) 60000 3600000 1800000;
  shuffleWallets' ← validateBoolean (SHUFFLE_WALLETS env) true;
  rebalanceInterval' ←
    validateNumber (REBALANCE_INTERVAL_CYCLES env) 1 1000 50;
  sessionPauseMin' ← validateNumber (SESSION_PAUSE_MIN env) 1 100 10;
  twapParts' ← validateNumber (TWAP_PARTS env) 1 20 5;
  twapMaxDelay' ← validateNumber (TWAP_MAX_DELAY env) 1000 60000 10000;
  volThreshold' ← validatePercentage (VOL_THRESHOLD env) (5 # 100);
  rampCycles' ← validateNumber (RAMP_CYCLES env) 1 1000 30;
  Some {|
    swapAmount := swapAmount';
    tradeMode := tradeMode';
    buyProb := buyProb';
    numActionsPerCycle := numActionsPerCycle';
    baseDelayMs := baseDelayMs';
    jitterPct := jitterPct';
    enableRebalancing := enableRebalancing';
    enableCircuitBreaker := enableCircuitBreaker';
    maxConsecutiveFailures := maxConsecutiveFailures';
    maxFailureRate := maxFailureRate';
    failureRateWindow := failureRateWindow';
    emergencyStopLoss := emergencyStopLoss';
    batchSize := batchSize';
    partialSellEnabled := partialSellEnabled';
    partialSellMin := partialSellMin';
    partialSellMax := partialSellMax';
    behaviorProfile := behaviorProfile';
    minWalletCooldownMs := minWalletCooldownMs';
    maxWalletCooldownMs := maxWalletCooldownMs';
    shuffleWallets := shuffleWallets';
    rebalanceInterval := rebalanceInterval';
    sessionPauseMin := sessionPauseMin';
    twapParts := twapParts';
    twapMaxDelay := twapMaxDelay';
    volThreshold := volThreshold';
    rampCycles := rampCycles';
    useBirdeye :=
      match BIRDEYE_API_KEY env with
      | Some key => JS.truthy_string key
      | None => false
      end
  |}.

(** No variable set: every option takes its default. *)
Definition emptyProcessEnv : ProcessEnv := {|
  SWAP_AMOUNT := None; TRADE_MODE := None; BUY_PROB := None;
  NUM_ACTIONS_PER_CYCLE := None; DELAY_MS := None; JITTER_PCT := None;
  ENABLE_REBALANCING := None; ENABLE_CIRCUIT_BREAKER := None;
  MAX_CONSECUTIVE_FAILURES := None;
  MAX_FAILURE_RATE_PCT := None; FAILURE_RATE_WINDOW := None;
  EMERGENCY_STOP_LOSS_PCT := None; BATCH_SIZE := None;
  PARTIAL_SELL_ENABLED := None; PARTIAL_SELL_MIN_PCT := None;
  PARTIAL_SELL_MAX_PCT := None; BEHAVIOR_PROFILE := None;
  MIN_WALLET_COOLDOWN_MS := None; MAX_WALLET_COOLDOWN_MS := None;
  SHUFFLE_WALLETS := None; REBALANCE_INTERVAL_CYCLES := None;
  SESSION_PAUSE_MIN := None; TWAP_PARTS := None; TWAP_MAX_DELAY := None;
  VOL_THRESHOLD := None; RAMP_CYCLES := None; BIRDEYE_API_KEY := None
|}.

(** ** CircuitBreaker (src/src/utils.js): fields and [recordTradeResult] *)

Record CircuitBreaker := {
  consecutiveFailures : Z;
  recentTrades : list bool;
  initialSinkBalance : Z;
  checkCounter : Z
}.

Definition CircuitBreaker_constructor : CircuitBreaker := {|
  consecutiveFailures := 0;
  recentTrades := [];
  initialSinkBalance := 0;
  checkCounter := 0
|}.

(** [Array.prototype.shift]: drops the first element. *)
Definition shift {A} (l : list A) : list A := tail l.

Definition recordTradeResult (cfg : ConfigManager) (cb : CircuitBreaker)
  (success : bool) : CircuitBreaker :=
  if negb (enableCircuitBreaker cfg) then cb else
  let pushed := recentTrades cb ++ [success] in
  let window :=
    if JS.gtb (inject_Z (Z.of_nat (length pushed))) (failureRateWindow cfg)
    then shift pushed else pushed in
  {| consecutiveFailures :=
       if success then 0 else consecutiveFailures cb + 1;
     recentTrades := window;
     initialSinkBalance := initialSinkBalance cb;
     checkCounter := checkCounter cb |}.

(** ** The heap of the process and its environment *)

Record Keypair := { publicKey : string; secretKey : list Z }.

(** An entry of the wallet file, and a wallet of the active batch. *)
Record WalletData := {
  pubkey : string;
  privateKey : list Z;
  name : string;
  isSeasoned : bool
}.

Record Wallet := {
  keypair : Keypair;
  wallet_name : string;
  wallet_pubkey : string
}.

(** A call of the Trade Execution Service ([trader.buy] / [trader.sell]):
    for a buy [req_amount] is the whole number of SOL
    ([amount.div(LAMPORTS_PER_SOL).toString()]), for a sell the token
    amount.  The Jito routing options are not represented. *)
Record TradeRequest := {
  req_isBuy : bool;
  req_wallet : string;
  req_amount : Z;
  req_slippage : Q
}.

(** What the process does to the outside, in order. *)
Inductive Event :=
| EvTrade (req : TradeRequest)
| EvDelay (ms : Q)
| EvRebalance.

(** The oracles.  The first argument is the logical clock. *)
Record Env := {
  Math_random : nat → Q;
  Date_now : nat → Z;
  connection_getBalance : nat → string → Outcome Z;
  getAccount : nat → string → Outcome Z;
  trader : nat → TradeRequest → Outcome string;
  axios_fearAndGreed : nat → Outcome Z;
  marketData_fetchVolatility : nat → Q;
  marketData_getMarketData : nat → option Q;
  marketData_checkMarketConditions : nat → Q → Outcome bool;
  rebalancer_rebalanceWallets : nat → Outcome unit;
  Keypair_fromSecretKey : list Z → Keypair
}.

(** [Math.random()] returns a number of [[0, 1)]. *)
Definition random_ok (E : Env) : Prop :=
  ∀ n, (0 <= Math_random E n)%Q ∧ (Math_random E n < 1)%Q.

(** TradingEngine: the fields its constructor sets, and [isRunning], which
    [twapSwap] reads from the engine although the constructor does not
    define it and no statement of the repository assigns it on the engine
    (an absent property is [None], that is [undefined]). *)
Record TradingEngine := {
  sentimentScore : Z;
  lastSentimentFetch : Z;
  cycleCount : Z;
  isRunning : option bool
}.

Definition TradingEngine_constructor : TradingEngine := {|
  sentimentScore := 50;
  lastSentimentFetch := 0;
  cycleCount := 0;
  isRunning := None
|}.

Record WalletManager := {
  walletData : list WalletData;
  activeWallets : list Wallet;
  walletCooldowns : gmap string Z;
  walletTradeCount : gmap string Z;
  walletPersonalities : gmap string Personality;
  sinkKeypair : option Keypair
}.

Definition WalletManager_constructor (sink : option Keypair)
  : WalletManager := {|
  walletData := [];
  activeWallets := [];
  walletCooldowns := ∅;
  walletTradeCount := ∅;
  walletPersonalities := ∅;
  sinkKeypair := sink
|}.

(** VolumeBoosterBot: the orchestrator's own running flag and counter. *)
Record VolumeBoosterBot := {
  bot_isRunning : bool;
  bot_cycleCount : Z
}.

Definition VolumeBoosterBot_constructor : VolumeBoosterBot := {|
  bot_isRunning := false;
  bot_cycleCount := 0
|}.

Record World := {
  clock : nat;
  trace : list Event;
  circuitBreaker : CircuitBreaker;
  tradingEngine : TradingEngine;
  walletManager : WalletManager;
  bot : VolumeBoosterBot
}.

(** ** The monad of asynchronous methods *)

Definition M (A : Type) : Type := World → Outcome A * World.

Definition ret {A} (a : A) : M A := λ w, (Return a, w).

Definition bind {A B} (m : M A) (f : A → M B) : M B := λ w,
  match m w with
  | (Return a, w') => f a w'
  | (Throw e, w') => (Throw e, w')
  end.

Declare Scope js_scope.
Delimit Scope js_scope with js.
Bind Scope js_scope with M.
Notation "'let*' x ':=' m 'in' k" := (bind m (fun x => k))
  (at level 10, x pattern, m at level 100, k at level 200) : js_scope.
Notation "m ;; k" := (bind m (fun _ => k))
  (at level 100, k at level 200, right associativity) : js_scope.
#[local] Open Scope js_scope.

Definition throw {A} (e : string) : M A := λ w, (Throw e, w).

(** [try { body } catch (error) { handler }]: the heap keeps what the body
    did before it threw. *)
Definition try_catch {A} (body : M A) (handler : string → M A) : M A := λ w,
  match body w with
  | (Return a, w') => (Return a, w')
  | (Throw e, w') => handler e w'
  end.

Definition lift {A} (o : Outcome A) : M A := λ w, (o, w).

Definition get_breaker : M CircuitBreaker :=
  λ w, (Return (circuitBreaker w), w).
Definition get_engine : M TradingEngine := λ w, (Return (tradingEngine w), w).
Definition get_wallets : M WalletManager := λ w, (Return (walletManager w), w).
Definition get_bot : M VolumeBoosterBot := λ w, (Return (bot w), w).

Definition put_breaker (cb : CircuitBreaker) : M unit := λ w,
  (Return tt, {| clock := clock w; trace := trace w; circuitBreaker := cb;
                 tradingEngine := tradingEngine w;
                 walletManager := walletManager w; bot := bot w |}).

(** A write to fields of the engine. *)
Definition modify_engine (f : TradingEngine → TradingEngine) : M unit := λ w,
  (Return tt, {| clock := clock w; trace := trace w;
                 circuitBreaker := circuitBreaker w;
                 tradingEngine := f (tradingEngine w);
                 walletManager := walletManager w; bot := bot w |}).

Definition put_wallets (wm : WalletManager) : M unit := λ w,
  (Return tt, {| clock := clock w; trace := trace w;
                 circuitBreaker := circuitBreaker w;
                 tradingEngine := tradingEngine w;
                 walletManager := wm; bot := bot w |}).

Definition put_bot (b : VolumeBoosterBot) : M unit := λ w,
  (Return tt, {| clock := clock w; trace := trace w;
                 circuitBreaker := circuitBreaker w;
                 tradingEngine := tradingEngine w;
                 walletManager := walletManager w; bot := b |}).

(** One interaction with the environment: read the clock and advance it. *)
Definition tick : M nat := λ w,
  (Return (clock w),
   {| clock := S (clock w); trace := trace w;
      circuitBreaker := circuitBreaker w; tradingEngine := tradingEngine w;
      walletManager := walletManager w; bot := bot w |}).

Definition emit (ev : Event) : M unit := λ w,
  (Return tt,
   {| clock := clock w; trace := trace w ++ [ev];
      circuitBreaker := circuitBreaker w; tradingEngine := tradingEngine w;
      walletManager := walletManager w; bot := bot w |}).

Section Program.

Context (E : Env) (cfg : ConfigManager).

(** *** Calls to the environment *)

Definition Math_random_call : M Q :=
  let* n := tick in ret (Math_random E n).

Definition Date_now_call : M Z :=
  let* n := tick in ret (Date_now E n).

(** [await delay(ms)] *)
Definition delay (ms : Q) : M unit :=
  tick;; emit (EvDelay ms).

Definition getBalance (pk : string) : M Z :=
  let* n := tick in lift (connection_getBalance E n pk).

Definition getAccount_amount (owner : string) : M Z :=
  let* n := tick in lift (getAccount E n owner).

(** [this.trader.buy(...)] / [this.trader.sell(...)]: the call is issued,
    then it resolves to a signature or rejects. *)
Definition trader_call (req : TradeRequest) : M string :=
  let* n := tick in emit (EvTrade req);; lift (trader E n req).

Definition fetchVolatility : M Q :=
  let* n := tick in ret (marketData_fetchVolatility E n).

(** [getMarketData().liquidity]; [None] when the field is not a number. *)
Definition getMarketData_liquidity : M (option Q) :=
  let* n := tick in ret (marketData_getMarketData E n).

(** [checkMarketConditions(amountInSol).safe] *)
Definition checkMarketConditions (amountInSol : Z) : M bool :=
  let* n := tick in
  lift (marketData_checkMarketConditions E n (inject_Z amountInSol)).

(** ** CircuitBreaker.checkCircuitBreakers (src/src/utils.js) *)

Inductive TripReason :=
| NoReason
| ConsecutiveFailures (count : Z)
| FailureRate (failureRate : Q)
| LossFromInitialBalance (loss : Z).

Record CheckResult := { tripped : bool; reason : TripReason }.

Definition set_checkCounter (cb : CircuitBreaker) (n : Z) : CircuitBreaker :=
  {| consecutiveFailures := consecutiveFailures cb;
     recentTrades := recentTrades cb;
     initialSinkBalance := initialSinkBalance cb;
     checkCounter := n |}.

(** The failure rate of a full window, in percent, when it trips. *)
Definition failureRateTrip (cb : CircuitBreaker) : option Q :=
  let len := inject_Z (Z.of_nat (length (recentTrades cb))) in
  if JS.geb len (failureRateWindow cfg) then
    let failures :=
      inject_Z (Z.of_nat (length (List.filter negb (recentTrades cb)))) in
    let failureRate := ((failures / len) * 100)%Q in
    if JS.gtb failureRate (maxFailureRate cfg) then Some failureRate else None
  else None.

Definition checkCircuitBreakers (sink : option Keypair) : M CheckResult :=
  let* cb := get_breaker in
  if negb (enableCircuitBreaker cfg) then
    ret {| tripped := false; reason := NoReason |}
  else if JS.geb (inject_Z (consecutiveFailures cb))
                 (maxConsecutiveFailures cfg)
  then ret {| tripped := true;
               reason := ConsecutiveFailures (consecutiveFailures cb) |}
  else match failureRateTrip cb with
  | Some failureRate =>
      ret {| tripped := true; reason := FailureRate failureRate |}
  | None =>
      let counter := checkCounter cb + 1 in
      put_breaker (set_checkCounter cb counter);;
      match sink with
      | Some kp =>
          if (0 <? initialSinkBalance cb) && (Z.rem counter 5 =? 0) then
            let* currentBalance := getBalance (publicKey kp) in
            let loss :=
              Z.quot ((initialSinkBalance cb - currentBalance) * 100)
                     (initialSinkBalance cb) in
            if JS.gtb (inject_Z loss) (emergencyStopLoss cfg) then
              ret {| tripped := true; reason := LossFromInitialBalance loss |}
            else ret {| tripped := false; reason := NoReason |}
          else ret {| tripped := false; reason := NoReason |}
      | None => ret {| tripped := false; reason := NoReason |}
      end
  end.

(** ** WalletManager (src/unnamed/part_002) *)

Definition set_cooldowns_counts (wm : WalletManager)
  (cooldowns counts : gmap string Z) : WalletManager :=
  {| walletData := walletData wm;
     activeWallets := activeWallets wm;
     walletCooldowns := cooldowns;
     walletTradeCount := counts;
     walletPersonalities := walletPersonalities wm;
     sinkKeypair := sinkKeypair wm |}.

Definition set_activeWallets (wm : WalletManager) (active : list Wallet)
  : WalletManager :=
  {| walletData := walletData wm;
     activeWallets := active;
     walletCooldowns := walletCooldowns wm;
     walletTradeCount := walletTradeCount wm;
     walletPersonalities := walletPersonalities wm;
     sinkKeypair := sinkKeypair wm |}.

(** [this.walletPersonalities.get(key) || 'flipper'] *)
Definition getPersonality (key : string) : M Personality :=
  let* wm := get_wallets in
  ret (default flipper (walletPersonalities wm !! key)).

(** [cleanupOldCooldowns(now)]: entries older than the retention horizon are
    deleted; with one chance in a hundred, trade counts above 1000 are set
    back to 1000. *)
Definition cleanupOldCooldowns (now : Z) : M unit :=
  let* wm := get_wallets in
  let kept :=
    filter (λ kv : string * Z, ¬ (MAX_COOLDOWN_AGE_MS < now - kv.2))
           (walletCooldowns wm) in
  let* r := Math_random_call in
  let counts :=
    if JS.ltb r (1 # 100)
    then (λ count : Z, if 1000 <? count then 1000 else count)
           <$> walletTradeCount wm
    else walletTradeCount wm in
  put_wallets (set_cooldowns_counts wm kept counts).

(** [[a[i], a[j]] = [a[j], a[i]]].  Both indices are inside the array
    whenever the draw is in [[0, 1)]. *)
Definition swap {A} (l : list A) (i j : nat) : list A :=
  match l !! i, l !! j with
  | Some x, Some y => <[j := x]> (<[i := y]> l)
  | _, _ => l
  end.

(** The loop of [shuffleArray]: [for (i = length - 1; i > 0; i--)]. *)
Fixpoint shuffleArray_loop {A} (i : nat) (shuffled : list A) : M (list A) :=
  match i with
  | O => ret shuffled
  | S i' =>
      let* r := Math_random_call in
      let j := Z.to_nat (JS.floor (r * inject_Z (Z.of_nat i + 1))) in
      shuffleArray_loop i' (swap shuffled i j)
  end.

Definition shuffleArray {A} (array : list A) : M (list A) :=
  shuffleArray_loop (length array - 1)%nat array.

(** The multiplier [1 + (tradeCount % 5) * 0.2] and the cooldown computed
    from a base, with exact sums and products: the cooldown of the
    formula, which the doubles of [getWalletCooldown_double] below miss by
    at most one millisecond. *)
Definition cooldownMultiplier (tradeCount : Z) : Q :=
  (1 + inject_Z (Z.rem tradeCount 5) * (2 # 10))%Q.

Definition baseCooldown (r : Q) : Q :=
  (minWalletCooldownMs cfg
   + r * (maxWalletCooldownMs cfg - minWalletCooldownMs cfg))%Q.

Definition getWalletCooldown (walletKey : string) : M Z :=
  let* wm := get_wallets in
  let tradeCount := default 0 (walletTradeCount wm !! walletKey) in
  let* r := Math_random_call in
  ret (JS.floor (baseCooldown r * cooldownMultiplier tradeCount)).

(** [array.filter(pred)] for a predicate that draws random numbers. *)
Fixpoint filterM {A} (pred : A → M bool) (l : list A) : M (list A) :=
  match l with
  | [] => ret []
  | x :: rest =>
      let* keep := pred x in
      let* rest' := filterM pred rest in
      ret (if keep then x :: rest' else rest')
  end.

(** The readiness test of [loadActiveBatch] for one wallet. *)
Definition isReady (now : Z) (w : WalletData) : M bool :=
  let* wm := get_wallets in
  let lastTrade := default 0 (walletCooldowns wm !! pubkey w) in
  let* cooldown := getWalletCooldown (pubkey w) in
  ret (cooldown <=? now - lastTrade).

Definition toActiveWallet (w : WalletData) : Wallet :=
  {| keypair := Keypair_fromSecretKey E (privateKey w);
     wallet_name :=
       if JS.truthy_string (name w) then name w
       else String.substring 0 6 (pubkey w);
     wallet_pubkey := pubkey w |}.

Definition loadActiveBatch : M (list Wallet) :=
  let* now := Date_now_call in
  cleanupOldCooldowns now;;
  let* wm := get_wallets in
  let* ready := filterM (isReady now) (walletData wm) in
  if (length ready =? 0)%nat then ret [] else
  let* shuffled :=
    if shuffleWallets cfg then shuffleArray ready else ret ready in
  let selected := JS.slice0 shuffled (batchSize cfg) in
  let* wm' := get_wallets in
  let active := toActiveWallet <$> selected in
  put_wallets (set_activeWallets wm' active);;
  ret active.

(** [getWalletCooldown] and the selection with the arithmetic of doubles:
    the difference, the products and the sums are rounded one by one, as
    they are computed.  [81925 * (1 + 2 * 0.2)] is a double just below
    114695, and its floor is 114694. *)
Definition cooldownMultiplier_double (tradeCount : Z) : Q :=
  JS.add 1 (JS.mul (inject_Z (Z.rem tradeCount 5)) (JS.double (2 # 10))).

Definition baseCooldown_double (r : Q) : Q :=
  JS.add (minWalletCooldownMs cfg)
         (JS.mul r (JS.sub (maxWalletCooldownMs cfg) (minWalletCooldownMs cfg))).

Definition getWalletCooldown_double (walletKey : string) : M Z :=
  let* wm := get_wallets in
  let tradeCount := default 0 (walletTradeCount wm !! walletKey) in
  let* r := Math_random_call in
  ret (JS.floor (JS.mul (baseCooldown_double r)
                        (cooldownMultiplier_double tradeCount))).

Definition isReady_double (now : Z) (w : WalletData) : M bool :=
  let* wm := get_wallets in
  let lastTrade := default 0 (walletCooldowns wm !! pubkey w) in
  let* cooldown := getWalletCooldown_double (pubkey w) in
  ret (cooldown <=? now - lastTrade).

Definition loadActiveBatch_double : M (list Wallet) :=
  let* now := Date_now_call in
  cleanupOldCooldowns now;;
  let* wm := get_wallets in
  let* ready := filterM (isReady_double now) (walletData wm) in
  if (length ready =? 0)%nat then ret [] else
  let* shuffled :=
    if shuffleWallets cfg then shuffleArray ready else ret ready in
  let selected := JS.slice0 shuffled (batchSize cfg) in
  let* wm' := get_wallets in
  let active := toActiveWallet <$> selected in
  put_wallets (set_activeWallets wm' active);;
  ret active.

Definition markWalletUsed (wallet : Wallet) : M unit :=
  let walletKey := publicKey (keypair wallet) in
  let* now := Date_now_call in
  let* wm := get_wallets in
  put_wallets
    (set_cooldowns_counts wm
       (<[walletKey := now]> (walletCooldowns wm))
       (<[walletKey := default 0 (walletTradeCount wm !! walletKey) + 1]>
          (walletTradeCount wm))).

(** ** TradingEngine (src/src/trading/TradingEngine.js) *)

Definition set_sentimentScore (score : Z) (te : TradingEngine)
  : TradingEngine :=
  {| sentimentScore := score;
     lastSentimentFetch := lastSentimentFetch te;
     cycleCount := cycleCount te;
     isRunning := isRunning te |}.

Definition set_lastSentimentFetch (fetched : Z) (te : TradingEngine)
  : TradingEngine :=
  {| sentimentScore := sentimentScore te;
     lastSentimentFetch := fetched;
     cycleCount := cycleCount te;
     isRunning := isRunning te |}.

(** [getJitteredValue(base, jitterPct)] (src/src/utils.js) *)
Definition getJitteredValue (base jitter : Q) : M Q :=
  let* r := Math_random_call in
  let variance := ((r - (1 # 2)) * 2 * jitter)%Q in
  ret (base * (1 + variance))%Q.

Definition getRandomDelay : M Q :=
  getJitteredValue (baseDelayMs cfg) (jitterPct cfg).

(** [fetchSentiment]: at most one request per hour; a failed request keeps
    the previous score. *)
Definition fetchSentiment : M Z :=
  let* now := Date_now_call in
  let* te := get_engine in
  if now - lastSentimentFetch te <? SENTIMENT_FETCH_COOLDOWN_MS
  then ret (sentimentScore te)
  else
    try_catch
      (let* n := tick in
       let* score := lift (axios_fearAndGreed E n) in
       modify_engine (set_sentimentScore score);;
       let* fetched := Date_now_call in
       modify_engine (set_lastSentimentFetch fetched))
      (λ _, ret tt);;
    let* te' := get_engine in
    ret (sentimentScore te').

Definition getSentimentBias (te : TradingEngine) : Q :=
  let score := sentimentScore te in
  if 50 <? score then 8 # 10
  else if score <? 30 then 3 # 10
  else 1 # 2.

Definition getCurrentMemeBalance (wallet : Wallet) : M Z :=
  try_catch (getAccount_amount (publicKey (keypair wallet)))
            (λ _, ret 0).

Definition getProfileAdjustedAmount (wallet : Wallet) (isBuy : bool) : M Z :=
  let amount := swapAmount cfg in
  let* (amount, maxCapMultiplier) :=
    match behaviorProfile cfg with
    | whale => ret (amount * 5, 5)
    | mixed =>
        let* r := Math_random_call in
        ret (amount * (if JS.ltb r (3 # 10) then 3 else 1), 3)
    | retail => ret (amount, 2)
    end in
  let* personality := getPersonality (publicKey (keypair wallet)) in
  let* (amount, maxCapMultiplier) :=
    match personality, isBuy with
    | hodler, true => ret (amount * 2, Z.max maxCapMultiplier 4)
    | momentum, _ =>
        let* score := fetchSentiment in
        ret (amount * JS.floor (inject_Z score / 50), Z.max maxCapMultiplier 4)
    | _, _ => ret (amount, maxCapMultiplier)
    end in
  let* amount :=
    if negb isBuy then getCurrentMemeBalance wallet else ret amount in
  if isBuy then
    let maxAmount := swapAmount cfg * maxCapMultiplier in
    ret (if amount <? maxAmount then amount else maxAmount)
  else ret amount.

Definition getAdaptiveAmount (wallet : Wallet) (isBuy : bool) (baseAmount : Z)
  : M Z :=
  let amount := baseAmount in
  let* vol := fetchVolatility in
  let amount :=
    if JS.gtb vol (volThreshold cfg) then Z.quot (amount * 5) 10
    else if JS.ltb vol (1 # 100) then Z.quot (amount * 15) 10
    else amount in
  if useBirdeye cfg then
    let* liquidity := getMarketData_liquidity in
    match liquidity with
    | Some l =>
        let liquidityRatio := (l / 10000)%Q in
        ret (if JS.ltb liquidityRatio 1 then Z.quot (amount * 5) 10
             else if JS.gtb liquidityRatio 10 then Z.quot (amount * 12) 10
             else amount)
    | None => ret amount
    end
  else ret amount.

(** [isBuyFirst] and [getTradeActions] *)
Definition isBuyFirst (wallet : Wallet) : M bool :=
  let* te := get_engine in
  let sentimentBias := getSentimentBias te in
  let* personality := getPersonality (publicKey (keypair wallet)) in
  let prob := (buyProb cfg * sentimentBias)%Q in
  let prob :=
    match personality with
    | hodler => JS.min (9 # 10) (prob * (15 # 10))
    | flipper => 1 # 2
    | momentum => JS.min 1 (prob * (12 # 10))
    end in
  let* r := Math_random_call in
  ret (JS.ltb r prob).

(** [Array(n)]: a RangeError unless [n] is a whole number of
    [[0, 2^32 - 1]]. *)
Definition Array_length (n : Q) : Outcome nat :=
  if JS.isInteger n && JS.leb 0 n && JS.ltb n (inject_Z (2 ^ 32))
  then Return (Z.to_nat (JS.floor n))
  else Throw "RangeError: Invalid array length".

(** [Array.from({ length: n }, f)] makes [ToLength(n)] draws. *)
Fixpoint randomActions (n : nat) : M (list bool) :=
  match n with
  | O => ret []
  | S k =>
      let* r := Math_random_call in
      let* rest := randomActions k in
      ret (JS.ltb r (buyProb cfg) :: rest)
  end.

(** [for (i = 0; i < n; i++) actions.push(baseActions[i % 2])] *)
Fixpoint alternate (first : bool) (n : nat) : list bool :=
  match n with
  | O => []
  | S k => first :: alternate (negb first) k
  end.

Definition getTradeActions (wallet : Wallet) : M (list bool) :=
  let n := numActionsPerCycle cfg in
  match tradeMode cfg with
  | buy_only => let* k := lift (Array_length n) in ret (replicate k true)
  | sell_only => let* k := lift (Array_length n) in ret (replicate k false)
  | buy_first =>
      let* k := lift (Array_length (n - 1)) in ret (true :: replicate k false)
  | sell_first =>
      let* k := lift (Array_length (n - 1)) in ret (false :: replicate k true)
  | random => randomActions (Z.to_nat (JS.trunc n))
  | adaptive =>
      let* buyFirst := isBuyFirst wallet in
      ret (alternate buyFirst (Z.to_nat (Qceiling n)))
  end.

(** *** performSingleSwap *)

Definition maxRetries : nat := 3.

(** One pass through the [try] block of [performSingleSwap]: the request
    sent to the Trade Execution Service, and [!!sig]. *)
Definition swapRequest (isBuy : bool) (wallet : Wallet) (amount : Z)
  : TradeRequest :=
  {| req_isBuy := isBuy;
     req_wallet := publicKey (keypair wallet);
     req_amount := if isBuy then Z.quot amount LAMPORTS_PER_SOL else amount;
     req_slippage :=
       match behaviorProfile cfg with
       | retail => DEFAULT_SLIPPAGE_RETAIL
       | _ => DEFAULT_SLIPPAGE_WHALE
       end |}.

Definition attemptSwap (isBuy : bool) (wallet : Wallet) (amount : Z) : M bool :=
  let* sig := trader_call (swapRequest isBuy wallet amount) in
  ret (JS.truthy_string sig).

(** The retry loop, [remaining = maxRetries - attempt] iterations to go.
    [Some b] from the protected block is [return b]; [None] is the end of
    the [catch] block, which continues the loop.  A loop that ran out would
    return [undefined], a falsy value. *)
Fixpoint performSingleSwap_loop (remaining attempt : nat)
  (isBuy : bool) (wallet : Wallet) (amount : Z) : M bool :=
  match remaining with
  | O => ret false
  | S remaining' =>
      let* returned :=
        try_catch
          (let* ok := attemptSwap isBuy wallet amount in ret (Some ok))
          (λ error,
             if (attempt =? maxRetries - 1)%nat then throw error
             else delay (JS.pow2 attempt * 1000);; ret None) in
      match returned with
      | Some ok => ret ok
      | None =>
          performSingleSwap_loop remaining' (S attempt) isBuy wallet amount
      end
  end.

Definition performSingleSwap (isBuy : bool) (wallet : Wallet) (amount : Z)
  : M bool :=
  performSingleSwap_loop maxRetries 0 isBuy wallet amount.

(** *** twapSwap *)

(** The array [parts] of [twapSwap].  [amount.div] throws on a zero
    divisor and [Array(twapParts)] on anything that is not an array length,
    so [twapParts] has to be a positive whole number. *)
Definition twapSwap_parts (amount : Z) : Outcome (list Z) :=
  let n := twapParts cfg in
  if negb (JS.isInteger n) || JS.leb n 0 || JS.geb n (inject_Z (2 ^ 32))
  then Throw "twapParts is not a positive array length"
  else
    let k := JS.floor n in
    let partAmount := Z.quot amount k in
    let remainder := Z.rem amount k in
    match replicate (Z.to_nat k) partAmount with
    | [] => Throw "TypeError: parts[0] is undefined"
    | first :: others => Return (first + remainder :: others)
    end.

(** [!this.isRunning] on the engine: an absent property is falsy. *)
Definition engine_isRunning (te : TradingEngine) : bool :=
  match isRunning te with
  | Some b => b
  | None => false
  end.

(** The loop of [twapSwap] from index [i] on, over the parts still to do. *)
Fixpoint twapSwap_loop (isBuy : bool) (wallet : Wallet) (len i : nat)
  (todo : list Z) (anySuccess : bool) : M bool :=
  match todo with
  | [] => ret anySuccess
  | share :: todo' =>
      let* te := get_engine in
      if negb (engine_isRunning te) then ret anySuccess else
      let* part := getAdaptiveAmount wallet isBuy share in
      if part <=? 0
      then twapSwap_loop isBuy wallet len (S i) todo' anySuccess
      else
        lift (JS.BN_toNumber (Z.quot part LAMPORTS_PER_SOL));;
        let* success := performSingleSwap isBuy wallet part in
        if negb success then ret anySuccess else
        (if (i <? len - 1)%nat then
           let* r := Math_random_call in
           delay (r * twapMaxDelay cfg)
         else ret tt);;
        twapSwap_loop isBuy wallet len (S i) todo' true
  end.

Definition twapSwap (isBuy : bool) (wallet : Wallet) (amount : Z) : M bool :=
  let* parts := lift (twapSwap_parts amount) in
  twapSwap_loop isBuy wallet (length parts) 0 parts false.

(** *** performSwap *)

(** The partial-sell amount: [pct] is a fraction, [pctBigInt] a whole
    percentage.  The sum, the products and the difference are those of
    doubles: [0.29 * 100] is a double just below 29, and its floor is 28. *)
Definition partialSellPct (r : Q) : Q :=
  JS.add (partialSellMin cfg)
         (JS.mul r (JS.sub (partialSellMax cfg) (partialSellMin cfg))).

Definition partialSellAmount (currentTokens : Z) (r : Q) : Z :=
  let pctBigInt := JS.floor (JS.mul (partialSellPct r) 100) in
  Z.quot (currentTokens * pctBigInt) 100.

(** [MIN_MEME_TOKENS] is a [BigInt]: the test [currentTokens.lt(...)] is
    [JS.BN_lt_BigInt]. *)
Definition partialSell (wallet : Wallet) : M bool :=
  let* currentTokens := getCurrentMemeBalance wallet in
  if JS.BN_lt_BigInt currentTokens MIN_MEME_TOKENS then ret false else
  let* r := Math_random_call in
  performSingleSwap false wallet (partialSellAmount currentTokens r).

(** The ramp: [Math.min(1, (this.cycleCount + 1) / this.config.rampCycles)]
    read on the engine, and the amount scaled by its whole percentage. *)
Definition rampFactor (te : TradingEngine) : Q :=
  JS.min 1 ((inject_Z (cycleCount te + 1)) / rampCycles cfg).

Definition rampedAmount (te : TradingEngine) (adjustedAmount : Z) : Z :=
  Z.quot (adjustedAmount * JS.floor (rampFactor te * 100)) 100.

(** Sizing and the market check: [Some finalAmount] when the swap goes on,
    [None] when [performSwap] returns [false] here. *)
Definition sizeAndCheck (isBuy : bool) (wallet : Wallet) : M (option Z) :=
  let* baseAmount := getProfileAdjustedAmount wallet isBuy in
  let* adjustedAmount := getAdaptiveAmount wallet isBuy baseAmount in
  let* te := get_engine in
  let finalAmount := rampedAmount te adjustedAmount in
  if finalAmount <=? 0 then ret None else
  let* amountInSol :=
    if isBuy
    then lift (JS.BN_toNumber (Z.quot finalAmount LAMPORTS_PER_SOL))
    else ret 0 in
  let* safe := checkMarketConditions amountInSol in
  if negb safe then ret None else ret (Some finalAmount).

(** The split decision: a buy of more than 0.005 whole SOL, a sell of more
    than 1000000 tokens. *)
Definition useTwap (isBuy : bool) (finalAmount : Z) : Outcome bool :=
  if isBuy then
    match JS.BN_toNumber (Z.quot finalAmount LAMPORTS_PER_SOL) with
    | Return sol => Return (JS.gtb (inject_Z sol) (5 # 1000))
    | Throw e => Throw e
    end
  else
    match JS.BN_toNumber finalAmount with
    | Return tokens => Return (JS.gtb (inject_Z tokens) 1000000)
    | Throw e => Throw e
    end.

Definition executeSwap (isBuy : bool) (wallet : Wallet) (finalAmount : Z)
  : M bool :=
  let* split := lift (useTwap isBuy finalAmount) in
  if split then twapSwap isBuy wallet finalAmount
  else performSingleSwap isBuy wallet finalAmount.

(** What follows a passed market check: a hodler skips a buy when the draw
    is below 0.3, and the swap reports success. *)
Definition afterMarketCheck (isBuy : bool) (wallet : Wallet) (finalAmount : Z)
  : M bool :=
  let* personality := getPersonality (publicKey (keypair wallet)) in
  let* hodling :=
    match personality, isBuy with
    | hodler, true => let* r := Math_random_call in ret (JS.ltb r (3 # 10))
    | _, _ => ret false
    end in
  if hodling then ret true else executeSwap isBuy wallet finalAmount.

Definition performSwap (isBuy : bool) (wallet : Wallet) : M bool :=
  fetchSentiment;;
  if negb isBuy && partialSellEnabled cfg then partialSell wallet else
  let* sized := sizeAndCheck isBuy wallet in
  match sized with
  | None => ret false
  | Some finalAmount => afterMarketCheck isBuy wallet finalAmount
  end.

(** *** processWalletCycle *)

Record CycleResult := { success : bool; volume : Z }.

Definition record (ok : bool) : M unit :=
  let* cb := get_breaker in put_breaker (recordTradeResult cfg cb ok).

(** The body of [for (const isBuy of actions)]; returns the cycle volume.
    The test [tokens.lt(MIN_MEME_TOKENS)] that is meant to skip a sell is
    [JS.BN_lt_BigInt]. *)
Definition processAction (wallet : Wallet) (cycleVolume : Z) (isBuy : bool)
  : M Z :=
  let pk := publicKey (keypair wallet) in
  let* skip :=
    if negb isBuy then
      let* tokens := getCurrentMemeBalance wallet in
      ret (JS.BN_lt_BigInt tokens MIN_MEME_TOKENS)
    else ret false in
  if skip then ret cycleVolume else
  let* solBefore := getBalance pk in
  let* ok := performSwap isBuy wallet in
  let* cycleVolume' :=
    if ok then
      let* solAfter := getBalance pk in
      let solDelta := if isBuy then solBefore - solAfter
                      else solAfter - solBefore in
      let* sol := lift (JS.BN_toNumber (Z.quot solDelta LAMPORTS_PER_SOL)) in
      record true;;
      ret (cycleVolume + sol)
    else
      record false;;
      ret cycleVolume in
  let* pause := getRandomDelay in
  delay pause;;
  ret cycleVolume'.

Fixpoint processActions (wallet : Wallet) (cycleVolume : Z)
  (actions : list bool) : M Z :=
  match actions with
  | [] => ret cycleVolume
  | isBuy :: rest =>
      let* cycleVolume' := processAction wallet cycleVolume isBuy in
      processActions wallet cycleVolume' rest
  end.

Definition processWalletCycle (wallet : Wallet) : M CycleResult :=
  try_catch
    (let* balance := getBalance (publicKey (keypair wallet)) in
     if balance <? JS.floor ((1 # 100) * inject_Z LAMPORTS_PER_SOL)
     then ret {| success := false; volume := 0 |}
     else
       let* actions := getTradeActions wallet in
       let* cycleVolume := processActions wallet 0 actions in
       markWalletUsed wallet;;
       ret {| success := true; volume := cycleVolume |})
    (λ _, record false;; ret {| success := false; volume := 0 |}).

(** ** VolumeBoosterBot.runLoop (src/src/VolumeBoosterBot.js)

    One turn of [while (this.isRunning)], in two halves around the fan-out
    of the batch.  [batchNum] is the local counter of the loop.  The first
    half ends with what the orchestrator decides to do with this cycle.  On
    a trip only the first statement of [stop()] is represented (the sweep of
    funds and the exit of the process are not). *)
Inductive CycleDecision :=
| LoopExit
| Trip (why : TripReason)
| Backoff
| FanOut (batchNum : Z) (walletBatch : list Wallet).

Definition set_bot_cycleCount (b : VolumeBoosterBot) (n : Z)
  : VolumeBoosterBot :=
  {| bot_isRunning := bot_isRunning b; bot_cycleCount := n |}.

Definition set_bot_isRunning (b : VolumeBoosterBot) (running : bool)
  : VolumeBoosterBot :=
  {| bot_isRunning := running; bot_cycleCount := bot_cycleCount b |}.

Definition runLoop_cycle (batchNum : Z) : M CycleDecision :=
  let* b := get_bot in
  if negb (bot_isRunning b) then ret LoopExit else
  let* wm := get_wallets in
  let* circuitCheck := checkCircuitBreakers (sinkKeypair wm) in
  if tripped circuitCheck then
    put_bot (set_bot_isRunning b false);;
    ret (Trip (reason circuitCheck))
  else
  loadActiveBatch;;
  let* wm' := get_wallets in
  let walletBatch := activeWallets wm' in
  if (length walletBatch =? 0)%nat then
    delay 30000;; ret Backoff
  else
    let* b' := get_bot in
    put_bot (set_bot_cycleCount b' (bot_cycleCount b' + 1));;
    getMarketData_liquidity;;
    ret (FanOut (batchNum + 1) walletBatch).

(** Modelled from the spec: [WalletRebalancer.rebalanceWallets], of the
    file [./rebalancing/WalletRebalancer.js], which [VolumeBoosterBot.js]
    imports and which is not among the sources.  The specification says of
    the rebalancer that it moves funds between agents to keep balances
    within a target band: an interaction with the chain, issued and then
    resolved or rejected as the environment decides, on funds that are not
    on the heap of the process. *)
Definition rebalanceWallets : M unit :=
  let* n := tick in
  emit EvRebalance;;
  lift (rebalancer_rebalanceWallets E n).

(** The second half, after the batch settled: rebalancing every
    [rebalanceInterval] cycles, a session pause every [sessionPauseMin]
    batches, and the pause between batches. *)
Definition runLoop_afterBatch (batchNum : Z) : M unit :=
  let* b := get_bot in
  (if enableRebalancing cfg
      && JS.rem_is_zero (inject_Z (bot_cycleCount b)) (rebalanceInterval cfg)
   then rebalanceWallets else ret tt);;
  (if JS.rem_is_zero (inject_Z batchNum) (sessionPauseMin cfg) then
     let* r := Math_random_call in
     let* pauseMs := getJitteredValue (60000 * (1 + r * 4)) (jitterPct cfg) in
     delay pauseMs
   else ret tt);;
  let* r := Math_random_call in
  delay (r * 10000 + 5000).

End Program.

(** * MarketDataProvider (src/unnamed/part_000)

    The provider is modelled on its own heap: the cache, the time of the
    last request, a logical clock for its calls to the outside and the
    waits it makes.  A numeric field of a response is a number or is
    missing ([None], which stands for [undefined] and [NaN]: every
    comparison with it is false and arithmetic on it gives [NaN]); a JSON
    [null] or a string in such a field is outside the model. *)

Module MarketDataProvider.

Definition JSNumber := option Q.

Definition lt (a b : JSNumber) : bool :=
  match a, b with
  | Some x, Some y => JS.ltb x y
  | _, _ => false
  end.

Definition gt (a b : JSNumber) : bool := lt b a.

Definition mul (a b : JSNumber) : JSNumber :=
  match a, b with
  | Some x, Some y => Some (x * y)%Q
  | _, _ => None
  end.

(** [a / b]; the callers divide by a number they have tested against 0. *)
Definition div (a b : JSNumber) : JSNumber :=
  match a, b with
  | Some x, Some y => if Qeq_bool y 0 then None else Some (x / y)%Q
  | _, _ => None
  end.

(** [Math.min(a, b)]: [NaN] when an argument is. *)
Definition min (a b : JSNumber) : JSNumber :=
  match a, b with
  | Some x, Some y => Some (JS.min x y)
  | _, _ => None
  end.

(** [x || 0] on a number: 0 for 0, [NaN] and [undefined]. *)
Definition or_zero (a : JSNumber) : JSNumber :=
  match a with
  | Some x => Some x
  | None => Some 0%Q
  end.

(** [x === 0] *)
Definition is_zero (a : JSNumber) : bool :=
  match a with
  | Some x => Qeq_bool x 0
  | None => false
  end.

Inductive Source := none | Birdeye | DexScreener | CoinGecko.

Record Cache := {
  price : JSNumber;
  priceChange24h : JSNumber;
  volume24h : JSNumber;
  liquidity : JSNumber;
  lastUpdate : Z;
  source : Source
}.

(** The fields of the configuration the provider reads. *)
Record Config := {
  useBirdeye : bool;
  memeCoinPairAddress : option string;
  minLiquidity : Q;
  maxPriceImpact : Q
}.

(** What the [try] block of a tier evaluates before it assigns the cache:
    [Return (Some q)] when the request resolved, the test on the response
    held and the fields were read; [Return None] when the test failed;
    [Throw] when the request was rejected or a read threw. *)
Record Quote := {
  quote_price : JSNumber;
  quote_priceChange24h : JSNumber;
  quote_volume24h : JSNumber;
  quote_liquidity : JSNumber
}.

Record Env := {
  Date_now : nat → Z;
  birdeye_price : nat → Outcome (option Quote);
  dexscreener_pair : nat → Outcome (option Quote);
  coingecko_price : nat → Outcome (option Quote);
  dexscreener_sol : nat → Outcome (option JSNumber);
  coingecko_sol : nat → Outcome (option JSNumber)
}.

Record Provider := {
  clock : nat;
  waits : list Z;
  cache : Cache;
  lastApiCall : Z
}.

Definition cacheDuration : Z := 60000.
Definition apiCallInterval : Z := 1000.

Definition constructor : Provider :=
  {| clock := 0;
     waits := [];
     cache := {| price := Some 0%Q; priceChange24h := Some 0%Q;
                 volume24h := Some 0%Q; liquidity := Some 0%Q;
                 lastUpdate := 0; source := none |};
     lastApiCall := 0 |}.

Definition tick (p : Provider) : Provider :=
  {| clock := S (clock p); waits := waits p; cache := cache p;
     lastApiCall := lastApiCall p |}.

Definition wait (ms : Z) (p : Provider) : Provider :=
  {| clock := S (clock p); waits := waits p ++ [ms]; cache := cache p;
     lastApiCall := lastApiCall p |}.

Definition set_cache (c : Cache) (p : Provider) : Provider :=
  {| clock := clock p; waits := waits p; cache := c;
     lastApiCall := lastApiCall p |}.

Definition set_lastApiCall (t : Z) (p : Provider) : Provider :=
  {| clock := clock p; waits := waits p; cache := cache p;
     lastApiCall := t |}.

Definition store (q : Quote) (liq : JSNumber) (now : Z) (src : Source) : Cache :=
  {| price := quote_price q;
     priceChange24h := quote_priceChange24h q;
     volume24h := quote_volume24h q;
     liquidity := liq;
     lastUpdate := now;
     source := src |}.

Section Provider.

Context (E : Env) (cfg : Config).

(** Tier 3, and the stale cache when it fails too. *)
Definition tier_CoinGecko (now : Z) (p : Provider) : Cache * Provider :=
  let response := coingecko_price E (clock p) in
  let p := tick p in
  match response with
  | Return (Some q) =>
      let lastLiquidity := or_zero (liquidity (cache p)) in
      let p := set_cache (store q lastLiquidity now CoinGecko) p in
      (cache p, p)
  | _ => (cache p, p)
  end.

Definition tier_DexScreener (now : Z) (p : Provider) : Cache * Provider :=
  match memeCoinPairAddress cfg with
  | Some address =>
      if JS.truthy_string address then
        let response := dexscreener_pair E (clock p) in
        let p := tick p in
        match response with
        | Return (Some q) =>
            let p := set_cache (store q (quote_liquidity q) now DexScreener) p in
            (cache p, p)
        | _ => tier_CoinGecko now p
        end
      else tier_CoinGecko now p
  | None => tier_CoinGecko now p
  end.

Definition tier_Birdeye (now : Z) (p : Provider) : Cache * Provider :=
  if useBirdeye cfg then
    let response := birdeye_price E (clock p) in
    let p := tick p in
    match response with
    | Return (Some q) =>
        let p := set_cache (store q (quote_liquidity q) now Birdeye) p in
        (cache p, p)
    | _ => tier_DexScreener now p
    end
  else tier_DexScreener now p.

Definition getMarketData (p : Provider) : Cache * Provider :=
  let now := Date_now E (clock p) in
  let p := tick p in
  if now - lastUpdate (cache p) <? cacheDuration then (cache p, p) else
  let timeSinceLastCall := now - lastApiCall p in
  let p :=
    if timeSinceLastCall <? apiCallInterval
    then wait (apiCallInterval - timeSinceLastCall) p
    else p in
  let p := set_lastApiCall (Date_now E (clock p)) (tick p) in
  tier_Birdeye now p.

Definition getSolPriceUsd (p : Provider) : JSNumber * Provider :=
  let response := dexscreener_sol E (clock p) in
  let p := tick p in
  match response with
  | Return (Some priceUsd) => (priceUsd, p)
  | _ =>
      let response := coingecko_sol E (clock p) in
      let p := tick p in
      match response with
      | Return (Some usd) => (usd, p)
      | _ => (Some 150%Q, p)
      end
  end.

Definition estimatePriceImpact (amountInSol : Q) (p : Provider)
  : JSNumber * Provider :=
  let '(_, p) := getMarketData p in
  let '(solPriceUsd, p) := getSolPriceUsd p in
  let amountInUsd := mul (Some amountInSol) solPriceUsd in
  let liq := liquidity (cache p) in
  if is_zero liq then (Some 100%Q, p) else
  let impact := mul (div amountInUsd liq) (Some 100%Q) in
  (min impact (Some 100%Q), p).

Record MarketCheck := { safe : bool; priceImpact : JSNumber }.

Definition checkMarketConditions (amountInSol : Q) (p : Provider)
  : MarketCheck * Provider :=
  let '(_, p) := getMarketData p in
  if lt (liquidity (cache p)) (Some (minLiquidity cfg))
  then ({| safe := false; priceImpact := None |}, p)
  else
    let '(impact, p) := estimatePriceImpact amountInSol p in
    if gt impact (Some (maxPriceImpact cfg))
    then ({| safe := false; priceImpact := None |}, p)
    else ({| safe := true; priceImpact := impact |}, p).

(** No answer with data from Birdeye (when enabled) or DexScreener (when
    a pair address is configured): only CoinGecko can refresh the cache. *)
Definition only_CoinGecko : Prop :=
  (useBirdeye cfg = true →
   ∀ n q, birdeye_price E n ≠ Return (Some q))
  ∧ (∀ address, memeCoinPairAddress cfg = Some address →
       JS.truthy_string address = true →
       ∀ n q, dexscreener_pair E n ≠ Return (Some q)).

End Provider.

(** An environment where only CoinGecko answers, with a price and no
    liquidity, and one where Birdeye answers with a pool of 50000 USD;
    the clock advances by a second per call. *)
Definition coinGeckoEnv : Env :=
  {| Date_now := λ n, 1700000000000 + 1000 * Z.of_nat n;
     birdeye_price := λ _, Throw "ECONNREFUSED";
     dexscreener_pair := λ _, Return None;
     coingecko_price :=
       λ _, Return (Some {| quote_price := Some 1%Q;
                            quote_priceChange24h := Some 0%Q;
                            quote_volume24h := Some 1000%Q;
                            quote_liquidity := None |});
     dexscreener_sol := λ _, Return (Some (Some 150%Q));
     coingecko_sol := λ _, Return (Some (Some 150%Q)) |}.

Definition birdeyeEnv (liq : JSNumber) : Env :=
  {| Date_now := λ n, 1700000000000 + 1000 * Z.of_nat n;
     birdeye_price :=
       λ _, Return (Some {| quote_price := Some 1%Q;
                            quote_priceChange24h := Some 0%Q;
                            quote_volume24h := Some 1000%Q;
                            quote_liquidity := liq |});
     dexscreener_pair := λ _, Return None;
     coingecko_price := λ _, Return None;
     dexscreener_sol := λ _, Return (Some (Some 150%Q));
     coingecko_sol := λ _, Return (Some (Some 150%Q)) |}.

(** The default thresholds: MIN_LIQUIDITY_USD=5000 and
    MAX_PRICE_IMPACT_PCT=5, stored by [validatePercentage] as 0.05. *)
Definition defaultConfig (birdeye : bool) : Config :=
  {| useBirdeye := birdeye;
     memeCoinPairAddress := None;
     minLiquidity := 5000;
     maxPriceImpact := 5 / 100 |}.

End MarketDataProvider.

(** * Transfers of SOL: funding and the final sweep

    [WalletManager.fundSingleWallet] (src/unnamed/part_002) and
    [VolumeBoosterBot.withdrawSingleWallet] (src/src/VolumeBoosterBot.js),
    on a heap of their own: the set [funded], the transfers submitted to
    the RPC node and the waits. *)

Module Transfers.

(** The two numeric types of JavaScript that the sweep mixes. *)
Inductive JSNumeric :=
| Number (x : Q)
| BigInt (n : Z).

(** [a - b]: the operands must have the same type. *)
Definition minus (a b : JSNumeric) : Outcome JSNumeric :=
  match a, b with
  | Number x, Number y => Return (Number (x - y))
  | BigInt m, BigInt n => Return (BigInt (m - n))
  | _, _ =>
      Throw "TypeError: Cannot mix BigInt and other types, use explicit conversions"
  end.

(** [a < b]: a comparison may mix the two types. *)
Definition less (a b : JSNumeric) : bool :=
  let value v := match v with Number x => x | BigInt n => inject_Z n end in
  JS.ltb (value a) (value b).

Definition MIN_SOL_BUFFER_LAMPORTS : Z := 500000.
Definition MIN_TRANSFER_LAMPORTS : Z := 100000.
Definition PRIORITY_FEE_MICRO_LAMPORTS : Z := 10000.

Record Transfer := {
  fromPubkey : string;
  toPubkey : string;
  lamports : JSNumeric
}.

Record Env := {
  Math_random : nat → Q;
  getBalance : nat → string → Outcome Z;
  sendTransaction : nat → Transfer → Outcome string;
  confirmTransaction : nat → string → Outcome unit;
  fromSecretKey : list Z → Keypair
}.

Record Heap := {
  clock : nat;
  funded : gset string;
  sent : list Transfer;
  waits : list Q
}.

Definition T (A : Type) : Type := Heap → Outcome A * Heap.

Definition ret {A} (a : A) : T A := λ h, (Return a, h).

Definition bind {A B} (m : T A) (f : A → T B) : T B := λ h,
  match m h with
  | (Return a, h') => f a h'
  | (Throw e, h') => (Throw e, h')
  end.

#[local] Notation "'do' x '<-' m 'in' k" := (bind m (fun x => k))
  (at level 10, x name, m at level 100, k at level 200).

Definition throw {A} (e : string) : T A := λ h, (Throw e, h).

Definition try_catch {A} (body : T A) (handler : string → T A) : T A := λ h,
  match body h with
  | (Return a, h') => (Return a, h')
  | (Throw e, h') => handler e h'
  end.

Definition lift {A} (o : Outcome A) : T A := λ h, (o, h).

Definition tick : T nat := λ h,
  (Return (clock h),
   {| clock := S (clock h); funded := funded h; sent := sent h;
      waits := waits h |}).

Definition add_funded (pk : string) : T unit := λ h,
  (Return tt,
   {| clock := clock h; funded := {[ pk ]} ∪ funded h; sent := sent h;
      waits := waits h |}).

Definition submit (t : Transfer) : T unit := λ h,
  (Return tt,
   {| clock := clock h; funded := funded h; sent := sent h ++ [t];
      waits := waits h |}).

Definition delay (ms : Q) : T unit := λ h,
  (Return tt,
   {| clock := S (clock h); funded := funded h; sent := sent h;
      waits := waits h ++ [ms] |}).

Section Transfers.

Context (E : Env).

Definition random : T Q :=
  do n <- tick in ret (Math_random E n).

Definition connection_getBalance (pk : string) : T Z :=
  do n <- tick in lift (getBalance E n pk).

(** [connection.sendTransaction]: the transfer is submitted, then the
    call resolves to a signature or rejects. *)
Definition connection_sendTransaction (t : Transfer) : T string :=
  do n <- tick in
  do _ <- submit t in
  lift (sendTransaction E n t).

Definition connection_confirmTransaction (sig : string) : T unit :=
  do n <- tick in lift (confirmTransaction E n sig).

(** An assignment to a binding declared with [const]. *)
Definition assign_const {A} (value : A) : T A :=
  throw "TypeError: Assignment to constant variable.".

(** The loop of [fundSingleWallet], [fuel] iterations at most (the loop
    makes at most [parts] of them). *)
Fixpoint fundSingleWallet_loop (fuel : nat) (parts p : Z) (remaining : Z)
  (relayerKeypairs : list Keypair) (kp : Keypair) : T unit :=
  match fuel with
  | O => ret tt
  | S fuel' =>
      if (p <? parts) && (MIN_SOL_BUFFER_LAMPORTS <? remaining) then
        let remainingParts := parts - p in
        do r <- random in
        let factor := JS.floor (((6 # 10) + r * (8 # 10)) * 1000) in
        let basePart :=
          Z.quot (Z.quot (remaining * factor) 1000) remainingParts in
        let partNum := Z.max basePart MIN_SOL_BUFFER_LAMPORTS in
        let cappedPart := Z.min partNum remaining in
        do r' <- random in
        let index :=
          JS.floor (r' * inject_Z (Z.of_nat (length relayerKeypairs))) in
        match (if index <? 0 then None
               else relayerKeypairs !! Z.to_nat index) with
        | None =>
            throw "TypeError: Cannot read properties of undefined"
        | Some relayer =>
            do sig <- connection_sendTransaction
                        {| fromPubkey := publicKey relayer;
                           toPubkey := publicKey kp;
                           lamports := BigInt cappedPart |} in
            do _ <- connection_confirmTransaction sig in
            let remaining := remaining - cappedPart in
            do remaining <- assign_const (Z.max remaining 0) in
            do r'' <- random in
            do _ <- delay (1000 + r'' * 2000) in
            fundSingleWallet_loop fuel' parts (p + 1) remaining
              relayerKeypairs kp
        end
      else ret tt
  end.

(** [fundSingleWallet(wallet)]; [Keypair.fromSecretKey], which runs before
    the [try] block, is taken to succeed. *)
Definition fundSingleWallet (fundAmount : Z) (relayerKeypairs : list Keypair)
  (wallet : WalletData) : T unit := λ h,
  if decide (pubkey wallet ∈ funded h) then (Return tt, h) else
  let kp := fromSecretKey E (privateKey wallet) in
  try_catch
    (do balance <- connection_getBalance (publicKey kp) in
     let threshold := Z.quot (fundAmount * 8) 10 in
     if threshold <=? balance then add_funded (pubkey wallet)
     else
       let remaining := fundAmount - balance in
       do r <- random in
       let parts := JS.floor (r * 4) + 1 in
       do _ <- fundSingleWallet_loop (Z.to_nat parts) parts 0 remaining
                 relayerKeypairs kp in
       add_funded (pubkey wallet))
    (λ _, ret tt)
    h.

(** [withdrawSingleWallet(wallet, cachedBalance)]: the balance, cached or
    read, is the Number that [connection.getBalance] resolves to. *)
Definition withdrawSingleWallet (sink : Keypair) (wallet : Wallet)
  (cachedBalance : option Z) : T bool :=
  try_catch
    (do balance <-
       match cachedBalance with
       | Some b => ret (Number (inject_Z b))
       | None =>
           do b <- connection_getBalance (publicKey (keypair wallet)) in
           ret (Number (inject_Z b))
       end in
     let priorityFee := BigInt PRIORITY_FEE_MICRO_LAMPORTS in
     do transferAmount <-
       lift (minus balance (BigInt MIN_SOL_BUFFER_LAMPORTS)) in
     do transferAmount <- lift (minus transferAmount priorityFee) in
     do r <- random in
     let jittered := (1000 * (1 + (r - (1 # 2)) * 2 * (1 # 2)))%Q in
     let jitterAmount := BigInt (JS.floor jittered) in
     do transferAmount <- lift (minus transferAmount jitterAmount) in
     if less transferAmount (BigInt MIN_TRANSFER_LAMPORTS) then ret false
     else
       do _ <- connection_sendTransaction
                 {| fromPubkey := publicKey (keypair wallet);
                    toPubkey := publicKey sink;
                    lamports := transferAmount |} in
       ret true)
    (λ _, ret false).

End Transfers.

(** An RPC node that answers every call, with draws of 1/2 and a balance
    of [balance] lamports everywhere. *)
Definition calmEnv (balance : Z) : Env :=
  {| Math_random := λ _, 1 # 2;
     getBalance := λ _ _, Return balance;
     sendTransaction := λ _ _, Return "5h1gnature";
     confirmTransaction := λ _ _, Return tt;
     fromSecretKey := λ sk, {| publicKey := "Wallet1"; secretKey := sk |} |}.

Definition emptyHeap : Heap :=
  {| clock := 0; funded := ∅; sent := []; waits := [] |}.

End Transfers.

(** * Notions used by the statements *)

(** The last [k] elements of a list. *)
Definition lastn {A} (k : nat) (l : list A) : list A :=
  drop (length l - k) l.

(** The number of failures at the head of a list of outcomes. *)
Fixpoint leadingFailures (l : list bool) : nat :=
  match l with
  | false :: rest => S (leadingFailures rest)
  | _ => O
  end.

(** The breaker after a sequence of [recordTradeResult] calls, from the
    state its constructor leaves. *)
Definition recordAll (cfg : ConfigManager) (outcomes : list bool)
  : CircuitBreaker :=
  fold_left (recordTradeResult cfg) outcomes CircuitBreaker_constructor.

(** The capacity of the outcome window, in entries. *)
Definition windowCapacity (cfg : ConfigManager) : nat :=
  Z.to_nat (JS.floor (failureRateWindow cfg)).

(** The configuration when no option is set. *)
Definition defaultConfig : ConfigManager := {|
  swapAmount := 10000000;
  tradeMode := adaptive;
  buyProb := 1 # 2;
  numActionsPerCycle := 2;
  baseDelayMs := 5000;
  jitterPct := 10 / 100;
  enableRebalancing := true;
  enableCircuitBreaker := true;
  maxConsecutiveFailures := 10;
  maxFailureRate := 50 / 100;
  failureRateWindow := 10;
  emergencyStopLoss := 30 / 100;
  batchSize := 100;
  partialSellEnabled := true;
  partialSellMin := 22 / 100;
  partialSellMax := 68 / 100;
  behaviorProfile := retail;
  minWalletCooldownMs := 300000;
  maxWalletCooldownMs := 1800000;
  shuffleWallets := true;
  rebalanceInterval := 50;
  sessionPauseMin := 10;
  twapParts := 5;
  twapMaxDelay := 10000;
  volThreshold := (5 # 100) / 100;
  rampCycles := 30;
  useBirdeye := false
|}.

(** The heap right after the constructors of [VolumeBoosterBot] ran, around
    a given breaker and wallet manager. *)
Definition World_of (cb : CircuitBreaker) (wm : WalletManager)
  (b : VolumeBoosterBot) : World :=
  {| clock := 0;
     trace := [];
     circuitBreaker := cb;
     tradingEngine := TradingEngine_constructor;
     walletManager := wm;
     bot := b |}.

(** The trip condition in the words of the specification, on the configured
    percentages [maxFailureRatePct] and [lossPct]: consecutive failures at
    the threshold; a full window whose failure percentage exceeds
    [maxFailureRatePct]; or, on every fifth check with a reference snapshot,
    a percentage loss above [lossPct]. *)
Definition specified_trip (maxConsecutive window maxFailureRatePct lossPct : Q)
  (cb : CircuitBreaker) (sink : option Keypair) (currentBalance : Z) : bool :=
  let len := inject_Z (Z.of_nat (length (recentTrades cb))) in
  let failures :=
    inject_Z (Z.of_nat (length (List.filter negb (recentTrades cb)))) in
  JS.geb (inject_Z (consecutiveFailures cb)) maxConsecutive
  || (JS.geb len window
      && JS.gtb (failures / len * 100) maxFailureRatePct)
  || (bool_decide (is_Some sink)
      && (0 <? initialSinkBalance cb)
      && (Z.rem (checkCounter cb + 1) 5 =? 0)
      && JS.gtb (inject_Z (initialSinkBalance cb - currentBalance)
                 / inject_Z (initialSinkBalance cb) * 100) lossPct).

(** [n] successive checks of the breaker; the results, oldest first. *)
Fixpoint checkTimes (E : Env) (cfg : ConfigManager) (sink : option Keypair)
  (n : nat) : M (list CheckResult) :=
  match n with
  | O => ret []
  | S k =>
      let* r := checkCircuitBreakers E cfg sink in
      let* rs := checkTimes E cfg sink k in
      ret (r :: rs)
  end.

(** An environment in which every service answers: [Math.random] always
    draws [r], every account holds [balance] lamports and [tokens] tokens,
    every trade is accepted, the market is calm and safe, and the clock
    of the host advances by [step] milliseconds per interaction. *)
Definition calmEnv (r : Q) (balance tokens step : Z) : Env := {|
  Math_random := λ _, r;
  Date_now := λ n, 1700000000000 + step * Z.of_nat n;
  connection_getBalance := λ _ _, Return balance;
  getAccount := λ _ _, Return tokens;
  trader := λ _ _, Return "5h1gnature";
  axios_fearAndGreed := λ _, Return 50;
  marketData_fetchVolatility := λ _, 2 # 100;
  marketData_getMarketData := λ _, Some 50000%Q;
  marketData_checkMarketConditions := λ _ _, Return true;
  rebalancer_rebalanceWallets := λ _, Return tt;
  Keypair_fromSecretKey :=
    λ sk, {| publicKey :=
               match sk with
               | [1] => "Wallet1"
               | [2] => "Wallet2"
               | _ => "Wallet"
               end;
             secretKey := sk |}
|}.

Definition sinkKeypair0 : Keypair :=
  {| publicKey := "Sink"; secretKey := [0] |}.

(** The breaker after [init] stored the start-up balance of the sink. *)
Definition breakerWithSnapshot (balance : Z) : CircuitBreaker :=
  {| consecutiveFailures := 0;
     recentTrades := [];
     initialSinkBalance := balance;
     checkCounter := 0 |}.

(** The sum of a list of integers. *)
Definition sumZ (l : list Z) : Z := foldr Z.add 0 l.

(** A whale configuration that trades whole SOL at full size from the
    first cycle: SWAP_AMOUNT=1, BEHAVIOR_PROFILE=whale, RAMP_CYCLES=1. *)
Definition whaleProcessEnv : ProcessEnv := {|
  SWAP_AMOUNT := Some 1%Q; TRADE_MODE := None; BUY_PROB := None;
  NUM_ACTIONS_PER_CYCLE := None; DELAY_MS := None; JITTER_PCT := None;
  ENABLE_REBALANCING := None; ENABLE_CIRCUIT_BREAKER := None;
  MAX_CONSECUTIVE_FAILURES := None;
  MAX_FAILURE_RATE_PCT := None; FAILURE_RATE_WINDOW := None;
  EMERGENCY_STOP_LOSS_PCT := None; BATCH_SIZE := None;
  PARTIAL_SELL_ENABLED := None; PARTIAL_SELL_MIN_PCT := None;
  PARTIAL_SELL_MAX_PCT := None; BEHAVIOR_PROFILE := Some whale;
  MIN_WALLET_COOLDOWN_MS := None; MAX_WALLET_COOLDOWN_MS := None;
  SHUFFLE_WALLETS := None; REBALANCE_INTERVAL_CYCLES := None;
  SESSION_PAUSE_MIN := None; TWAP_PARTS := None; TWAP_MAX_DELAY := None;
  VOL_THRESHOLD := None; RAMP_CYCLES := Some 1%Q; BIRDEYE_API_KEY := None
|}.

Definition whaleConfig : ConfigManager :=
  default defaultConfig (validateAndLoadConfig whaleProcessEnv).

(** TWAP_PARTS=5.5, every other option at its default. *)
Definition fractionalTwapProcessEnv : ProcessEnv := {|
  SWAP_AMOUNT := None; TRADE_MODE := None; BUY_PROB := None;
  NUM_ACTIONS_PER_CYCLE := None; DELAY_MS := None; JITTER_PCT := None;
  ENABLE_REBALANCING := None; ENABLE_CIRCUIT_BREAKER := None;
  MAX_CONSECUTIVE_FAILURES := None;
  MAX_FAILURE_RATE_PCT := None; FAILURE_RATE_WINDOW := None;
  EMERGENCY_STOP_LOSS_PCT := None; BATCH_SIZE := None;
  PARTIAL_SELL_ENABLED := None; PARTIAL_SELL_MIN_PCT := None;
  PARTIAL_SELL_MAX_PCT := None; BEHAVIOR_PROFILE := None;
  MIN_WALLET_COOLDOWN_MS := None; MAX_WALLET_COOLDOWN_MS := None;
  SHUFFLE_WALLETS := None; REBALANCE_INTERVAL_CYCLES := None;
  SESSION_PAUSE_MIN := None; TWAP_PARTS := Some (11 # 2);
  TWAP_MAX_DELAY := None; VOL_THRESHOLD := None; RAMP_CYCLES := None;
  BIRDEYE_API_KEY := None
|}.

Definition wallet1 : Wallet :=
  {| keypair := {| publicKey := "Wallet1"; secretKey := [1] |};
     wallet_name := "Wallet1";
     wallet_pubkey := "Wallet1" |}.

(** The trade calls of a trace. *)
Definition tradesOf (tr : list Event) : list TradeRequest :=
  omap (λ ev, match ev with EvTrade req => Some req | _ => None end) tr.

(** The fields of the engine that only its constructor writes. *)
Definition engine_fixed (w w' : World) : Prop :=
  cycleCount (tradingEngine w') = cycleCount (tradingEngine w)
  ∧ isRunning (tradingEngine w') = isRunning (tradingEngine w).

(** A computation that leaves them as they are, whatever it returns. *)
Definition keeps {A} (m : M A) : Prop := ∀ w, engine_fixed w (snd (m w)).

(** The heaps the process can be in, from a heap [w0]: after any number of
    loop halves and wallet cycles, in any order. *)
Inductive reachable (E : Env) (cfg : ConfigManager) (w0 : World)
  : World → Prop :=
| reach_start : reachable E cfg w0 w0
| reach_runLoop_cycle (w : World) (batchNum : Z) :
    reachable E cfg w0 w →
    reachable E cfg w0 (snd (runLoop_cycle E cfg batchNum w))
| reach_runLoop_afterBatch (w : World) (batchNum : Z) :
    reachable E cfg w0 w →
    reachable E cfg w0 (snd (runLoop_afterBatch E cfg batchNum w))
| reach_processWalletCycle (w : World) (wallet : Wallet) :
    reachable E cfg w0 w →
    reachable E cfg w0 (snd (processWalletCycle E cfg wallet w)).

(** The fan-out of a batch, the wallets being processed one after the
    other (the source awaits them together). *)
Fixpoint processBatch (E : Env) (cfg : ConfigManager) (batch : list Wallet)
  : M unit :=
  match batch with
  | [] => ret tt
  | wallet :: rest =>
      processWalletCycle E cfg wallet;; processBatch E cfg rest
  end.

(** [n] turns of the orchestrator loop from the local counter [batchNum];
    the result is the counter after them. *)
Fixpoint orchestrate (E : Env) (cfg : ConfigManager) (n : nat) (batchNum : Z)
  : M Z :=
  match n with
  | O => ret batchNum
  | S k =>
      let* decision := runLoop_cycle E cfg batchNum in
      match decision with
      | FanOut batchNum' walletBatch =>
          processBatch E cfg walletBatch;;
          runLoop_afterBatch E cfg batchNum';;
          orchestrate E cfg k batchNum'
      | _ => orchestrate E cfg k batchNum
      end
  end.

(** The ramp in the words of the specification: the adjusted amount times
    [min(1, (cycleIndex + 1) / rampCycles)]. *)
Definition specified_ramped (cycleIndex : Z) (rampCycles : Q)
  (adjustedAmount : Z) : Q :=
  (inject_Z adjustedAmount
   * JS.min 1 (inject_Z (cycleIndex + 1) / rampCycles))%Q.

(** The heap after [n] more interactions that left the events [evs]. *)
Definition advance (w : World) (n : nat) (evs : list Event) : World :=
  {| clock := clock w + n;
     trace := trace w ++ evs;
     circuitBreaker := circuitBreaker w;
     tradingEngine := tradingEngine w;
     walletManager := walletManager w;
     bot := bot w |}.

(** The heap after [n] interactions that changed nothing else. *)
Definition tickn (n : nat) (w : World) : World :=
  {| clock := n + clock w;
     trace := trace w;
     circuitBreaker := circuitBreaker w;
     tradingEngine := tradingEngine w;
     walletManager := walletManager w;
     bot := bot w |}.

(** The cooldown test of the selection for a stored wallet, with the draw
    [r], against the maps of a wallet manager: the time since the last
    trade is at least
    [floor((min + r * (max - min)) * (1 + (tradeCount % 5) * 0.2))], the
    sums and products being exact. *)
Definition cooledDown (cfg : ConfigManager) (wm : WalletManager) (now : Z)
  (wd : WalletData) (r : Q) : Prop :=
  let lastTrade := default 0 (walletCooldowns wm !! pubkey wd) in
  let tradeCount := default 0 (walletTradeCount wm !! pubkey wd) in
  JS.floor ((minWalletCooldownMs cfg
             + r * (maxWalletCooldownMs cfg - minWalletCooldownMs cfg))
            * (1 + inject_Z (Z.rem tradeCount 5) * (2 # 10)))
  <= now - lastTrade.

(** A wallet file with one wallet, and the heap of a started bot over it:
    no sink, nothing traded yet. *)
Definition walletData1 : WalletData :=
  {| pubkey := "Wallet1"; privateKey := [1]; name := "Wallet1";
     isSeasoned := false |}.

Definition startedBot : VolumeBoosterBot :=
  {| bot_isRunning := true; bot_cycleCount := 0 |}.

Definition oneWalletManager : WalletManager :=
  {| walletData := [walletData1];
     activeWallets := [];
     walletCooldowns := ∅;
     walletTradeCount := ∅;
     walletPersonalities := ∅;
     sinkKeypair := None |}.

Definition oneWalletWorld : World :=
  World_of CircuitBreaker_constructor oneWalletManager startedBot.

(** The band of the specification for a partial sell: the amount lies
    between [minPct] % and [maxPct] % of the holdings, bounds included. *)
Definition withinBand (minPct maxPct : Q) (holdings amount : Z) : Prop :=
  (minPct / 100 * inject_Z holdings <= inject_Z amount)%Q
  ∧ (inject_Z amount <= maxPct / 100 * inject_Z holdings)%Q.

(** What a computation that only queries the environment leaves alone:
    the trace, the breaker, the wallet manager and the bot. *)
Definition observable (w : World)
  : list Event * CircuitBreaker * WalletManager * VolumeBoosterBot :=
  (trace w, circuitBreaker w, walletManager w, bot w).

Definition quiet {A} (m : M A) : Prop :=
  ∀ w, observable (snd (m w)) = observable w.

(** The one-wallet heap with the wallet assigned the hodler personality. *)
Definition hodlerWorld : World :=
  World_of CircuitBreaker_constructor
    {| walletData := [walletData1];
       activeWallets := [wallet1];
       walletCooldowns := ∅;
       walletTradeCount := ∅;
       walletPersonalities := {[ "Wallet1" := hodler ]};
       sinkKeypair := None |}
    startedBot.

(** The wallet manager as the purge of a selection leaves it. *)
Definition purged (E : Env) (w : World) : WalletManager :=
  walletManager
    (cleanupOldCooldowns E (Date_now E (clock w)) (tickn 1 w)).2.


(** The heap after Wallet1's first trade, made at 1699999999000. *)
Definition tradedWalletWorld : World :=
  World_of CircuitBreaker_constructor
    {| walletData := [walletData1];
       activeWallets := [wallet1];
       walletCooldowns := {[ "Wallet1" := 1699999999000 ]};
       walletTradeCount := {[ "Wallet1" := 1 ]};
       walletPersonalities := ∅;
       sinkKeypair := None |}
    startedBot.

(** The cooldown test as the selection computes it, in doubles. *)
Definition cooledDown_double (cfg : ConfigManager) (wm : WalletManager)
  (now : Z) (wd : WalletData) (r : Q) : Prop :=
  let lastTrade := default 0 (walletCooldowns wm !! pubkey wd) in
  let tradeCount := default 0 (walletTradeCount wm !! pubkey wd) in
  JS.floor (JS.mul (baseCooldown_double cfg r)
                   (cooldownMultiplier_double tradeCount))
  <= now - lastTrade.

(** MIN_WALLET_COOLDOWN_MS=81925 and MAX_WALLET_COOLDOWN_MS=81925, every
    other option at its default: the base cooldown is 81925 ms whatever
    the draw. *)
Definition fixedCooldownProcessEnv : ProcessEnv := {|
  SWAP_AMOUNT := None; TRADE_MODE := None; BUY_PROB := None;
  NUM_ACTIONS_PER_CYCLE := None; DELAY_MS := None; JITTER_PCT := None;
  ENABLE_REBALANCING := None; ENABLE_CIRCUIT_BREAKER := None;
  MAX_CONSECUTIVE_FAILURES := None;
  MAX_FAILURE_RATE_PCT := None; FAILURE_RATE_WINDOW := None;
  EMERGENCY_STOP_LOSS_PCT := None; BATCH_SIZE := None;
  PARTIAL_SELL_ENABLED := None; PARTIAL_SELL_MIN_PCT := None;
  PARTIAL_SELL_MAX_PCT := None; BEHAVIOR_PROFILE := None;
  MIN_WALLET_COOLDOWN_MS := Some 81925%Q;
  MAX_WALLET_COOLDOWN_MS := Some 81925%Q;
  SHUFFLE_WALLETS := None; REBALANCE_INTERVAL_CYCLES := None;
  SESSION_PAUSE_MIN := None; TWAP_PARTS := None; TWAP_MAX_DELAY := None;
  VOL_THRESHOLD := None; RAMP_CYCLES := None; BIRDEYE_API_KEY := None
|}.

Definition fixedCooldownConfig : ConfigManager :=
  default defaultConfig (validateAndLoadConfig fixedCooldownProcessEnv).

(** The heap after Wallet1's second trade, made at 1699999885306: that is
    114694 ms before 1700000000000. *)
Definition twiceTradedWorld : World :=
  World_of CircuitBreaker_constructor
    {| walletData := [walletData1];
       activeWallets := [];
       walletCooldowns := {[ "Wallet1" := 1699999885306 ]};
       walletTradeCount := {[ "Wallet1" := 2 ]};
       walletPersonalities := ∅;
       sinkKeypair := None |}
    startedBot.

(** PARTIAL_SELL_MIN_PCT=29, every other option at its default. *)
Definition partialSell29ProcessEnv : ProcessEnv := {|
  SWAP_AMOUNT := None; TRADE_MODE := None; BUY_PROB := None;
  NUM_ACTIONS_PER_CYCLE := None; DELAY_MS := None; JITTER_PCT := None;
  ENABLE_REBALANCING := None; ENABLE_CIRCUIT_BREAKER := None;
  MAX_CONSECUTIVE_FAILURES := None;
  MAX_FAILURE_RATE_PCT := None; FAILURE_RATE_WINDOW := None;
  EMERGENCY_STOP_LOSS_PCT := None; BATCH_SIZE := None;
  PARTIAL_SELL_ENABLED := None; PARTIAL_SELL_MIN_PCT := Some 29%Q;
  PARTIAL_SELL_MAX_PCT := None; BEHAVIOR_PROFILE := None;
  MIN_WALLET_COOLDOWN_MS := None; MAX_WALLET_COOLDOWN_MS := None;
  SHUFFLE_WALLETS := None; REBALANCE_INTERVAL_CYCLES := None;
  SESSION_PAUSE_MIN := None; TWAP_PARTS := None; TWAP_MAX_DELAY := None;
  VOL_THRESHOLD := None; RAMP_CYCLES := None; BIRDEYE_API_KEY := None
|}.

Definition partialSell29Config : ConfigManager :=
  default defaultConfig (validateAndLoadConfig partialSell29ProcessEnv).

(** The room left for the rounding of doubles in a whole percentage. *)
Definition roundingSlack : Q := 1 # 1000000000.

(** A wallet file with two wallets, and the heap of a started bot over
    it. *)
Definition walletData2 : WalletData :=
  {| pubkey := "Wallet2"; privateKey := [2]; name := "Wallet2";
     isSeasoned := false |}.

Definition twoWalletWorld : World :=
  World_of CircuitBreaker_constructor
    {| walletData := [walletData1; walletData2];
       activeWallets := [];
       walletCooldowns := ∅;
       walletTradeCount := ∅;
       walletPersonalities := ∅;
       sinkKeypair := None |}
    startedBot.

(** A computation that leaves the wallet manager as it is, whatever it
    returns. *)
Definition wallets_kept {A} (m : M A) : Prop :=
  ∀ w, walletManager (snd (m w)) = walletManager w.

(** A configuration with TRADE_MODE and NUM_ACTIONS_PER_CYCLE replaced. *)
Definition withActions (cfg : ConfigManager) (mode : TradeMode) (n : Q)
  : ConfigManager :=
  {| swapAmount := swapAmount cfg;
     tradeMode := mode;
     buyProb := buyProb cfg;
     numActionsPerCycle := n;
     baseDelayMs := baseDelayMs cfg;
     jitterPct := jitterPct cfg;
     enableRebalancing := enableRebalancing cfg;
     enableCircuitBreaker := enableCircuitBreaker cfg;
     maxConsecutiveFailures := maxConsecutiveFailures cfg;
     maxFailureRate := maxFailureRate cfg;
     failureRateWindow := failureRateWindow cfg;
     emergencyStopLoss := emergencyStopLoss cfg;
     batchSize := batchSize cfg;
     partialSellEnabled := partialSellEnabled cfg;
     partialSellMin := partialSellMin cfg;
     partialSellMax := partialSellMax cfg;
     behaviorProfile := behaviorProfile cfg;
     minWalletCooldownMs := minWalletCooldownMs cfg;
     maxWalletCooldownMs := maxWalletCooldownMs cfg;
     shuffleWallets := shuffleWallets cfg;
     rebalanceInterval := rebalanceInterval cfg;
     sessionPauseMin := sessionPauseMin cfg;
     twapParts := twapParts cfg;
     twapMaxDelay := twapMaxDelay cfg;
     volThreshold := volThreshold cfg;
     rampCycles := rampCycles cfg;
     useBirdeye := useBirdeye cfg |}.

(** The steps of [runLoop_afterBatch] return, make no trade and leave the
    breaker, the wallet manager and the counters alone. *)
Definition no_trade (w w' : World) : Prop :=
  tradesOf (trace w') = tradesOf (trace w)
  ∧ circuitBreaker w' = circuitBreaker w
  ∧ walletManager w' = walletManager w
  ∧ bot w' = bot w.

(** A computation that only adds events after those already made. *)
Definition appends {A} (m : M A) : Prop :=
  ∀ w, ∃ evs : list Event, trace (snd (m w)) = trace w ++ evs.

(** A computation that leaves the circuit breaker as it is, whatever it
    returns. *)
Definition breaker_kept {A} (m : M A) : Prop :=
  ∀ w, circuitBreaker (snd (m w)) = circuitBreaker w.

(** * Properties *)

(** ** Numbers *)

Lemma ltb_true (a b : Q) : JS.ltb a b = true ↔ (a < b)%Q.
Proof.
  unfold JS.ltb. rewrite negb_true_iff.
  destruct (Qle_bool b a) eqn:Hle.
  - apply Qle_bool_iff in Hle. split; [discriminate|].
    intros Hlt. exfalso. eapply Qlt_not_le; eauto.
  - split; [intros _|reflexivity].
    apply Qnot_le_lt. intros Hle'. apply Qle_bool_iff in Hle'. congruence.
Qed.

Lemma ltb_false (a b : Q) : JS.ltb a b = false ↔ (b <= a)%Q.
Proof.
  unfold JS.ltb. rewrite negb_false_iff. apply Qle_bool_iff.
Qed.

Lemma leb_true (a b : Q) : JS.leb a b = true ↔ (a <= b)%Q.
Proof. apply Qle_bool_iff. Qed.

Lemma gtb_true (a b : Q) : JS.gtb a b = true ↔ (b < a)%Q.
Proof. apply ltb_true. Qed.

Lemma geb_true (a b : Q) : JS.geb a b = true ↔ (b <= a)%Q.
Proof. apply leb_true. Qed.

(** A whole number exceeds [q] exactly when it exceeds the floor of [q]. *)
Lemma lt_inject_floor (q : Q) (n : Z) :
  (q < inject_Z n)%Q ↔ (Qfloor q < n)%Z.
Proof.
  split; intros H.
  - rewrite Zlt_Qlt. eapply Qle_lt_trans; [apply Qfloor_le|exact H].
  - eapply Qlt_le_trans; [apply Qlt_floor|].
    rewrite <- Zle_Qle. lia.
Qed.

Lemma le_inject_floor (q : Q) (n : Z) :
  (inject_Z n <= q)%Q ↔ (n <= Qfloor q)%Z.
Proof.
  split; intros H.
  - destruct (Z_lt_le_dec (Qfloor q) n) as [Hlt|]; [|assumption].
    apply lt_inject_floor in Hlt. exfalso. eapply Qlt_not_le; eauto.
  - apply Qnot_lt_le. intros Hlt. apply lt_inject_floor in Hlt. lia.
Qed.

(** ** Rounding to a double *)

Lemma roundTiesToEven_error (y : Q) :
  (y - (1 # 2) <= inject_Z (JS.roundTiesToEven y)
   ∧ inject_Z (JS.roundTiesToEven y) <= y + (1 # 2))%Q.
Proof.
  unfold JS.roundTiesToEven.
  pose proof (Qfloor_le y) as Hlo. pose proof (Qlt_floor y) as Hhi.
  rewrite inject_Z_plus in Hhi. change (inject_Z 1) with 1%Q in Hhi.
  destruct (Qcompare_spec (y - inject_Z (Qfloor y)) (1 # 2)) as [Heq|Hlt|Hgt].
  - destruct (Z.even (Qfloor y)); rewrite ?inject_Z_plus;
      change (inject_Z 1) with 1%Q; split; lra.
  - split; lra.
  - rewrite inject_Z_plus. change (inject_Z 1) with 1%Q. split; lra.
Qed.

Lemma Qpower2_pos (e : Z) : (0 < 2 ^ e)%Q.
Proof. apply Qpower_0_lt. reflexivity. Qed.

(** The significand of a positive number has 53 bits. *)
Lemma exponent_spec (x : Q) :
  (0 < x)%Q → (inject_Z (2 ^ 52) <= x / 2 ^ JS.exponent x)%Q.
Proof.
  intros Hx. unfold JS.exponent.
  set (a := Z.log2 (Qnum x)). set (b := Z.log2 (Zpos (Qden x))).
  destruct (Qle_bool _ _) eqn:Htest; [apply Qle_bool_iff, Htest|].
  assert (Hn : 0 < Qnum x).
  { unfold Qlt in Hx. simpl in Hx. lia. }
  destruct (Z.log2_spec (Qnum x) Hn) as [Ha _]. fold a in Ha.
  destruct (Z.log2_spec (Zpos (Qden x)) ltac:(lia)) as [_ Hb]. fold b in Hb.
  assert (Ha0 : 0 <= a) by apply Z.log2_nonneg.
  assert (Hb0 : 0 <= b) by apply Z.log2_nonneg.
  assert (HaQ : (2 ^ a <= inject_Z (Qnum x))%Q).
  { change 2%Q with (inject_Z 2). rewrite <- Zpower_Qpower by lia.
    rewrite <- Zle_Qle. exact Ha. }
  assert (HbQ : (inject_Z (Zpos (Qden x)) <= 2 ^ (b + 1))%Q).
  { change 2%Q with (inject_Z 2). rewrite <- Zpower_Qpower by lia.
    rewrite <- Zle_Qle. unfold Z.succ in Hb. lia. }
  assert (Hd : (0 < inject_Z (Zpos (Qden x)))%Q) by reflexivity.
  assert (Hxq : (x == inject_Z (Qnum x) / inject_Z (Zpos (Qden x)))%Q).
  { destruct x as [n d]. apply Qmake_Qdiv. }
  pose proof (Qpower2_pos (a - b - 52 - 1)) as He.
  pose proof (Qpower2_pos (a - b - 1)) as Hab.
  assert (Hsplit : (2 ^ (a - b - 1)
                    == inject_Z (2 ^ 52) * 2 ^ (a - b - 52 - 1))%Q).
  { replace (a - b - 1) with (52 + (a - b - 52 - 1)) at 1 by lia.
    rewrite Qpower_plus by discriminate. reflexivity. }
  assert (Hpow : (2 ^ (a - b - 1) * 2 ^ (b + 1) == 2 ^ a)%Q).
  { rewrite <- Qpower_plus by discriminate.
    replace (a - b - 1 + (b + 1)) with a by lia. reflexivity. }
  apply Qle_shift_div_l; [exact He|].
  assert (Hgoal : (2 ^ (a - b - 1) * inject_Z (Zpos (Qden x))
                   <= inject_Z (Qnum x))%Q).
  { eapply Qle_trans; [|exact HaQ]. rewrite <- Hpow.
    apply Qmult_le_l; [exact Hab|exact HbQ]. }
  rewrite Hxq. apply Qle_shift_div_l; [exact Hd|].
  rewrite <- Hsplit. exact Hgoal.
Qed.

(** Rounding a positive number moves it by at most [2^-53] of its size. *)
Lemma double_pos_error (x : Q) :
  (0 < x)%Q →
  (x * (1 - JS.ulp) <= JS.double_pos x
   ∧ JS.double_pos x <= x * (1 + JS.ulp))%Q.
Proof.
  intros Hx. unfold JS.double_pos.
  pose proof (exponent_spec x Hx) as Hy.
  set (e := JS.exponent x) in *.
  pose proof (Qpower2_pos e) as He.
  destruct (roundTiesToEven_error (x / 2 ^ e)) as [Hlo Hhi].
  set (m := inject_Z (JS.roundTiesToEven (x / 2 ^ e))) in *.
  assert (Hxy : (x == x / 2 ^ e * 2 ^ e)%Q).
  { field. intros H0. rewrite H0 in He. discriminate. }
  set (y := (x / 2 ^ e)%Q) in *.
  change (inject_Z (2 ^ 52)) with 4503599627370496%Q in Hy.
  unfold JS.ulp.
  assert (Hm1 : (y * (1 - (1 # 9007199254740992)) <= m)%Q) by lra.
  assert (Hm2 : (m <= y * (1 + (1 # 9007199254740992)))%Q) by lra.
  clearbody y m. split; nra.
Qed.

(** The same for a number of either sign, between [- bound] and [bound]. *)
Lemma double_error (x bound : Q) :
  (- bound <= x)%Q → (x <= bound)%Q →
  (x - bound * JS.ulp <= JS.double x ∧ JS.double x <= x + bound * JS.ulp)%Q.
Proof.
  intros Hlo Hhi. unfold JS.double.
  assert (Hu : (0 < JS.ulp)%Q) by reflexivity.
  destruct (Qcompare_spec x 0) as [Heq|Hlt|Hgt].
  - split; nra.
  - rewrite Qred_correct.
    destruct (double_pos_error (- x)) as [H1 H2]; [lra|].
    split; nra.
  - rewrite Qred_correct.
    destruct (double_pos_error x Hgt) as [H1 H2].
    split; nra.
Qed.

Lemma double_nonneg (x : Q) : (0 <= x)%Q → (0 <= JS.double x)%Q.
Proof.
  intros Hx. unfold JS.double.
  destruct (Qcompare_spec x 0) as [Heq|Hlt|Hgt].
  - apply Qle_refl.
  - lra.
  - rewrite Qred_correct. destruct (double_pos_error x Hgt) as [H1 _].
    unfold JS.ulp in H1. nra.
Qed.

(** Rounding never crosses a whole number: what was at least (at most) a
    whole number of up to 52 bits still is. *)
Lemma roundTiesToEven_ge (y : Q) (n : Z) :
  (inject_Z n <= y)%Q → n <= JS.roundTiesToEven y.
Proof.
  intros Hn. apply le_inject_floor in Hn. unfold JS.roundTiesToEven.
  destruct (_ ?= _)%Q; [destruct (Z.even _)|..]; lia.
Qed.

Lemma roundTiesToEven_le (y : Q) (n : Z) :
  (y <= inject_Z n)%Q → JS.roundTiesToEven y <= n.
Proof.
  intros Hn. unfold JS.roundTiesToEven.
  pose proof (Qfloor_le y) as Hfl.
  assert (Hf : Qfloor y <= n).
  { rewrite Zle_Qle. lra. }
  destruct (Qcompare_spec (y - inject_Z (Qfloor y)) (1 # 2)) as [Heq|Hlt|Hgt].
  - destruct (Z.even _); [exact Hf|].
    assert (Hlt : (inject_Z (Qfloor y) < inject_Z n)%Q) by lra.
    rewrite <- Zlt_Qlt in Hlt. lia.
  - exact Hf.
  - assert (Hlt : (inject_Z (Qfloor y) < inject_Z n)%Q) by lra.
    rewrite <- Zlt_Qlt in Hlt. lia.
Qed.

Lemma Qpower2_ge_2 (e : Z) : 0 < e → (2 <= 2 ^ e)%Q.
Proof.
  intros He. change 2%Q with (inject_Z 2).
  rewrite <- Zpower_Qpower by lia. rewrite <- Zle_Qle.
  change 2 with (2 ^ 1) at 1. apply Z.pow_le_mono_r; lia.
Qed.

(** For an exponent that is not positive, [2^e] is one over a whole
    number. *)
Lemma Qpower2_nonpos (e : Z) :
  e <= 0 → (2 ^ e * inject_Z (2 ^ (- e)) == 1)%Q.
Proof.
  intros He. rewrite Zpower_Qpower by lia. change (inject_Z 2) with 2%Q.
  rewrite <- Qpower_plus by discriminate.
  replace (e + - e) with 0 by lia. reflexivity.
Qed.

Lemma double_pos_ge_Z (n : Z) (x : Q) :
  0 < n → n <= 2 ^ 53 → (inject_Z n <= x)%Q →
  (inject_Z n <= JS.double_pos x)%Q.
Proof.
  intros Hn0 Hn53 Hx.
  assert (Hpos : (0 < x)%Q).
  { eapply Qlt_le_trans; [|exact Hx]. rewrite <- (Zlt_Qlt 0). exact Hn0. }
  pose proof (exponent_spec x Hpos) as Hy. unfold JS.double_pos.
  set (e := JS.exponent x) in *. pose proof (Qpower2_pos e) as He.
  assert (Hxy : (x == x / 2 ^ e * 2 ^ e)%Q).
  { field. intros H0. rewrite H0 in He. discriminate. }
  set (y := (x / 2 ^ e)%Q) in *.
  destruct (Z_le_gt_dec e 0) as [Hneg|Hpos'].
  - pose proof (Qpower2_nonpos e Hneg) as Hinv.
    assert (Hscaled : (inject_Z (n * 2 ^ (- e)) <= y)%Q).
    { rewrite inject_Z_mult.
      assert (Hk : (0 < inject_Z (2 ^ (- e)))%Q).
      { rewrite <- (Zlt_Qlt 0). apply Z.pow_pos_nonneg; lia. }
      clearbody y. nra. }
    apply roundTiesToEven_ge in Hscaled. rewrite Zle_Qle in Hscaled.
    rewrite inject_Z_mult in Hscaled.
    set (m := inject_Z (JS.roundTiesToEven y)) in *. clearbody m y.
    assert (Hk : (0 < inject_Z (2 ^ (- e)))%Q).
    { rewrite <- (Zlt_Qlt 0). apply Z.pow_pos_nonneg; lia. }
    nra.
  - pose proof (Qpower2_ge_2 e ltac:(lia)) as He2.
    assert (Hm : (inject_Z (2 ^ 52) <= inject_Z (JS.roundTiesToEven y))%Q).
    { rewrite <- Zle_Qle. apply roundTiesToEven_ge, Hy. }
    assert (Hn : (inject_Z n <= inject_Z (2 ^ 53))%Q).
    { rewrite <- Zle_Qle. exact Hn53. }
    change (inject_Z (2 ^ 52)) with 4503599627370496%Q in Hm.
    change (inject_Z (2 ^ 53)) with 9007199254740992%Q in Hn.
    set (m := inject_Z (JS.roundTiesToEven y)) in *. clearbody m.
    nra.
Qed.

Lemma double_pos_le_Z (n : Z) (x : Q) :
  (0 < x)%Q → n <= 2 ^ 52 → (x <= inject_Z n)%Q →
  (JS.double_pos x <= inject_Z n)%Q.
Proof.
  intros Hpos Hn52 Hx.
  pose proof (exponent_spec x Hpos) as Hy. unfold JS.double_pos.
  set (e := JS.exponent x) in *. pose proof (Qpower2_pos e) as He.
  assert (Hxy : (x == x / 2 ^ e * 2 ^ e)%Q).
  { field. intros H0. rewrite H0 in He. discriminate. }
  set (y := (x / 2 ^ e)%Q) in *.
  assert (Hn : (inject_Z n <= inject_Z (2 ^ 52))%Q).
  { rewrite <- Zle_Qle. exact Hn52. }
  change (inject_Z (2 ^ 52)) with 4503599627370496%Q in Hy, Hn.
  destruct (Z_le_gt_dec e 0) as [Hneg|Hpos'].
  - pose proof (Qpower2_nonpos e Hneg) as Hinv.
    assert (Hk : (0 < inject_Z (2 ^ (- e)))%Q).
    { rewrite <- (Zlt_Qlt 0). apply Z.pow_pos_nonneg; lia. }
    assert (Hscaled : (y <= inject_Z (n * 2 ^ (- e)))%Q).
    { rewrite inject_Z_mult. clearbody y. nra. }
    apply roundTiesToEven_le in Hscaled. rewrite Zle_Qle in Hscaled.
    rewrite inject_Z_mult in Hscaled.
    set (m := inject_Z (JS.roundTiesToEven y)) in *. clearbody m y.
    nra.
  - exfalso. pose proof (Qpower2_ge_2 e ltac:(lia)) as He2.
    clearbody y. nra.
Qed.

Lemma double_ge_Z (n : Z) (x : Q) :
  0 < n → n <= 2 ^ 53 → (inject_Z n <= x)%Q → (inject_Z n <= JS.double x)%Q.
Proof.
  intros Hn0 Hn53 Hx.
  assert (Hpos : (0 < x)%Q).
  { eapply Qlt_le_trans; [|exact Hx]. rewrite <- (Zlt_Qlt 0). exact Hn0. }
  unfold JS.double. apply Qgt_alt in Hpos. rewrite Hpos.
  rewrite Qred_correct. apply double_pos_ge_Z; assumption.
Qed.

Lemma double_le_Z (n : Z) (x : Q) :
  (0 <= x)%Q → n <= 2 ^ 52 → (x <= inject_Z n)%Q →
  (JS.double x <= inject_Z n)%Q.
Proof.
  intros Hx0 Hn52 Hx. unfold JS.double.
  destruct (Qcompare_spec x 0) as [Heq|Hlt|Hgt].
  - lra.
  - lra.
  - rewrite Qred_correct. apply double_pos_le_Z; assumption.
Qed.

(** A product of two approximations. *)
Lemma Qmult_near (x x0 y y0 ex ey bx by' : Q) :
  (x0 - ex <= x)%Q → (x <= x0 + ex)%Q →
  (y0 - ey <= y)%Q → (y <= y0 + ey)%Q →
  (- bx <= x0)%Q → (x0 <= bx)%Q →
  (- by' <= y)%Q → (y <= by')%Q →
  (x0 * y0 - (ex * by' + bx * ey) <= x * y
   ∧ x * y <= x0 * y0 + (ex * by' + bx * ey))%Q.
Proof.
  intros H1 H2 H3 H4 H5 H6 H7 H8.
  assert (Hex : (0 <= ex)%Q) by lra.
  assert (Hey : (0 <= ey)%Q) by lra.
  assert (Hbx : (0 <= bx)%Q) by lra.
  assert (Hby : (0 <= by')%Q) by lra.
  assert (Ha : (- (ex * by') <= (x - x0) * y ∧ (x - x0) * y <= ex * by')%Q).
  { split; nra. }
  assert (Hb : (- (bx * ey) <= x0 * (y - y0) ∧ x0 * (y - y0) <= bx * ey)%Q).
  { split; nra. }
  split; nra.
Qed.

(** [double_error] with the size of [JS.ulp] written out. *)
Lemma double_near (x bound : Q) :
  (- bound <= x)%Q → (x <= bound)%Q →
  (x - bound * (1 # 9007199254740992) <= JS.double x
   ∧ JS.double x <= x + bound * (1 # 9007199254740992))%Q.
Proof. exact (double_error x bound). Qed.

(** ** Lists *)

Lemma tail_drop {A} (m : nat) (l : list A) : tail (drop m l) = drop (S m) l.
Proof.
  revert l. induction m as [|m IH]; intros [|x l]; simpl; auto.
Qed.

Lemma length_lastn {A} (k : nat) (l : list A) :
  length (lastn k l) = Nat.min k (length l).
Proof. unfold lastn. rewrite length_drop. lia. Qed.

(** Pushing onto the last [k] entries and shifting when more than [k] are
    held gives the last [k] entries again. *)
Lemma lastn_push {A} (k : nat) (l : list A) (x : A) :
  (if (k <? length (lastn k l ++ [x]))%nat
   then shift (lastn k l ++ [x]) else lastn k l ++ [x])
  = lastn k (l ++ [x]).
Proof.
  rewrite length_app, length_lastn. simpl.
  unfold lastn, shift. rewrite length_app. simpl.
  destruct (Nat.ltb_spec k (Nat.min k (length l) + 1)) as [Hfull|Hroom].
  - rewrite <- (drop_app_le l [x]) by lia.
    rewrite tail_drop. f_equal. lia.
  - replace (length l - k)%nat with 0%nat by lia.
    replace (length l + 1 - k)%nat with 0%nat by lia.
    reflexivity.
Qed.

(** ** CircuitBreaker.recordTradeResult *)

Section RecordTradeResult.

Context (cfg : ConfigManager).
Hypothesis enabled : enableCircuitBreaker cfg = true.
Hypothesis capacity_nonneg : (0 <= failureRateWindow cfg)%Q.

(** The push-then-shift test of the source, on whole numbers. *)
Lemma window_overflow (n : nat) :
  JS.gtb (inject_Z (Z.of_nat n)) (failureRateWindow cfg)
  = (windowCapacity cfg <? n)%nat.
Proof.
  assert (Hfl : (0 <= Qfloor (failureRateWindow cfg))%Z).
  { change 0%Z with (Qfloor 0). apply Qfloor_resp_le, capacity_nonneg. }
  unfold windowCapacity, JS.floor.
  destruct (Nat.ltb_spec (Z.to_nat (Qfloor (failureRateWindow cfg))) n) as [H|H].
  - apply gtb_true, lt_inject_floor. lia.
  - apply ltb_false, le_inject_floor. lia.
Qed.

Lemma recordTradeResult_window (cb : CircuitBreaker) (os : list bool)
  (b : bool) :
  recentTrades cb = lastn (windowCapacity cfg) os →
  recentTrades (recordTradeResult cfg cb b)
  = lastn (windowCapacity cfg) (os ++ [b]).
Proof.
  intros Hw. unfold recordTradeResult. rewrite enabled. simpl.
  rewrite window_overflow, Hw. apply lastn_push.
Qed.

Lemma recordTradeResult_failures (cb : CircuitBreaker) (b : bool) :
  consecutiveFailures (recordTradeResult cfg cb b)
  = if b then 0 else consecutiveFailures cb + 1.
Proof. unfold recordTradeResult. rewrite enabled. reflexivity. Qed.

Lemma recordAll_snoc (os : list bool) (b : bool) :
  recordAll cfg (os ++ [b]) = recordTradeResult cfg (recordAll cfg os) b.
Proof. unfold recordAll. rewrite fold_left_app. reflexivity. Qed.

Lemma recordAll_window (os : list bool) :
  recentTrades (recordAll cfg os) = lastn (windowCapacity cfg) os.
Proof.
  induction os as [|b os IH] using rev_ind.
  - reflexivity.
  - rewrite recordAll_snoc. apply recordTradeResult_window, IH.
Qed.

Lemma recordAll_failures (os : list bool) :
  consecutiveFailures (recordAll cfg os)
  = Z.of_nat (leadingFailures (rev os)).
Proof.
  induction os as [|b os IH] using rev_ind.
  - reflexivity.
  - rewrite recordAll_snoc, recordTradeResult_failures, rev_unit, IH.
    destruct b; simpl; lia.
Qed.

Lemma window_within_capacity (os : list bool) :
  (inject_Z (Z.of_nat (length (lastn (windowCapacity cfg) os)))
   <= failureRateWindow cfg)%Q.
Proof.
  apply le_inject_floor. rewrite length_lastn.
  assert (Hfl : (0 <= Qfloor (failureRateWindow cfg))%Z).
  { change 0%Z with (Qfloor 0). apply Qfloor_resp_le, capacity_nonneg. }
  unfold windowCapacity, JS.floor. lia.
Qed.

End RecordTradeResult.

(** With room for at least one entry, the outcome just recorded is the
    newest entry of the window. *)
Lemma recordTradeResult_last (cfg : ConfigManager) (cb : CircuitBreaker)
  (b : bool) :
  enableCircuitBreaker cfg = true →
  (1 <= failureRateWindow cfg)%Q →
  last (recentTrades (recordTradeResult cfg cb b)) = Some b.
Proof.
  intros Hen Hcap. unfold recordTradeResult. rewrite Hen. cbn [negb recentTrades].
  destruct (recentTrades cb) as [|x l].
  - cbn [app length]. replace (JS.gtb _ _) with false; [reflexivity|].
    symmetry. apply ltb_false. exact Hcap.
  - destruct (JS.gtb _ _); cbn [app shift tail].
    + apply last_snoc.
    + rewrite app_comm_cons. apply last_snoc.
Qed.

(** C2.  With the breaker enabled and a non-negative window capacity
    (the configuration admits 5 to 100), after every sequence of
    [recordTradeResult] calls from the constructed breaker: a further
    success sets [consecutiveFailures] to 0 and a further failure adds 1 to
    it; the counter is the length of the run of failures that ends the
    sequence; the window holds the most recent outcomes, all of them until
    the capacity is reached and the last [capacity] of them afterwards (the
    oldest is evicted); and the window is never longer than
    [failureRateWindow]. *)
Theorem C2_recordTradeResult_window_and_counter :
  ∀ (cfg : ConfigManager) (outcomes : list bool),
    enableCircuitBreaker cfg = true →
    (0 <= failureRateWindow cfg)%Q →
    let cb := recordAll cfg outcomes in
    (∀ b : bool,
        consecutiveFailures (recordTradeResult cfg cb b)
        = if b then 0 else consecutiveFailures cb + 1)
    ∧ (∀ b : bool,
        recentTrades (recordTradeResult cfg cb b)
        = lastn (windowCapacity cfg) (outcomes ++ [b]))
    ∧ consecutiveFailures cb = Z.of_nat (leadingFailures (rev outcomes))
    ∧ recentTrades cb = lastn (windowCapacity cfg) outcomes
    ∧ (inject_Z (Z.of_nat (length (recentTrades cb)))
       <= failureRateWindow cfg)%Q.
Proof.
  intros cfg outcomes Hen Hcap cb. subst cb.
  repeat split.
  - intros b. apply recordTradeResult_failures, Hen.
  - intros b. apply recordTradeResult_window; auto using recordAll_window.
  - apply recordAll_failures, Hen.
  - apply recordAll_window; assumption.
  - rewrite recordAll_window by assumption.
    apply window_within_capacity, Hcap.
Qed.

(** C2 at the default configuration (capacity 10), on twelve outcomes. *)
Lemma C2_recordTradeResult_window_and_counter_witness :
  let outcomes := [true; false; true; true; true; true; true; true; true;
                   true; false; false] in
  consecutiveFailures (recordAll defaultConfig outcomes) = 2
  ∧ recentTrades (recordAll defaultConfig outcomes)
    = [true; true; true; true; true; true; true; true; false; false]
  ∧ recentTrades (recordTradeResult defaultConfig
                    (recordAll defaultConfig outcomes) true)
    = [true; true; true; true; true; true; true; false; false; true].
Proof.
  intros outcomes.
  destruct (C2_recordTradeResult_window_and_counter defaultConfig outcomes
              eq_refl ltac:(vm_compute; discriminate))
    as (_ & Hpush & Hcount & Hwindow & _).
  split; [exact Hcount|]. split; [exact Hwindow|]. exact (Hpush true).
Defined.

(** ** CircuitBreaker.checkCircuitBreakers *)

Lemma defaultConfig_loaded :
  validateAndLoadConfig emptyProcessEnv = Some defaultConfig.
Proof. vm_compute. reflexivity. Qed.

(** The consecutive-failure trip is the first test: at the threshold the
    check trips with the count as its reason, and changes nothing. *)
Lemma checkCircuitBreakers_consecutive (E : Env) (cfg : ConfigManager)
  (sink : option Keypair) (w : World) :
  enableCircuitBreaker cfg = true →
  (maxConsecutiveFailures cfg
   <= inject_Z (consecutiveFailures (circuitBreaker w)))%Q →
  checkCircuitBreakers E cfg sink w
  = (Return {| tripped := true;
               reason := ConsecutiveFailures
                           (consecutiveFailures (circuitBreaker w)) |}, w).
Proof.
  intros Hen Hmax. unfold checkCircuitBreakers, bind, get_breaker.
  rewrite Hen. cbn [negb].
  apply geb_true in Hmax. rewrite Hmax. reflexivity.
Qed.

(** Below the threshold, with a window that is not full and no sink, the
    check does not trip. *)
Lemma checkCircuitBreakers_armed (E : Env) (cfg : ConfigManager) (w : World) :
  (inject_Z (consecutiveFailures (circuitBreaker w))
   < maxConsecutiveFailures cfg)%Q →
  (inject_Z (Z.of_nat (length (recentTrades (circuitBreaker w))))
   < failureRateWindow cfg)%Q →
  fst (checkCircuitBreakers E cfg None w)
  = Return {| tripped := false; reason := NoReason |}.
Proof.
  intros Hcount Hwindow. unfold checkCircuitBreakers, bind, get_breaker.
  destruct (negb (enableCircuitBreaker cfg)); [reflexivity|].
  destruct (JS.geb _ (maxConsecutiveFailures cfg)) eqn:Hc.
  { apply geb_true in Hc. exfalso. exact (Qlt_not_le _ _ Hcount Hc). }
  unfold failureRateTrip.
  destruct (JS.geb _ (failureRateWindow cfg)) eqn:Hw.
  { apply geb_true in Hw. exfalso. exact (Qlt_not_le _ _ Hwindow Hw). }
  reflexivity.
Qed.

(** X2.  What trips the breaker, on the thresholds as the configuration
    stores them (fractions): the consecutive failures, the failure rate of
    a full window in percent, or on every fifth check with a sink and a
    positive snapshot, the loss in whole percent. *)
Lemma checkCircuitBreakers_tripped_iff (E : Env) (cfg : ConfigManager)
  (sink : option Keypair) (w w' : World) (result : CheckResult) :
  enableCircuitBreaker cfg = true →
  checkCircuitBreakers E cfg sink w = (Return result, w') →
  let cb := circuitBreaker w in
  let len := inject_Z (Z.of_nat (length (recentTrades cb))) in
  let failures :=
    inject_Z (Z.of_nat (length (List.filter negb (recentTrades cb)))) in
  tripped result = true
  ↔ (maxConsecutiveFailures cfg <= inject_Z (consecutiveFailures cb))%Q
    ∨ ((failureRateWindow cfg <= len)%Q
       ∧ (maxFailureRate cfg < failures / len * 100)%Q)
    ∨ (∃ kp currentBalance,
         sink = Some kp
         ∧ 0 < initialSinkBalance cb
         ∧ Z.rem (checkCounter cb + 1) 5 = 0
         ∧ connection_getBalance E (clock w) (publicKey kp)
           = Return currentBalance
         ∧ (emergencyStopLoss cfg
            < inject_Z (Z.quot ((initialSinkBalance cb - currentBalance) * 100)
                               (initialSinkBalance cb)))%Q).
Proof.
  intros Hen Hrun cb len failures.
  unfold checkCircuitBreakers, bind, get_breaker in Hrun.
  rewrite Hen in Hrun. cbn [negb] in Hrun. fold cb in Hrun.
  destruct (JS.geb (inject_Z (consecutiveFailures cb))
                   (maxConsecutiveFailures cfg)) eqn:Hc.
  { injection Hrun as <- _. apply geb_true in Hc.
    split; [intros _; left; exact Hc|reflexivity]. }
  assert (Hc' : ¬ (maxConsecutiveFailures cfg
                   <= inject_Z (consecutiveFailures cb))%Q).
  { intros H. apply geb_true in H. congruence. }
  unfold failureRateTrip in Hrun. fold len failures in Hrun.
  destruct (JS.geb len (failureRateWindow cfg)) eqn:Hfull;
    [destruct (JS.gtb (failures / len * 100) (maxFailureRate cfg)) eqn:Hrate|].
  { injection Hrun as <- _. apply geb_true in Hfull. apply gtb_true in Hrate.
    split; [intros _; right; left; split; assumption|reflexivity]. }
  all: assert (Hrate' : ¬ ((failureRateWindow cfg <= len)%Q
                          ∧ (maxFailureRate cfg < failures / len * 100)%Q))
    by (intros [H1 H2]; first
          [ apply gtb_true in H2; congruence
          | apply geb_true in H1; congruence ]).
  all: unfold put_breaker, ret in Hrun; cbn beta iota in Hrun.
  all: destruct sink as [kp|];
    [|injection Hrun as <- _; split; [discriminate|];
      intros [H|[H|(kp & cur & Hs & _)]]; [tauto|tauto|discriminate]].
  all: destruct (0 <? initialSinkBalance cb) eqn:Hinit;
    [destruct (Z.rem (checkCounter cb + 1) 5 =? 0) eqn:Hfifth|];
    cbn [andb] in Hrun.
  all: try (injection Hrun as <- _; split; [discriminate|];
            intros [H|[H|(kp' & cur & Hs & Hi & Hf & _)]]; [tauto|tauto|];
            first [ apply Z.eqb_neq in Hfifth; contradiction
                  | apply Z.ltb_ge in Hinit; lia ]).
  all: unfold getBalance, bind, tick, lift in Hrun; cbn [clock] in Hrun.
  all: destruct (connection_getBalance E (clock w) (publicKey kp))
         as [cur|e] eqn:Hbal; [|discriminate].
  all: match type of Hrun with
       | context [JS.gtb ?l ?t] => destruct (JS.gtb l t) eqn:Hloss
       end; injection Hrun as <- _.
  all: apply Z.ltb_lt in Hinit; apply Z.eqb_eq in Hfifth.
  all: try (apply gtb_true in Hloss; split; [intros _|reflexivity];
            right; right; exists kp, cur; auto).
  all: split; [discriminate|];
    intros [H|[H|(kp' & cur' & Hs & _ & _ & Hb & Hl)]]; [tauto|tauto|];
    injection Hs as <-; rewrite Hbal in Hb; injection Hb as <-;
    apply gtb_true in Hl; congruence.
Qed.

(** C1.  The breaker compares percentages with fractions.
    [validatePercentage] stores MAX_FAILURE_RATE_PCT = 50 as 0.5 and
    EMERGENCY_STOP_LOSS_PCT = 30 as 0.3, while [checkCircuitBreakers]
    compares the failure rate and the loss in percent with them.  With the
    default configuration: (1) a full window of ten outcomes holding one
    failure (10 %) trips the breaker, although no condition of the
    specification holds; (2) with a start-up snapshot of 100 SOL and a
    balance of 98 SOL, the fifth check trips on a loss of 2 %, although
    the configured threshold is 30 %. *)
Theorem C1_breaker_trips_below_configured_percentages :
  validateAndLoadConfig emptyProcessEnv = Some defaultConfig
  ∧ (∀ E : Env,
       fst (checkCircuitBreakers E defaultConfig None
              (World_of (recordAll defaultConfig (false :: replicate 9 true))
                        (WalletManager_constructor None)
                        VolumeBoosterBot_constructor))
       = Return {| tripped := true; reason := FailureRate (1 / 10 * 100) |})
  ∧ specified_trip 10 10 50 30
      (recordAll defaultConfig (false :: replicate 9 true)) None 0 = false
  ∧ fst (checkTimes (calmEnv (1 # 2) 98000000000 0 1000) defaultConfig
           (Some sinkKeypair0) 5
           (World_of (breakerWithSnapshot 100000000000)
                     (WalletManager_constructor (Some sinkKeypair0))
                     VolumeBoosterBot_constructor))
    = Return [ {| tripped := false; reason := NoReason |};
               {| tripped := false; reason := NoReason |};
               {| tripped := false; reason := NoReason |};
               {| tripped := false; reason := NoReason |};
               {| tripped := true; reason := LossFromInitialBalance 2 |} ]
  ∧ specified_trip 10 10 50 30
      {| consecutiveFailures := 0; recentTrades := [];
         initialSinkBalance := 100000000000; checkCounter := 4 |}
      (Some sinkKeypair0) 98000000000 = false.
Proof.
  split; [exact defaultConfig_loaded|].
  split; [intros E; vm_compute; reflexivity|].
  repeat split; vm_compute; reflexivity.
Qed.

(** ** TWAP split *)

Lemma sumZ_replicate (n : nat) (x : Z) :
  sumZ (replicate n x) = Z.of_nat n * x.
Proof.
  induction n as [|n IH]; [reflexivity|].
  change (sumZ (replicate (S n) x)) with (x + sumZ (replicate n x)).
  rewrite IH. lia.
Qed.

Lemma BN_toNumber_Return (a n : Z) :
  JS.BN_toNumber a = Return n → n = a.
Proof.
  unfold JS.BN_toNumber. destruct (Z.abs a <? 2 ^ 53); congruence.
Qed.

(** An amount that takes the TWAP branch is positive: a buy of at least one
    whole SOL (the quotient by [LAMPORTS_PER_SOL] is a whole number, and it
    has to exceed 0.005), a sell of more than 1000000 tokens. *)
Lemma useTwap_true (isBuy : bool) (amount : Z) :
  useTwap isBuy amount = Return true →
  if isBuy then LAMPORTS_PER_SOL <= amount else 1000000 < amount.
Proof.
  unfold useTwap. destruct isBuy.
  - destruct (JS.BN_toNumber _) as [sol|] eqn:Hn; [|discriminate].
    apply BN_toNumber_Return in Hn. subst sol. intros [= Hgt].
    apply gtb_true, lt_inject_floor in Hgt.
    change (Qfloor (5 # 1000)) with 0 in Hgt.
    unfold LAMPORTS_PER_SOL in *.
    pose proof (Z.quot_rem' amount 1000000000) as Hqr.
    destruct (Z_le_gt_dec 0 amount) as [Hpos|Hneg].
    + pose proof (Z.rem_bound_pos amount 1000000000 Hpos ltac:(lia)). lia.
    + pose proof (Z.rem_bound_pos_neg amount 1000000000 ltac:(lia) ltac:(lia)).
      lia.
  - destruct (JS.BN_toNumber _) as [tokens|] eqn:Hn; [|discriminate].
    apply BN_toNumber_Return in Hn. subst tokens. intros [= Hgt].
    apply gtb_true in Hgt. change 1000000%Q with (inject_Z 1000000) in Hgt.
    rewrite <- Zlt_Qlt in Hgt. exact Hgt.
Qed.

Lemma useTwap_positive (isBuy : bool) (amount : Z) :
  useTwap isBuy amount = Return true → 0 < amount.
Proof.
  intros H. apply useTwap_true in H. unfold LAMPORTS_PER_SOL in H.
  destruct isBuy; lia.
Qed.

(** The parts of a non-negative amount, for a whole number [k >= 1] of
    parts. *)
Lemma twapSwap_parts_nonneg (cfg : ConfigManager) (amount : Z) :
  JS.isInteger (twapParts cfg) = true →
  (1 <= twapParts cfg)%Q →
  (twapParts cfg < inject_Z (2 ^ 32))%Q →
  0 <= amount →
  let k := JS.floor (twapParts cfg) in
  1 <= k
  ∧ twapSwap_parts cfg amount
    = Return ((amount / k + amount mod k)
                :: replicate (Z.to_nat k - 1) (amount / k)).
Proof.
  intros Hint Hlo Hhi Hamount k.
  assert (Hk : 1 <= k).
  { subst k. unfold JS.floor. change 1 with (Qfloor 1).
    apply Qfloor_resp_le, Hlo. }
  split; [exact Hk|].
  unfold twapSwap_parts. rewrite Hint. simpl.
  replace (JS.leb (twapParts cfg) 0) with false; cycle 1.
  { symmetry. apply not_true_is_false. rewrite leb_true. intros H.
    eapply Qlt_not_le; [|eapply Qle_trans; [exact Hlo|exact H]]. reflexivity. }
  replace (JS.geb (twapParts cfg) (inject_Z (2 ^ 32))) with false; cycle 1.
  { symmetry. apply not_true_is_false. rewrite geb_true. intros H.
    eapply Qlt_not_le; eauto. }
  simpl. fold k.
  destruct (Z.to_nat k) as [|m] eqn:Hm; [lia|]. simpl.
  rewrite Nat.sub_0_r.
  rewrite Z.quot_div_nonneg, Z.rem_mod_nonneg by lia.
  reflexivity.
Qed.


(** The other rejection: a sell of [2^53] tokens or more never reaches the
    split, since [toNumber] refuses the amount. *)
Lemma executeSwap_sell_toNumber_throws (E : Env) (cfg : ConfigManager)
  (wallet : Wallet) (amount : Z) (w : World) :
  2 ^ 53 <= amount →
  executeSwap E cfg false wallet amount w
  = (Throw "Number can only safely store up to 53 bits", w).
Proof.
  intros Hbig. unfold executeSwap, useTwap, JS.BN_toNumber, bind, lift.
  replace (Z.abs amount <? 2 ^ 53) with false; [reflexivity|].
  symmetry. apply Z.ltb_ge. lia.
Qed.



(** ** The engine's [cycleCount] and [isRunning] are never written *)

Lemma engine_fixed_refl (w : World) : engine_fixed w w.
Proof. split; reflexivity. Qed.

Lemma engine_fixed_trans (w1 w2 w3 : World) :
  engine_fixed w1 w2 → engine_fixed w2 w3 → engine_fixed w1 w3.
Proof. intros [? ?] [? ?]. split; congruence. Qed.

Lemma keeps_ret {A} (a : A) : keeps (ret a).
Proof. intros w. apply engine_fixed_refl. Qed.

Lemma keeps_throw {A} (e : string) : keeps (@throw A e).
Proof. intros w. apply engine_fixed_refl. Qed.

Lemma keeps_lift {A} (o : Outcome A) : keeps (lift o).
Proof. intros w. apply engine_fixed_refl. Qed.

Lemma keeps_bind {A B} (m : M A) (f : A → M B) :
  keeps m → (∀ a, keeps (f a)) → keeps (bind m f).
Proof.
  intros Hm Hf w. unfold bind. specialize (Hm w).
  destruct (m w) as [[a|e] w']; simpl in *; [|exact Hm].
  eapply engine_fixed_trans; [exact Hm|apply Hf].
Qed.

Lemma keeps_try_catch {A} (m : M A) (h : string → M A) :
  keeps m → (∀ e, keeps (h e)) → keeps (try_catch m h).
Proof.
  intros Hm Hh w. unfold try_catch. specialize (Hm w).
  destruct (m w) as [[a|e] w']; simpl in *; [exact Hm|].
  eapply engine_fixed_trans; [exact Hm|apply Hh].
Qed.

Lemma keeps_tick : keeps tick.
Proof. intros w. split; reflexivity. Qed.

Lemma keeps_emit (ev : Event) : keeps (emit ev).
Proof. intros w. split; reflexivity. Qed.

Lemma keeps_get_breaker : keeps get_breaker.
Proof. intros w. split; reflexivity. Qed.

Lemma keeps_get_engine : keeps get_engine.
Proof. intros w. split; reflexivity. Qed.

Lemma keeps_get_wallets : keeps get_wallets.
Proof. intros w. split; reflexivity. Qed.

Lemma keeps_get_bot : keeps get_bot.
Proof. intros w. split; reflexivity. Qed.

Lemma keeps_put_breaker (cb : CircuitBreaker) : keeps (put_breaker cb).
Proof. intros w. split; reflexivity. Qed.

Lemma keeps_put_wallets (wm : WalletManager) : keeps (put_wallets wm).
Proof. intros w. split; reflexivity. Qed.

Lemma keeps_put_bot (b : VolumeBoosterBot) : keeps (put_bot b).
Proof. intros w. split; reflexivity. Qed.

Lemma keeps_set_sentimentScore (score : Z) :
  keeps (modify_engine (set_sentimentScore score)).
Proof. intros w. split; reflexivity. Qed.

Lemma keeps_set_lastSentimentFetch (fetched : Z) :
  keeps (modify_engine (set_lastSentimentFetch fetched)).
Proof. intros w. split; reflexivity. Qed.

Create HintDb keeps.
#[export] Hint Resolve keeps_ret keeps_throw keeps_lift keeps_tick keeps_emit
  keeps_get_breaker keeps_get_engine keeps_get_wallets keeps_get_bot
  keeps_put_breaker keeps_put_wallets keeps_put_bot
  keeps_set_sentimentScore keeps_set_lastSentimentFetch : keeps.

(** One step through the syntax of a computation. *)
Ltac keeps_step :=
  match goal with
  | |- keeps (bind _ _) => apply keeps_bind; [|intros ?]
  | |- keeps (try_catch _ _) => apply keeps_try_catch; [|intros ?]
  | |- keeps (match ?x with _ => _ end) => destruct x
  | |- keeps _ => solve [eauto with keeps]
  end.

Ltac keeps_auto := repeat keeps_step.

(** Every method of the model leaves the two fields alone. *)

Lemma keeps_Math_random_call (E : Env) : keeps (Math_random_call E).
Proof. unfold Math_random_call. keeps_auto. Qed.
#[export] Hint Resolve keeps_Math_random_call : keeps.

Lemma keeps_Date_now_call (E : Env) : keeps (Date_now_call E).
Proof. unfold Date_now_call. keeps_auto. Qed.
#[export] Hint Resolve keeps_Date_now_call : keeps.

Lemma keeps_delay ms : keeps (delay ms).
Proof. unfold delay. keeps_auto. Qed.
#[export] Hint Resolve keeps_delay : keeps.

Lemma keeps_getBalance (E : Env) pk : keeps (getBalance E pk).
Proof. unfold getBalance. keeps_auto. Qed.
#[export] Hint Resolve keeps_getBalance : keeps.

Lemma keeps_getAccount_amount (E : Env) owner :
  keeps (getAccount_amount E owner).
Proof. unfold getAccount_amount. keeps_auto. Qed.
#[export] Hint Resolve keeps_getAccount_amount : keeps.

Lemma keeps_trader_call (E : Env) req : keeps (trader_call E req).
Proof. unfold trader_call. keeps_auto. Qed.
#[export] Hint Resolve keeps_trader_call : keeps.

Lemma keeps_fetchVolatility (E : Env) : keeps (fetchVolatility E).
Proof. unfold fetchVolatility. keeps_auto. Qed.
#[export] Hint Resolve keeps_fetchVolatility : keeps.

Lemma keeps_getMarketData_liquidity (E : Env) :
  keeps (getMarketData_liquidity E).
Proof. unfold getMarketData_liquidity. keeps_auto. Qed.
#[export] Hint Resolve keeps_getMarketData_liquidity : keeps.

Lemma keeps_checkMarketConditions (E : Env) amountInSol :
  keeps (checkMarketConditions E amountInSol).
Proof. unfold checkMarketConditions. keeps_auto. Qed.
#[export] Hint Resolve keeps_checkMarketConditions : keeps.

Lemma keeps_checkCircuitBreakers (E : Env) (cfg : ConfigManager) sink :
  keeps (checkCircuitBreakers E cfg sink).
Proof. unfold checkCircuitBreakers. keeps_auto. Qed.
#[export] Hint Resolve keeps_checkCircuitBreakers : keeps.

Lemma keeps_getPersonality key : keeps (getPersonality key).
Proof. unfold getPersonality. keeps_auto. Qed.
#[export] Hint Resolve keeps_getPersonality : keeps.

Lemma keeps_cleanupOldCooldowns (E : Env) now :
  keeps (cleanupOldCooldowns E now).
Proof. unfold cleanupOldCooldowns. keeps_auto. Qed.
#[export] Hint Resolve keeps_cleanupOldCooldowns : keeps.

Lemma keeps_shuffleArray_loop {A} (E : Env) (i : nat) (l : list A) :
  keeps (shuffleArray_loop E i l).
Proof. revert l. induction i as [|i IH]; intros l; simpl; keeps_auto. Qed.
#[export] Hint Resolve keeps_shuffleArray_loop : keeps.

Lemma keeps_shuffleArray {A} (E : Env) (l : list A) : keeps (shuffleArray E l).
Proof. unfold shuffleArray. keeps_auto. Qed.
#[export] Hint Resolve keeps_shuffleArray : keeps.

Lemma keeps_filterM {A} (pred : A → M bool) (l : list A) :
  (∀ x, keeps (pred x)) → keeps (filterM pred l).
Proof. intros Hp. induction l as [|x l IH]; simpl; keeps_auto. Qed.
#[export] Hint Resolve keeps_filterM : keeps.

Lemma keeps_getWalletCooldown (E : Env) (cfg : ConfigManager) walletKey :
  keeps (getWalletCooldown E cfg walletKey).
Proof. unfold getWalletCooldown. keeps_auto. Qed.
#[export] Hint Resolve keeps_getWalletCooldown : keeps.

Lemma keeps_isReady (E : Env) (cfg : ConfigManager) now w :
  keeps (isReady E cfg now w).
Proof. unfold isReady. keeps_auto. Qed.
#[export] Hint Resolve keeps_isReady : keeps.

Lemma keeps_loadActiveBatch (E : Env) (cfg : ConfigManager) :
  keeps (loadActiveBatch E cfg).
Proof. unfold loadActiveBatch. keeps_auto. Qed.
#[export] Hint Resolve keeps_loadActiveBatch : keeps.

Lemma keeps_markWalletUsed (E : Env) wallet : keeps (markWalletUsed E wallet).
Proof. unfold markWalletUsed. keeps_auto. Qed.
#[export] Hint Resolve keeps_markWalletUsed : keeps.

Lemma keeps_getJitteredValue (E : Env) base jitter :
  keeps (getJitteredValue E base jitter).
Proof. unfold getJitteredValue. keeps_auto. Qed.
#[export] Hint Resolve keeps_getJitteredValue : keeps.

Lemma keeps_getRandomDelay (E : Env) (cfg : ConfigManager) :
  keeps (getRandomDelay E cfg).
Proof. unfold getRandomDelay. keeps_auto. Qed.
#[export] Hint Resolve keeps_getRandomDelay : keeps.

Lemma keeps_fetchSentiment (E : Env) : keeps (fetchSentiment E).
Proof. unfold fetchSentiment. keeps_auto. Qed.
#[export] Hint Resolve keeps_fetchSentiment : keeps.

Lemma keeps_getCurrentMemeBalance (E : Env) wallet :
  keeps (getCurrentMemeBalance E wallet).
Proof. unfold getCurrentMemeBalance. keeps_auto. Qed.
#[export] Hint Resolve keeps_getCurrentMemeBalance : keeps.

Lemma keeps_getProfileAdjustedAmount (E : Env)
  (cfg : ConfigManager) wallet isBuy :
  keeps (getProfileAdjustedAmount E cfg wallet isBuy).
Proof. unfold getProfileAdjustedAmount. keeps_auto. Qed.
#[export] Hint Resolve keeps_getProfileAdjustedAmount : keeps.

Lemma keeps_getAdaptiveAmount (E : Env)
  (cfg : ConfigManager) wallet isBuy baseAmount :
  keeps (getAdaptiveAmount E cfg wallet isBuy baseAmount).
Proof. unfold getAdaptiveAmount. keeps_auto. Qed.
#[export] Hint Resolve keeps_getAdaptiveAmount : keeps.

Lemma keeps_isBuyFirst (E : Env) (cfg : ConfigManager) wallet :
  keeps (isBuyFirst E cfg wallet).
Proof. unfold isBuyFirst. keeps_auto. Qed.
#[export] Hint Resolve keeps_isBuyFirst : keeps.

Lemma keeps_randomActions (E : Env) (cfg : ConfigManager) (n : nat) :
  keeps (randomActions E cfg n).
Proof. induction n as [|n IH]; simpl; keeps_auto. Qed.
#[export] Hint Resolve keeps_randomActions : keeps.

Lemma keeps_getTradeActions (E : Env) (cfg : ConfigManager) wallet :
  keeps (getTradeActions E cfg wallet).
Proof. unfold getTradeActions. keeps_auto. Qed.
#[export] Hint Resolve keeps_getTradeActions : keeps.

Lemma keeps_attemptSwap (E : Env) (cfg : ConfigManager) isBuy wallet amount :
  keeps (attemptSwap E cfg isBuy wallet amount).
Proof. unfold attemptSwap. keeps_auto. Qed.
#[export] Hint Resolve keeps_attemptSwap : keeps.

Lemma keeps_performSingleSwap_loop (E : Env) (cfg : ConfigManager)
  (remaining attempt : nat) isBuy wallet amount :
  keeps (performSingleSwap_loop E cfg remaining attempt isBuy wallet amount).
Proof.
  revert attempt. induction remaining as [|k IH]; intros attempt; simpl;
    keeps_auto.
Qed.
#[export] Hint Resolve keeps_performSingleSwap_loop : keeps.

Lemma keeps_performSingleSwap (E : Env)
  (cfg : ConfigManager) isBuy wallet amount :
  keeps (performSingleSwap E cfg isBuy wallet amount).
Proof. unfold performSingleSwap. keeps_auto. Qed.
#[export] Hint Resolve keeps_performSingleSwap : keeps.

Lemma keeps_twapSwap_loop (E : Env) (cfg : ConfigManager) isBuy wallet
  (len i : nat) (todo : list Z) (anySuccess : bool) :
  keeps (twapSwap_loop E cfg isBuy wallet len i todo anySuccess).
Proof.
  revert i anySuccess.
  induction todo as [|share todo IH]; intros i anySuccess; simpl; keeps_auto.
Qed.
#[export] Hint Resolve keeps_twapSwap_loop : keeps.

Lemma keeps_twapSwap (E : Env) (cfg : ConfigManager) isBuy wallet amount :
  keeps (twapSwap E cfg isBuy wallet amount).
Proof. unfold twapSwap. keeps_auto. Qed.
#[export] Hint Resolve keeps_twapSwap : keeps.

Lemma keeps_partialSell (E : Env) (cfg : ConfigManager) wallet :
  keeps (partialSell E cfg wallet).
Proof. unfold partialSell. keeps_auto. Qed.
#[export] Hint Resolve keeps_partialSell : keeps.

Lemma keeps_sizeAndCheck (E : Env) (cfg : ConfigManager) isBuy wallet :
  keeps (sizeAndCheck E cfg isBuy wallet).
Proof. unfold sizeAndCheck. keeps_auto. Qed.
#[export] Hint Resolve keeps_sizeAndCheck : keeps.

Lemma keeps_executeSwap (E : Env)
  (cfg : ConfigManager) isBuy wallet finalAmount :
  keeps (executeSwap E cfg isBuy wallet finalAmount).
Proof. unfold executeSwap. keeps_auto. Qed.
#[export] Hint Resolve keeps_executeSwap : keeps.

Lemma keeps_afterMarketCheck (E : Env)
  (cfg : ConfigManager) isBuy wallet finalAmount :
  keeps (afterMarketCheck E cfg isBuy wallet finalAmount).
Proof. unfold afterMarketCheck. keeps_auto. Qed.
#[export] Hint Resolve keeps_afterMarketCheck : keeps.

Lemma keeps_performSwap (E : Env) (cfg : ConfigManager) isBuy wallet :
  keeps (performSwap E cfg isBuy wallet).
Proof. unfold performSwap. keeps_auto. Qed.
#[export] Hint Resolve keeps_performSwap : keeps.

Lemma keeps_record (cfg : ConfigManager) ok : keeps (record cfg ok).
Proof. unfold record. keeps_auto. Qed.
#[export] Hint Resolve keeps_record : keeps.

Lemma keeps_processAction (E : Env)
  (cfg : ConfigManager) wallet cycleVolume isBuy :
  keeps (processAction E cfg wallet cycleVolume isBuy).
Proof. unfold processAction. keeps_auto. Qed.
#[export] Hint Resolve keeps_processAction : keeps.

Lemma keeps_processActions (E : Env) (cfg : ConfigManager) wallet
  (cycleVolume : Z) (actions : list bool) :
  keeps (processActions E cfg wallet cycleVolume actions).
Proof.
  revert cycleVolume.
  induction actions as [|isBuy rest IH]; intros cycleVolume; simpl; keeps_auto.
Qed.
#[export] Hint Resolve keeps_processActions : keeps.

Lemma keeps_processWalletCycle (E : Env) (cfg : ConfigManager) wallet :
  keeps (processWalletCycle E cfg wallet).
Proof. unfold processWalletCycle. keeps_auto. Qed.
#[export] Hint Resolve keeps_processWalletCycle : keeps.

Lemma keeps_runLoop_cycle (E : Env) (cfg : ConfigManager) batchNum :
  keeps (runLoop_cycle E cfg batchNum).
Proof. unfold runLoop_cycle. keeps_auto. Qed.
#[export] Hint Resolve keeps_runLoop_cycle : keeps.

Lemma keeps_runLoop_afterBatch (E : Env) (cfg : ConfigManager) batchNum :
  keeps (runLoop_afterBatch E cfg batchNum).
Proof. unfold runLoop_afterBatch, rebalanceWallets. keeps_auto. Qed.
#[export] Hint Resolve keeps_runLoop_afterBatch : keeps.

Lemma reachable_engine_fixed (E : Env) (cfg : ConfigManager) (w0 w : World) :
  reachable E cfg w0 w → engine_fixed w0 w.
Proof.
  induction 1 as [|w batchNum Hw IH|w batchNum Hw IH|w wallet Hw IH].
  - apply engine_fixed_refl.
  - eapply engine_fixed_trans; [exact IH|apply keeps_runLoop_cycle].
  - eapply engine_fixed_trans; [exact IH|apply keeps_runLoop_afterBatch].
  - eapply engine_fixed_trans; [exact IH|apply keeps_processWalletCycle].
Qed.

(** From the constructed engine on, [isRunning] stays undefined and
    [cycleCount] stays 0. *)
Lemma reachable_engine_constructed (E : Env) (cfg : ConfigManager)
  (w0 w : World) :
  tradingEngine w0 = TradingEngine_constructor →
  reachable E cfg w0 w →
  cycleCount (tradingEngine w) = 0 ∧ isRunning (tradingEngine w) = None.
Proof.
  intros H0 Hw. apply reachable_engine_fixed in Hw as [Hc Hr].
  rewrite Hc, Hr, H0. split; reflexivity.
Qed.

(** ** twapSwap *)

Lemma twapSwap_loop_not_running (E : Env) (cfg : ConfigManager) isBuy wallet
  (len i : nat) (todo : list Z) (anySuccess : bool) (w : World) :
  isRunning (tradingEngine w) = None →
  twapSwap_loop E cfg isBuy wallet len i todo anySuccess w
  = (Return anySuccess, w).
Proof.
  intros Hr. destruct todo as [|share todo]; [reflexivity|].
  simpl. unfold bind, get_engine, engine_isRunning. rewrite Hr. reflexivity.
Qed.

(** C4.  [twapSwap] reads [this.isRunning] on the engine, where it is
    undefined, so the loop over the shares breaks before the first share.
    In every heap whose engine has no [isRunning] (the constructor leaves it
    so), [twapSwap] changes nothing and returns [false] (or throws when
    [twapParts] is not a positive whole number), whatever the Trade
    Execution Service would have answered; and an accepted whale buy of
    2.5 SOL, above the threshold, ends with no trade call and [false]. *)
Theorem C4_twapSwap_delegates_no_share :
  (∀ (E : Env) (cfg : ConfigManager) (isBuy : bool) (wallet : Wallet)
     (amount : Z) (n : nat) (tr : list Event) (cb : CircuitBreaker)
     (wm : WalletManager) (b : VolumeBoosterBot) (score fetched count : Z),
     let w := {| clock := n; trace := tr; circuitBreaker := cb;
                 tradingEngine :=
                   {| sentimentScore := score; lastSentimentFetch := fetched;
                      cycleCount := count; isRunning := None |};
                 walletManager := wm; bot := b |} in
     twapSwap E cfg isBuy wallet amount w
     = match twapSwap_parts cfg amount with
       | Return _ => (Return false, w)
       | Throw e => (Throw e, w)
       end)
  ∧ isRunning TradingEngine_constructor = None
  ∧ (let E := calmEnv (1 # 2) 50000000000 0 1000 in
     let w0 := World_of CircuitBreaker_constructor
                        (WalletManager_constructor None)
                        VolumeBoosterBot_constructor in
     fst (sizeAndCheck E whaleConfig true wallet1 w0)
     = Return (Some 2500000000)
     ∧ useTwap true 2500000000 = Return true
     ∧ fst (performSwap E whaleConfig true wallet1 w0) = Return false
     ∧ tradesOf (trace (snd (performSwap E whaleConfig true wallet1 w0))) = []).
Proof.
  split; [|split; [reflexivity|]].
  - intros E cfg isBuy wallet amount n tr cb wm b score fetched count w.
    unfold twapSwap, bind, lift.
    destruct (twapSwap_parts cfg amount) as [parts|e]; [|reflexivity].
    apply twapSwap_loop_not_running. reflexivity.
  - repeat split; vm_compute; reflexivity.
Qed.

(** ** performSingleSwap *)

(** C5.  [performSingleSwap] calls the Trade Execution Service at most
    three times with the same request.  A call that resolves ends the
    operation at once with [!!sig]; after a rejected first call it sleeps
    1000 ms, after a rejected second call 2000 ms; the rejection of the
    third call is thrown to the caller. *)
Theorem C5_performSingleSwap_three_attempts :
  ∀ (E : Env) (cfg : ConfigManager) (isBuy : bool) (wallet : Wallet)
    (amount : Z) (w : World),
    let req := swapRequest cfg isBuy wallet amount in
    let call := EvTrade req in
    let reply (k : nat) := trader E (clock w + 2 * k) req in
    performSingleSwap E cfg isBuy wallet amount w
    = match reply 0%nat with
      | Return sig => (Return (JS.truthy_string sig), advance w 1 [call])
      | Throw _ =>
          match reply 1%nat with
          | Return sig =>
              (Return (JS.truthy_string sig),
               advance w 3 [call; EvDelay 1000; call])
          | Throw _ =>
              match reply 2%nat with
              | Return sig =>
                  (Return (JS.truthy_string sig),
                   advance w 5 [call; EvDelay 1000; call; EvDelay 2000; call])
              | Throw e =>
                  (Throw e,
                   advance w 5 [call; EvDelay 1000; call; EvDelay 2000; call])
              end
          end
      end.
Proof.
  intros E cfg isBuy wallet amount [c tr cb te wm b] req call reply.
  subst reply. cbn [clock].
  replace (c + 2 * 0)%nat with c by lia.
  replace (c + 2 * 1)%nat with (S (S c)) by lia.
  replace (c + 2 * 2)%nat with (S (S (S (S c)))) by lia.
  unfold performSingleSwap, maxRetries, advance.
  cbn [clock trace circuitBreaker tradingEngine walletManager bot].
  cbn [performSingleSwap_loop].
  unfold bind, try_catch, attemptSwap, trader_call, delay, bind, tick, emit,
    lift, ret, throw. fold req. cbn.
  destruct (trader E c req) as [sig0|e0]; cbn.
  { repeat f_equal; lia. }
  destruct (trader E (S (S c)) req) as [sig1|e1]; cbn.
  { rewrite <- !app_assoc. repeat f_equal; lia. }
  destruct (trader E (S (S (S (S c)))) req) as [sig2|e2]; cbn;
    rewrite <- !app_assoc; repeat f_equal; lia.
Qed.

(** ** Batch selection *)

Lemma tickn_tickn (n m : nat) (w : World) :
  tickn n (tickn m w) = tickn (n + m) w.
Proof. unfold tickn. simpl. f_equal. lia. Qed.

Lemma swap_elem_of {A} (l : list A) (i j : nat) (x : A) :
  x ∈ swap l i j → x ∈ l.
Proof.
  unfold swap.
  destruct (l !! i) as [a|] eqn:Hi; [|auto].
  destruct (l !! j) as [b|] eqn:Hj; [|auto].
  intros Hin. apply list_elem_of_lookup in Hin as [k Hk].
  apply list_lookup_insert_Some in Hk as [(-> & <- & _)|[_ Hk]].
  { eapply list_elem_of_lookup_2; eauto. }
  apply list_lookup_insert_Some in Hk as [(-> & <- & _)|[_ Hk]].
  { eapply list_elem_of_lookup_2; eauto. }
  eapply list_elem_of_lookup_2; eauto.
Qed.

Lemma shuffleArray_loop_run {A} (E : Env) (i : nat) (l : list A) (w : World) :
  ∃ l', shuffleArray_loop E i l w = (Return l', tickn i w)
        ∧ ∀ x, x ∈ l' → x ∈ l.
Proof.
  revert l w. induction i as [|i IH]; intros l w.
  - exists l. split; [destruct w; reflexivity|auto].
  - cbn [shuffleArray_loop]. unfold bind at 1, Math_random_call.
    unfold bind at 1, tick, ret.
    match goal with
    | |- context [shuffleArray_loop E i ?l1 ?w1] =>
        destruct (IH l1 w1) as (l' & Hrun & Hsub)
    end.
    exists l'. split.
    + rewrite Hrun. f_equal. unfold tickn. simpl. f_equal. lia.
    + intros x Hx. eapply swap_elem_of, Hsub, Hx.
Qed.

Lemma slice0_elem_of {A} (l : list A) (e : Q) (x : A) :
  x ∈ JS.slice0 l e → x ∈ l.
Proof.
  unfold JS.slice0. destruct (JS.trunc e <? 0); apply subseteq_take.
Qed.

Lemma slice0_length {A} (l : list A) (e : Q) :
  (0 <= e)%Q →
  (inject_Z (Z.of_nat (length (JS.slice0 l e))) <= e)%Q.
Proof.
  intros He. unfold JS.slice0, JS.trunc.
  apply Qle_bool_iff in He as He'. rewrite He'.
  assert (Hfl : 0 <= Qfloor e).
  { change 0 with (Qfloor 0). apply Qfloor_resp_le, He. }
  destruct (Z.ltb_spec (Qfloor e) 0) as [|_]; [lia|].
  apply le_inject_floor. rewrite length_take. lia.
Qed.

Lemma cleanupOldCooldowns_run (E : Env) (now : Z) (w : World) :
  ∃ wm1 : WalletManager,
    cleanupOldCooldowns E now w
    = (Return tt,
       {| clock := S (clock w); trace := trace w;
          circuitBreaker := circuitBreaker w;
          tradingEngine := tradingEngine w;
          walletManager := wm1; bot := bot w |})
    ∧ walletData wm1 = walletData (walletManager w)
    ∧ activeWallets wm1 = activeWallets (walletManager w)
    ∧ ∀ key ts,
        walletCooldowns (walletManager w) !! key = Some ts →
        walletCooldowns wm1 !! key = Some ts ∨ MAX_COOLDOWN_AGE_MS < now - ts.
Proof.
  eexists. split; [|split; [|split]].
  - unfold cleanupOldCooldowns, Math_random_call, bind, get_wallets, tick,
      put_wallets, ret. reflexivity.
  - reflexivity.
  - reflexivity.
  - intros key ts Hts. cbn [walletCooldowns set_cooldowns_counts].
    destruct (Z_lt_le_dec MAX_COOLDOWN_AGE_MS (now - ts)) as [Hold|Hfresh];
      [right; exact Hold|left].
    apply map_lookup_filter_Some. split; [exact Hts|]. simpl. lia.
Qed.

Lemma bind_run {A B} (m : M A) (f : A → M B) (w w1 : World) (a : A)
  (r : Outcome B * World) :
  m w = (Return a, w1) → f a w1 = r → bind m f w = r.
Proof. intros Hm Hf. unfold bind. rewrite Hm. exact Hf. Qed.

(** *** The selection in doubles *)

(** [tradeCount % 5] keeps the sign of the count. *)
Lemma rem5_bounds (n : Z) : -4 <= Z.rem n 5 <= 4.
Proof. Z.to_euclidean_division_equations; lia. Qed.

(** The cooldown before the floor: seven roundings of numbers below
    8000000 move it by less than 10^-6. *)
Lemma cooldown_double_near (cfg : ConfigManager) (r : Q) (tradeCount : Z) :
  (0 <= minWalletCooldownMs cfg)%Q → (minWalletCooldownMs cfg <= 3600000)%Q →
  (0 <= maxWalletCooldownMs cfg)%Q → (maxWalletCooldownMs cfg <= 3600000)%Q →
  (0 <= r)%Q → (r < 1)%Q →
  let exact := (baseCooldown cfg r * cooldownMultiplier tradeCount)%Q in
  let rounded := JS.mul (baseCooldown_double cfg r)
                        (cooldownMultiplier_double tradeCount) in
  (exact - (1 # 1000000) <= rounded ∧ rounded <= exact + (1 # 1000000))%Q.
Proof.
  intros Ha0 Ha1 Hb0 Hb1 Hr0 Hr1 exact rounded. subst exact rounded.
  unfold baseCooldown, cooldownMultiplier, baseCooldown_double,
    cooldownMultiplier_double, JS.mul, JS.add, JS.sub.
  set (a := minWalletCooldownMs cfg) in *.
  set (b := maxWalletCooldownMs cfg) in *.
  pose proof (rem5_bounds tradeCount) as Hk.
  assert (Hk1 : (-4 <= inject_Z (Z.rem tradeCount 5))%Q).
  { change (-4)%Q with (inject_Z (-4)). rewrite <- Zle_Qle. lia. }
  assert (Hk2 : (inject_Z (Z.rem tradeCount 5) <= 4)%Q).
  { change 4%Q with (inject_Z 4). rewrite <- Zle_Qle. lia. }
  set (k := inject_Z (Z.rem tradeCount 5)) in *. clearbody k. clear Hk.
  (* base *)
  destruct (double_near (b - a) 3600000 ltac:(lra) ltac:(lra)) as [Hd1 Hd2].
  set (d := JS.double (b - a)) in *. clearbody d.
  assert (Ht : (- 4000000 <= r * d ∧ r * d <= 4000000)%Q) by (split; nra).
  destruct Ht as [Ht3 Ht4].
  destruct (double_near (r * d) 4000000 ltac:(lra) ltac:(lra)) as [Ht1 Ht2].
  assert (Hrd : (r * (b - a) - 3600000 * (1 # 9007199254740992) <= r * d
                 ∧ r * d <= r * (b - a) + 3600000 * (1 # 9007199254740992))%Q)
    by (split; nra).
  destruct Hrd as [Hrd1 Hrd2].
  set (t := JS.double (r * d)) in *. clearbody t.
  destruct (double_near (a + t) 8000000 ltac:(lra) ltac:(lra)) as [Hs1 Hs2].
  set (s := JS.double (a + t)) in *. clearbody s.
  assert (Hbase : (0 <= a + r * (b - a) ∧ a + r * (b - a) <= 3600000)%Q)
    by (split; nra).
  destruct Hbase as [Hbase1 Hbase2].
  (* multiplier *)
  destruct (double_near (2 # 10) 1 ltac:(lra) ltac:(lra)) as [Hc1 Hc2].
  set (c := JS.double (2 # 10)) in *. clearbody c.
  assert (Hkc : (k * (2 # 10) - 4 * (1 # 9007199254740992) <= k * c
                 ∧ k * c <= k * (2 # 10) + 4 * (1 # 9007199254740992))%Q)
    by (split; nra).
  destruct Hkc as [Hkc1 Hkc2].
  destruct (double_near (k * c) 1 ltac:(lra) ltac:(lra)) as [Hq1 Hq2].
  set (q := JS.double (k * c)) in *. clearbody q.
  destruct (double_near (1 + q) 2 ltac:(lra) ltac:(lra)) as [Hm1 Hm2].
  set (m := JS.double (1 + q)) in *. clearbody m.
  (* product *)
  destruct (Qmult_near s (a + r * (b - a)) m (1 + k * (2 # 10))
              (16000000 * (1 # 9007199254740992))
              (7 * (1 # 9007199254740992)) 3600000 2
              ltac:(lra) ltac:(lra) ltac:(lra) ltac:(lra)
              ltac:(lra) ltac:(lra) ltac:(lra) ltac:(lra)) as [Hp1 Hp2].
  assert (Hsm : (- 8000000 <= s * m ∧ s * m <= 8000000)%Q) by (split; nra).
  destruct Hsm as [Hsm1 Hsm2].
  destruct (double_near (s * m) 8000000 ltac:(lra) ltac:(lra)) as [Hx1 Hx2].
  split; lra.
Qed.

(** The floor of the rounded product is at most one below the floor of the
    exact one. *)
Lemma cooldown_double_floor (cfg : ConfigManager) (r : Q) (tradeCount : Z) :
  (0 <= minWalletCooldownMs cfg)%Q → (minWalletCooldownMs cfg <= 3600000)%Q →
  (0 <= maxWalletCooldownMs cfg)%Q → (maxWalletCooldownMs cfg <= 3600000)%Q →
  (0 <= r)%Q → (r < 1)%Q →
  JS.floor (baseCooldown cfg r * cooldownMultiplier tradeCount) - 1
  <= JS.floor (JS.mul (baseCooldown_double cfg r)
                      (cooldownMultiplier_double tradeCount)).
Proof.
  intros Ha0 Ha1 Hb0 Hb1 Hr0 Hr1.
  pose proof (cooldown_double_near cfg r tradeCount Ha0 Ha1 Hb0 Hb1 Hr0 Hr1)
    as Hnear.
  cbv zeta in Hnear. destruct Hnear as [Hlow _].
  unfold JS.floor. apply le_inject_floor.
  pose proof (Qfloor_le (baseCooldown cfg r * cooldownMultiplier tradeCount))
    as Hfl.
  unfold Z.sub. rewrite inject_Z_plus, inject_Z_opp.
  change (inject_Z 1) with 1%Q. lra.
Qed.

Lemma isReady_double_run (E : Env) (cfg : ConfigManager) (now : Z)
  (wd : WalletData) (w : World) :
  ∃ keep : bool,
    isReady_double E cfg now wd w = (Return keep, tickn 1 w)
    ∧ (keep = true →
       cooledDown_double cfg (walletManager w) now wd
         (Math_random E (clock w))).
Proof.
  eexists. split.
  - unfold isReady_double, getWalletCooldown_double, Math_random_call, bind,
      get_wallets, tick, ret. reflexivity.
  - intros Hkeep. apply Z.leb_le in Hkeep. exact Hkeep.
Qed.

Lemma filterM_isReady_double (E : Env) (cfg : ConfigManager) (now : Z)
  (l : list WalletData) (w : World) :
  ∃ ready : list WalletData,
    filterM (isReady_double E cfg now) l w
    = (Return ready, tickn (length l) w)
    ∧ ∀ wd, wd ∈ ready →
        wd ∈ l
        ∧ ∃ k, cooledDown_double cfg (walletManager w) now wd
                 (Math_random E k).
Proof.
  revert w. induction l as [|x l IH]; intros w.
  - exists []. split; [destruct w; reflexivity|]. intros wd Hin. inversion Hin.
  - destruct (isReady_double_run E cfg now x w) as (keep & Hrun & Hkeep).
    destruct (IH (tickn 1 w)) as (rest & Hrest & Hspec).
    exists (if keep then x :: rest else rest). split.
    + cbn [filterM]. eapply bind_run; [exact Hrun|].
      eapply bind_run; [exact Hrest|]. unfold ret.
      rewrite tickn_tickn. repeat f_equal. simpl. lia.
    + intros wd Hin. destruct keep.
      * apply elem_of_cons in Hin as [->|Hin].
        -- split; [left|]. eexists. apply Hkeep. reflexivity.
        -- destruct (Hspec wd Hin) as [Hl Hcool]. split; [right; exact Hl|].
           exact Hcool.
      * destruct (Hspec wd Hin) as [Hl Hcool]. split; [right; exact Hl|].
        exact Hcool.
Qed.

(** What one selection does, in doubles: the batch, and the heap it
    leaves. *)
Lemma loadActiveBatch_double_run (E : Env) (cfg : ConfigManager) (w : World) :
  let now := Date_now E (clock w) in
  ∃ (batch : list Wallet) (w' : World),
    loadActiveBatch_double E cfg w = (Return batch, w')
    ∧ (∀ wallet, wallet ∈ batch →
         ∃ (wd : WalletData) (k : nat),
           wd ∈ walletData (walletManager w)
           ∧ wallet = toActiveWallet E wd
           ∧ cooledDown_double cfg (walletManager w') now wd (Math_random E k))
    ∧ (∃ selected : list WalletData,
         batch = toActiveWallet E <$> selected
         ∧ ∃ l, selected = JS.slice0 l (batchSize cfg))
    ∧ (∀ key ts,
         walletCooldowns (walletManager w) !! key = Some ts →
         walletCooldowns (walletManager w') !! key = Some ts
         ∨ MAX_COOLDOWN_AGE_MS < now - ts).
Proof.
  intros now.
  destruct (cleanupOldCooldowns_run E now (tickn 1 w))
    as (wm1 & Hclean & Hdata & Hactive & Hpurge).
  cbn [walletManager tickn clock trace circuitBreaker tradingEngine bot]
    in Hclean, Hdata, Hactive, Hpurge.
  set (w2 := {| clock := S (1 + clock w); trace := trace w;
                circuitBreaker := circuitBreaker w;
                tradingEngine := tradingEngine w;
                walletManager := wm1; bot := bot w |}) in *.
  destruct (filterM_isReady_double E cfg now (walletData wm1) w2)
    as (ready & Hfilter & Hready).
  cbn [walletManager w2] in Hready.
  set (w3 := tickn (length (walletData wm1)) w2) in *.
  assert (Hshuffle : ∃ shuffled w4,
    (if shuffleWallets cfg then shuffleArray E ready else ret ready) w3
    = (Return shuffled, w4)
    ∧ walletManager w4 = wm1
    ∧ ∀ x, x ∈ shuffled → x ∈ ready).
  { destruct (shuffleWallets cfg).
    - unfold shuffleArray.
      destruct (shuffleArray_loop_run E (length ready - 1) ready w3)
        as (l' & Hrun & Hsub).
      eexists _, _. split; [exact Hrun|]. split; [reflexivity|exact Hsub].
    - eexists _, _. split; [reflexivity|]. split; [reflexivity|auto]. }
  destruct Hshuffle as (shuffled & w4 & Hrun & Hwm4 & Hsub).
  destruct (length ready =? 0)%nat eqn:Hempty.
  - exists [], w3. split; [|split; [|split]].
    + unfold loadActiveBatch_double.
      eapply bind_run; [reflexivity|]. fold now.
      eapply bind_run; [exact Hclean|].
      eapply bind_run; [reflexivity|]. cbn [walletManager].
      eapply bind_run; [exact Hfilter|].
      rewrite Hempty. reflexivity.
    + intros wallet Hin. inversion Hin.
    + exists []. split; [reflexivity|]. exists []. unfold JS.slice0.
      destruct (JS.trunc (batchSize cfg) <? 0); rewrite take_nil; reflexivity.
    + exact Hpurge.
  - exists (toActiveWallet E <$> JS.slice0 shuffled (batchSize cfg)).
    eexists. split; [|split; [|split]].
    + unfold loadActiveBatch_double.
      eapply bind_run; [reflexivity|]. fold now.
      eapply bind_run; [exact Hclean|].
      eapply bind_run; [reflexivity|]. cbn [walletManager].
      eapply bind_run; [exact Hfilter|].
      rewrite Hempty.
      eapply bind_run; [exact Hrun|].
      eapply bind_run; [reflexivity|].
      eapply bind_run; [reflexivity|].
      reflexivity.
    + intros wallet Hin. cbn [walletManager]. rewrite Hwm4.
      apply list_elem_of_fmap in Hin as (wd & -> & Hin).
      apply slice0_elem_of, Hsub, Hready in Hin as (Hstored & k & Hcool).
      exists wd, k. rewrite Hdata in Hstored.
      split; [exact Hstored|]. split; [reflexivity|exact Hcool].
    + eexists. split; [reflexivity|]. eexists. reflexivity.
    + cbn [walletManager]. rewrite Hwm4. exact Hpurge.
Qed.

Lemma calmEnv_random_ok (balance tokens step : Z) :
  random_ok (calmEnv (1 # 2) balance tokens step).
Proof. intros n. split; vm_compute; [discriminate|reflexivity]. Qed.

(** C6 as stated fails by one millisecond.  With both cooldown bounds at
    81925 ms the base is 81925 whatever the draw, and after two trades the
    cooldown of the claim is [floor(81925 * 1.4) = 114695] ms.  The
    selection computes [81925 * (1 + 2 * 0.2)] in doubles, a number just
    below 114695, and admits Wallet1 after 114694 ms. *)
Lemma C6_selected_one_ms_early :
  let E := calmEnv (1 # 2) 50000000000 2000000 1000 in
  let now := Date_now E 0 in
  let w' := snd (loadActiveBatch_double E fixedCooldownConfig
                   twiceTradedWorld) in
  fst (loadActiveBatch_double E fixedCooldownConfig twiceTradedWorld)
  = Return [wallet1]
  ∧ walletCooldowns (walletManager w') !! "Wallet1" = Some (now - 114694)
  ∧ walletTradeCount (walletManager w') !! "Wallet1" = Some 2
  ∧ ∀ r : Q, ¬ cooledDown fixedCooldownConfig (walletManager w') now
                 walletData1 r.
Proof.
  intros E now w'.
  assert (Hw' : walletManager w'
                = {| walletData := [walletData1];
                     activeWallets := [wallet1];
                     walletCooldowns := {[ "Wallet1" := 1699999885306 ]};
                     walletTradeCount := {[ "Wallet1" := 2 ]};
                     walletPersonalities := ∅;
                     sinkKeypair := None |}) by (vm_compute; reflexivity).
  split; [vm_compute; reflexivity|].
  rewrite Hw'. split; [reflexivity|]. split; [reflexivity|].
  intros r Hcool. unfold cooledDown in Hcool.
  cbn [walletCooldowns walletTradeCount pubkey walletData1] in Hcool.
  rewrite !lookup_singleton_eq in Hcool. cbn [default] in Hcool.
  unfold id in Hcool.
  assert (Heq : ((minWalletCooldownMs fixedCooldownConfig
                  + r * (maxWalletCooldownMs fixedCooldownConfig
                         - minWalletCooldownMs fixedCooldownConfig))
                 * (1 + inject_Z (Z.rem 2 5) * (2 # 10)) == 114695)%Q).
  { change (minWalletCooldownMs fixedCooldownConfig) with 81925%Q.
    change (maxWalletCooldownMs fixedCooldownConfig) with 81925%Q.
    change (inject_Z (Z.rem 2 5)) with 2%Q. field. }
  unfold JS.floor in Hcool. rewrite (Qfloor_comp _ _ Heq) in Hcool.
  change (Qfloor 114695) with 114695 in Hcool.
  change now with 1700000000000 in Hcool. lia.
Qed.

(** C6 (amended).  With draws in [[0, 1)], cooldown bounds between 0 and
    3600000 ms (the validation admits 60000 to 3600000) and a non-negative
    batch size, the selection returns a batch of at most [batchSize]
    wallets, and every wallet of the batch is a stored wallet that passed
    the cooldown test with a draw [r] of its own, the cooldown being
    computed in doubles: at selection time [now],
    [now - lastTrade >= floor(base * multiplier)] with
    [base = min + r * (max - min)] and
    [multiplier = 1 + (tradeCount % 5) * 0.2], every operation rounded to
    a double, where [lastTrade] and [tradeCount] are its entries in the
    maps the selection leaves (0 when absent).  The rounding costs at most
    one millisecond: [now + 1 - lastTrade] is at least the cooldown of the
    exact formula.  The timestamp the wallet had before the selection is
    that [lastTrade], unless it was older than the retention horizon and
    has been purged. *)
Theorem C6_loadActiveBatch_respects_cooldown :
  ∀ (E : Env) (cfg : ConfigManager) (w : World),
    random_ok E →
    (0 <= batchSize cfg)%Q →
    (0 <= minWalletCooldownMs cfg)%Q → (minWalletCooldownMs cfg <= 3600000)%Q →
    (0 <= maxWalletCooldownMs cfg)%Q → (maxWalletCooldownMs cfg <= 3600000)%Q →
    let now := Date_now E (clock w) in
    let w' := snd (loadActiveBatch_double E cfg w) in
    ∃ batch : list Wallet,
      fst (loadActiveBatch_double E cfg w) = Return batch
      ∧ (inject_Z (Z.of_nat (length batch)) <= batchSize cfg)%Q
      ∧ ∀ wallet, wallet ∈ batch →
          ∃ (wd : WalletData) (k : nat),
            wd ∈ walletData (walletManager w)
            ∧ wallet = toActiveWallet E wd
            ∧ (0 <= Math_random E k)%Q ∧ (Math_random E k < 1)%Q
            ∧ cooledDown_double cfg (walletManager w') now wd (Math_random E k)
            ∧ cooledDown cfg (walletManager w') (now + 1) wd (Math_random E k)
            ∧ ∀ ts, walletCooldowns (walletManager w) !! pubkey wd = Some ts →
                    walletCooldowns (walletManager w') !! pubkey wd = Some ts
                    ∨ MAX_COOLDOWN_AGE_MS < now - ts.
Proof.
  intros E cfg w Hrandom Hsize Ha0 Ha1 Hb0 Hb1 now w'. subst w'.
  destruct (loadActiveBatch_double_run E cfg w)
    as (batch & w' & Hrun & Hbatch & (selected & -> & l & ->) & Hpurge).
  fold now in Hbatch, Hpurge. rewrite Hrun. cbn [fst snd].
  eexists. split; [reflexivity|]. split.
  - rewrite length_fmap. apply slice0_length, Hsize.
  - intros wallet Hin.
    destruct (Hbatch wallet Hin) as (wd & k & Hstored & Heq & Hcool).
    exists wd, k. destruct (Hrandom k) as [H0 H1].
    repeat (split; [assumption|]). split.
    + unfold cooledDown_double in Hcool. unfold cooledDown.
      pose proof (cooldown_double_floor cfg (Math_random E k)
                    (default 0 (walletTradeCount (walletManager w')
                                !! pubkey wd))
                    Ha0 Ha1 Hb0 Hb1 H0 H1) as Hfloor.
      unfold baseCooldown, cooldownMultiplier in Hfloor.
      cbv zeta in Hcool |- *. lia.
    + intros ts Hts. apply Hpurge, Hts.
Qed.

(** C6 (amended) for the wallet that traded twice, the second time
    114694 ms ago, with both cooldown bounds at 81925 ms: it is selected,
    one millisecond before the cooldown of the exact formula (114695 ms)
    has passed. *)
Lemma C6_loadActiveBatch_respects_cooldown_witness :
  let E := calmEnv (1 # 2) 50000000000 2000000 1000 in
  let now := Date_now E 0 in
  let w' := snd (loadActiveBatch_double E fixedCooldownConfig
                   twiceTradedWorld) in
  fst (loadActiveBatch_double E fixedCooldownConfig twiceTradedWorld)
  = Return [wallet1]
  ∧ ∃ r : Q,
      cooledDown_double fixedCooldownConfig (walletManager w') now
        walletData1 r
      ∧ cooledDown fixedCooldownConfig (walletManager w') (now + 1)
          walletData1 r.
Proof.
  intros E now w'.
  destruct (C6_loadActiveBatch_respects_cooldown E fixedCooldownConfig
              twiceTradedWorld
              (calmEnv_random_ok 50000000000 2000000 1000)
              ltac:(vm_compute; discriminate)
              ltac:(vm_compute; discriminate) ltac:(vm_compute; discriminate)
              ltac:(vm_compute; discriminate) ltac:(vm_compute; discriminate))
    as (batch & Hrun & _ & Hin).
  assert (Hbatch : batch = [wallet1]).
  { assert (Hfst : fst (loadActiveBatch_double E fixedCooldownConfig
                          twiceTradedWorld) = Return [wallet1])
      by (vm_compute; reflexivity).
    rewrite Hfst in Hrun. injection Hrun as <-. reflexivity. }
  subst batch. split; [exact Hrun|].
  destruct (Hin wallet1 ltac:(left))
    as (wd & k & Hwd & _ & _ & _ & Hdouble & Hexact & _).
  apply list_elem_of_singleton in Hwd as ->.
  exists (Math_random E k). split; [exact Hdouble|exact Hexact].
Defined.

(** ** Partial sell *)

(** The product [pct * 100] as the code computes it is within 10^-12 of
    a number of the band, in percent, and it is not negative. *)
Lemma partialSell_percentage_near (cfg : ConfigManager) (r : Q) :
  (0 <= partialSellMin cfg)%Q →
  (partialSellMin cfg <= partialSellMax cfg)%Q →
  (partialSellMax cfg <= 1)%Q →
  (0 <= r)%Q → (r < 1)%Q →
  let pct100 := JS.mul (partialSellPct cfg r) 100 in
  (0 <= pct100
   ∧ partialSellMin cfg * 100 - (1 # 1000000000000) <= pct100
   ∧ pct100 <= partialSellMax cfg * 100 + (1 # 1000000000000))%Q.
Proof.
  intros Ha0 Hab Hb1 Hr0 Hr1 pct100. subst pct100.
  unfold partialSellPct, JS.mul, JS.add, JS.sub.
  set (a := partialSellMin cfg) in *. set (b := partialSellMax cfg) in *.
  destruct (double_near (b - a) 1 ltac:(lra) ltac:(lra)) as [Hd1 Hd2].
  pose proof (double_nonneg (b - a) ltac:(lra)) as Hd0.
  set (d := JS.double (b - a)) in *. clearbody d.
  assert (Hrd : (0 <= r * d ∧ r * d <= 2
                 ∧ r * (b - a) - (1 # 9007199254740992) <= r * d
                 ∧ r * d <= r * (b - a) + (1 # 9007199254740992))%Q)
    by (repeat split; nra).
  destruct Hrd as (Ht0 & Ht3 & Hrd1 & Hrd2).
  destruct (double_near (r * d) 2 ltac:(lra) ltac:(lra)) as [Ht1 Ht2].
  pose proof (double_nonneg (r * d) Ht0) as Ht0'.
  set (t := JS.double (r * d)) in *. clearbody t.
  destruct (double_near (a + t) 4 ltac:(lra) ltac:(lra)) as [Hs1 Hs2].
  pose proof (double_nonneg (a + t) ltac:(lra)) as Hs0.
  set (s := JS.double (a + t)) in *. clearbody s.
  assert (Hexact : (a <= a + r * (b - a) ∧ a + r * (b - a) <= b)%Q)
    by (split; nra).
  destruct Hexact as [He1 He2].
  destruct (double_near (s * 100) 800 ltac:(lra) ltac:(lra)) as [Hz1 Hz2].
  pose proof (double_nonneg (s * 100) ltac:(lra)) as Hz0.
  repeat split; lra.
Qed.

(** The whole percentage of a partial sell: more than the configured
    minimum less one, at most the configured maximum, up to the rounding
    of doubles. *)
Lemma partialSell_percentage (cfg : ConfigManager) (r : Q) :
  (0 <= partialSellMin cfg)%Q →
  (partialSellMin cfg <= partialSellMax cfg)%Q →
  (partialSellMax cfg <= 1)%Q →
  (0 <= r)%Q → (r < 1)%Q →
  let p := JS.floor (JS.mul (partialSellPct cfg r) 100) in
  0 <= p
  ∧ (partialSellMin cfg * 100 - 1 - roundingSlack < inject_Z p)%Q
  ∧ (inject_Z p <= partialSellMax cfg * 100 + roundingSlack)%Q.
Proof.
  intros Ha0 Hab Hb1 Hr0 Hr1 p. subst p.
  pose proof (partialSell_percentage_near cfg r Ha0 Hab Hb1 Hr0 Hr1) as Hnear.
  cbv zeta in Hnear. destruct Hnear as (H0 & Hlo & Hhi).
  set (z := JS.mul (partialSellPct cfg r) 100) in *. clearbody z.
  unfold JS.floor, roundingSlack.
  pose proof (Qfloor_le z) as Hfl. pose proof (Qlt_floor z) as Hfl'.
  rewrite inject_Z_plus in Hfl'. change (inject_Z 1) with 1%Q in Hfl'.
  split; [|split; lra].
  change 0 with (Qfloor 0). apply Qfloor_resp_le, H0.
Qed.

(** The amount a partial sell sends to [performSingleSwap]: the test on
    the minimum balance stops nothing. *)
Lemma partialSell_amount (E : Env) (cfg : ConfigManager) (wallet : Wallet)
  (w : World) (tokens : Z) :
  getAccount E (clock w) (publicKey (keypair wallet)) = Return tokens →
  partialSell E cfg wallet w
  = performSingleSwap E cfg false wallet
      (partialSellAmount cfg tokens (Math_random E (S (clock w))))
      (tickn 2 w).
Proof.
  intros Hread. unfold partialSell.
  eapply bind_run.
  { unfold getCurrentMemeBalance, try_catch, getAccount_amount, bind, tick,
      lift. rewrite Hread. reflexivity. }
  unfold JS.BN_lt_BigInt.
  eapply bind_run; [reflexivity|]. reflexivity.
Qed.

(** C8 as stated fails by truncation: with the default band of 22 % to 68 %,
    a draw of 0 and 1000001 tokens, 220000 tokens are sold, less than
    22 % of the holdings (220000.22). *)
Lemma C8_partial_sell_below_band :
  ¬ (∀ (cfg : ConfigManager) (minPct maxPct : Q) (holdings : Z) (r : Q),
       partialSellEnabled cfg = true →
       validatePercentage (Some minPct) 22 = Some (partialSellMin cfg) →
       validatePercentage (Some maxPct) 68 = Some (partialSellMax cfg) →
       (minPct <= maxPct)%Q →
       (0 <= r)%Q → (r < 1)%Q →
       MIN_MEME_TOKENS <= holdings →
       withinBand minPct maxPct holdings (partialSellAmount cfg holdings r)).
Proof.
  intros Hclaim.
  destruct (Hclaim defaultConfig 22%Q 68%Q 1000001 0%Q
              eq_refl eq_refl eq_refl
              ltac:(vm_compute; discriminate) ltac:(vm_compute; discriminate)
              ltac:(reflexivity) ltac:(vm_compute; discriminate))
    as [Hlow _].
  vm_compute in Hlow. apply Hlow. reflexivity.
Qed.

(** The whole percentage can be a whole percent below the band: with
    PARTIAL_SELL_MIN_PCT=29 and a draw of 0, [0.29 * 100] is a double just
    below 29, and 280000 of 1000000 tokens are sold. *)
Lemma partialSellAmount_29 :
  validateAndLoadConfig partialSell29ProcessEnv = Some partialSell29Config
  ∧ partialSellAmount partialSell29Config 1000000 0 = 280000.
Proof. split; vm_compute; reflexivity. Qed.

(** C8 (amended).  For a stored band [min <= max] of fractions of [[0, 1]]
    (the percentages over 100), a draw of [[0, 1)] and a non-negative
    token balance, whether or not it reaches the minimum meaningful
    balance, the partial sell of [performSwap] hands to
    [performSingleSwap] the amount [floor(holdings * p / 100)] for a whole
    percentage [p] with [100 * min - 1 < p <= 100 * max], up to the
    rounding of doubles (less than 10^-9).  So the amount never exceeds
    [100 * max] % of the holdings, and it lies less than one token below
    [100 * min - 1] % of them, both up to that rounding. *)
Theorem C8_partial_sell_band_up_to_truncation :
  ∀ (E : Env) (cfg : ConfigManager) (wallet : Wallet) (holdings : Z)
    (w : World),
    (0 <= partialSellMin cfg)%Q →
    (partialSellMin cfg <= partialSellMax cfg)%Q →
    (partialSellMax cfg <= 1)%Q →
    getAccount E (clock w) (publicKey (keypair wallet)) = Return holdings →
    0 <= holdings →
    let r := Math_random E (S (clock w)) in
    (0 <= r)%Q → (r < 1)%Q →
    let minPct := (partialSellMin cfg * 100)%Q in
    let maxPct := (partialSellMax cfg * 100)%Q in
    let amount := partialSellAmount cfg holdings r in
    partialSell E cfg wallet w
    = performSingleSwap E cfg false wallet amount (tickn 2 w)
    ∧ ((minPct - 1 - roundingSlack) / 100 * inject_Z holdings - 1
       < inject_Z amount)%Q
    ∧ (inject_Z amount <= (maxPct + roundingSlack) / 100 * inject_Z holdings)%Q
    ∧ ∃ p : Z, (minPct - 1 - roundingSlack < inject_Z p)%Q
               ∧ (inject_Z p <= maxPct + roundingSlack)%Q
               ∧ amount = holdings * p / 100.
Proof.
  intros E cfg wallet holdings w Ha0 Hab Hb1 Hread Hh r Hr0 Hr1
    minPct maxPct amount.
  split; [apply partialSell_amount, Hread|].
  destruct (partialSell_percentage cfg r Ha0 Hab Hb1 Hr0 Hr1)
    as (Hp0 & Hplo & Hphi).
  set (p := JS.floor (JS.mul (partialSellPct cfg r) 100)) in *.
  fold minPct in Hplo. fold maxPct in Hphi.
  assert (Hamount : amount = holdings * p / 100).
  { subst amount. unfold partialSellAmount. fold p.
    apply Z.quot_div_nonneg; nia. }
  pose proof (Z.div_mod (holdings * p) 100 ltac:(lia)) as Hdm.
  pose proof (Z.mod_pos_bound (holdings * p) 100 ltac:(lia)) as Hmod.
  rewrite <- Hamount in Hdm.
  assert (Hup : (inject_Z amount * 100 <= inject_Z holdings * inject_Z p)%Q).
  { change 100%Q with (inject_Z 100).
    rewrite <- !inject_Z_mult, <- Zle_Qle. lia. }
  assert (Hdown : (inject_Z holdings * inject_Z p
                   < inject_Z amount * 100 + 100)%Q).
  { change 100%Q with (inject_Z 100).
    rewrite <- !inject_Z_mult, <- inject_Z_plus, <- Zlt_Qlt. lia. }
  assert (HH : (0 <= inject_Z holdings)%Q).
  { change 0%Q with (inject_Z 0). rewrite <- Zle_Qle. exact Hh. }
  clearbody minPct maxPct amount p.
  split; [|split].
  - unfold Qdiv. change (/ 100)%Q with (1 # 100)%Q. nra.
  - unfold Qdiv. change (/ 100)%Q with (1 # 100)%Q. nra.
  - exists p. auto.
Qed.

(** C8 (amended) for PARTIAL_SELL_MIN_PCT=29, a wallet of 1000000 tokens
    and a draw of 0: the 280000 tokens sold are 28 % of the holdings,
    within the amended bounds and below the 29 % of the configured band. *)
Lemma C8_partial_sell_band_up_to_truncation_witness :
  let E := calmEnv 0 50000000000 1000000 1000 in
  partialSell E partialSell29Config wallet1 oneWalletWorld
  = performSingleSwap E partialSell29Config false wallet1 280000
      (tickn 2 oneWalletWorld)
  ∧ ((29 - 1 - roundingSlack) / 100 * inject_Z 1000000 - 1
     < inject_Z 280000)%Q
  ∧ (inject_Z 280000 <= (68 + roundingSlack) / 100 * inject_Z 1000000)%Q.
Proof.
  intros E.
  destruct (C8_partial_sell_band_up_to_truncation E partialSell29Config
              wallet1 1000000 oneWalletWorld
              ltac:(vm_compute; discriminate) ltac:(vm_compute; discriminate)
              ltac:(vm_compute; discriminate) eq_refl ltac:(lia)
              ltac:(vm_compute; discriminate) ltac:(reflexivity))
    as (Hrun & Hlow & Hhigh & _).
  assert (Hamount : partialSellAmount partialSell29Config 1000000
                      (Math_random E (S (clock oneWalletWorld))) = 280000)
    by (vm_compute; reflexivity).
  cbv zeta in Hrun, Hlow, Hhigh. rewrite Hamount in Hrun, Hlow, Hhigh.
  split; [exact Hrun|]. split.
  - refine (Qle_lt_trans _ _ _ _ Hlow). vm_compute; discriminate.
  - refine (Qle_trans _ _ _ Hhigh _). vm_compute; discriminate.
Defined.

(** ** Queries leave the trace, the breaker and the wallets alone *)

Lemma quiet_ret {A} (a : A) : quiet (ret a).
Proof. intros w. reflexivity. Qed.

Lemma quiet_throw {A} (e : string) : quiet (@throw A e).
Proof. intros w. reflexivity. Qed.

Lemma quiet_lift {A} (o : Outcome A) : quiet (lift o).
Proof. intros w. reflexivity. Qed.

Lemma quiet_bind {A B} (m : M A) (f : A → M B) :
  quiet m → (∀ a, quiet (f a)) → quiet (bind m f).
Proof.
  intros Hm Hf w. unfold bind. specialize (Hm w).
  destruct (m w) as [[a|e] w']; simpl in *; [|exact Hm].
  rewrite Hf. exact Hm.
Qed.

Lemma quiet_try_catch {A} (m : M A) (h : string → M A) :
  quiet m → (∀ e, quiet (h e)) → quiet (try_catch m h).
Proof.
  intros Hm Hh w. unfold try_catch. specialize (Hm w).
  destruct (m w) as [[a|e] w']; simpl in *; [exact Hm|].
  rewrite Hh. exact Hm.
Qed.

Lemma quiet_tick : quiet tick.
Proof. intros w. reflexivity. Qed.

Lemma quiet_get_engine : quiet get_engine.
Proof. intros w. reflexivity. Qed.

Lemma quiet_get_wallets : quiet get_wallets.
Proof. intros w. reflexivity. Qed.

Lemma quiet_modify_engine (f : TradingEngine → TradingEngine) :
  quiet (modify_engine f).
Proof. intros w. reflexivity. Qed.

Create HintDb quiet.
#[export] Hint Resolve quiet_ret quiet_throw quiet_lift quiet_tick
  quiet_get_engine quiet_get_wallets quiet_modify_engine : quiet.

Ltac quiet_step :=
  match goal with
  | |- quiet (bind _ _) => apply quiet_bind; [|intros ?]
  | |- quiet (try_catch _ _) => apply quiet_try_catch; [|intros ?]
  | |- quiet (match ?x with _ => _ end) => destruct x
  | |- quiet _ => solve [eauto with quiet]
  end.

Ltac quiet_auto := repeat quiet_step.

Lemma quiet_Math_random_call (E : Env) : quiet (Math_random_call E).
Proof. unfold Math_random_call. quiet_auto. Qed.
#[export] Hint Resolve quiet_Math_random_call : quiet.

Lemma quiet_Date_now_call (E : Env) : quiet (Date_now_call E).
Proof. unfold Date_now_call. quiet_auto. Qed.
#[export] Hint Resolve quiet_Date_now_call : quiet.

Lemma quiet_getBalance (E : Env) pk : quiet (getBalance E pk).
Proof. unfold getBalance. quiet_auto. Qed.
#[export] Hint Resolve quiet_getBalance : quiet.

Lemma quiet_getAccount_amount (E : Env) owner :
  quiet (getAccount_amount E owner).
Proof. unfold getAccount_amount. quiet_auto. Qed.
#[export] Hint Resolve quiet_getAccount_amount : quiet.

Lemma quiet_fetchVolatility (E : Env) : quiet (fetchVolatility E).
Proof. unfold fetchVolatility. quiet_auto. Qed.
#[export] Hint Resolve quiet_fetchVolatility : quiet.

Lemma quiet_getMarketData_liquidity (E : Env) :
  quiet (getMarketData_liquidity E).
Proof. unfold getMarketData_liquidity. quiet_auto. Qed.
#[export] Hint Resolve quiet_getMarketData_liquidity : quiet.

Lemma quiet_checkMarketConditions (E : Env) amountInSol :
  quiet (checkMarketConditions E amountInSol).
Proof. unfold checkMarketConditions. quiet_auto. Qed.
#[export] Hint Resolve quiet_checkMarketConditions : quiet.

Lemma quiet_getPersonality key : quiet (getPersonality key).
Proof. unfold getPersonality. quiet_auto. Qed.
#[export] Hint Resolve quiet_getPersonality : quiet.

Lemma quiet_fetchSentiment (E : Env) : quiet (fetchSentiment E).
Proof. unfold fetchSentiment. quiet_auto. Qed.
#[export] Hint Resolve quiet_fetchSentiment : quiet.

Lemma quiet_getCurrentMemeBalance (E : Env) wallet :
  quiet (getCurrentMemeBalance E wallet).
Proof. unfold getCurrentMemeBalance. quiet_auto. Qed.
#[export] Hint Resolve quiet_getCurrentMemeBalance : quiet.

Lemma quiet_getProfileAdjustedAmount (E : Env)
  (cfg : ConfigManager) wallet isBuy :
  quiet (getProfileAdjustedAmount E cfg wallet isBuy).
Proof. unfold getProfileAdjustedAmount. quiet_auto. Qed.
#[export] Hint Resolve quiet_getProfileAdjustedAmount : quiet.

Lemma quiet_getAdaptiveAmount (E : Env)
  (cfg : ConfigManager) wallet isBuy baseAmount :
  quiet (getAdaptiveAmount E cfg wallet isBuy baseAmount).
Proof. unfold getAdaptiveAmount. quiet_auto. Qed.
#[export] Hint Resolve quiet_getAdaptiveAmount : quiet.

Lemma quiet_sizeAndCheck (E : Env) (cfg : ConfigManager) isBuy wallet :
  quiet (sizeAndCheck E cfg isBuy wallet).
Proof. unfold sizeAndCheck. quiet_auto. Qed.
#[export] Hint Resolve quiet_sizeAndCheck : quiet.

(** ** The hodler's skipped buy *)

Lemma bind_assoc_run {A B C} (m : M A) (f : A → M B) (g : B → M C) (w : World) :
  bind m (λ a, bind (f a) g) w = bind (bind m f) g w.
Proof. unfold bind. destruct (m w) as [[a|e] w']; reflexivity. Qed.

Lemma tradesOf_delay (tr : list Event) (ms : Q) :
  tradesOf (tr ++ [EvDelay ms]) = tradesOf tr.
Proof. unfold tradesOf. rewrite omap_app. simpl. apply app_nil_r. Qed.

(** The prelude of a buy: sentiment, sizing and the market check. *)
Lemma performSwap_buy_after_check (E : Env) (cfg : ConfigManager)
  (wallet : Wallet) (finalAmount : Z) (w w2 : World) :
  bind (fetchSentiment E) (λ _, sizeAndCheck E cfg true wallet) w
  = (Return (Some finalAmount), w2) →
  performSwap E cfg true wallet w
  = afterMarketCheck E cfg true wallet finalAmount w2
  ∧ observable w2 = observable w.
Proof.
  intros Hprelude. split.
  - unfold performSwap. cbn [negb andb].
    rewrite bind_assoc_run. unfold bind at 1. rewrite Hprelude. reflexivity.
  - assert (Hq : quiet (bind (fetchSentiment E)
                          (λ _, sizeAndCheck E cfg true wallet)))
      by quiet_auto.
    specialize (Hq w). rewrite Hprelude in Hq. exact Hq.
Qed.



(** ** The orchestrator loop *)

(** C7.  [loadActiveBatch] returns [[]] without touching
    [this.activeWallets] when no wallet is ready, and [runLoop] ignores the
    returned value and reads [this.activeWallets].  With one wallet: after
    a first cycle that traded with it, the wallet is on cooldown; at the
    next turn the selection returns the empty batch, yet the orchestrator
    fans out the previous batch again and does not sleep.  Only when no
    batch was ever selected does the empty selection lead to the 30 s
    backoff. *)
Theorem C7_empty_selection_reruns_previous_batch :
  let E := calmEnv (1 # 2) 50000000000 2000000 1000 in
  let w1 := snd (orchestrate E defaultConfig 1 0 oneWalletWorld) in
  let fresh := World_of CircuitBreaker_constructor
                        (WalletManager_constructor None) startedBot in
  fst (orchestrate E defaultConfig 1 0 oneWalletWorld) = Return 1
  ∧ activeWallets (walletManager w1) = [wallet1]
  ∧ fst (loadActiveBatch E defaultConfig
           (snd (checkCircuitBreakers E defaultConfig None w1))) = Return []
  ∧ fst (runLoop_cycle E defaultConfig 1 w1) = Return (FanOut 2 [wallet1])
  ∧ trace (snd (runLoop_cycle E defaultConfig 1 w1)) = trace w1
  ∧ fst (runLoop_cycle E defaultConfig 0 fresh) = Return Backoff
  ∧ trace (snd (runLoop_cycle E defaultConfig 0 fresh)) = [EvDelay 30000].
Proof. repeat split; vm_compute; reflexivity. Qed.

(** From the constructed engine on, the ramp is the one of the first
    cycle. *)
Lemma reachable_rampedAmount (E : Env) (cfg : ConfigManager) (w0 w : World)
  (adjustedAmount : Z) :
  tradingEngine w0 = TradingEngine_constructor →
  reachable E cfg w0 w →
  rampedAmount cfg (tradingEngine w) adjustedAmount
  = Z.quot (adjustedAmount * JS.floor (JS.min 1 (1 / rampCycles cfg) * 100))
           100.
Proof.
  intros H0 Hw.
  destruct (reachable_engine_constructed E cfg w0 w H0 Hw) as [Hc _].
  unfold rampedAmount, rampFactor. rewrite Hc. reflexivity.
Qed.

(** C9.  [performSwap] computes the ramp from [this.cycleCount] of the
    engine, which stays 0: [runLoop] increments the counter of the bot.
    With RAMP_CYCLES = 30, when the thirtieth cycle is fanned out (cycle
    index 29) the bot has counted 30 cycles, the engine none, and an
    adjusted amount of 10000000 is scaled to 300000 (3 %), where the
    specification gives the full 10000000. *)
Theorem C9_ramp_ignores_orchestrator_cycle :
  let E := calmEnv (1 # 2) 50000000000 2000000 10000000 in
  let w29 := snd (orchestrate E defaultConfig 29 0 oneWalletWorld) in
  let w := snd (runLoop_cycle E defaultConfig 29 w29) in
  fst (orchestrate E defaultConfig 29 0 oneWalletWorld) = Return 29
  ∧ fst (runLoop_cycle E defaultConfig 29 w29) = Return (FanOut 30 [wallet1])
  ∧ bot_cycleCount (bot w29) = 29
  ∧ bot_cycleCount (bot w) = 30
  ∧ cycleCount (tradingEngine w) = 0
  ∧ rampedAmount defaultConfig (tradingEngine w) 10000000 = 300000
  ∧ (specified_ramped 29 (rampCycles defaultConfig) 10000000 == 10000000)%Q.
Proof. repeat split; vm_compute; reflexivity. Qed.

(** * Further properties of the modelled code *)

(** ** ConfigManager: what a loaded configuration guarantees *)

(** An accepted number lies in its range, set or defaulted. *)
Lemma validateNumber_range (value : option Q) (min max d x : Q) :
  validateNumber value min max d = Some x →
  (min <= x)%Q ∧ (x <= max)%Q
  ∧ x = match value with Some v => v | None => d end.
Proof.
  unfold validateNumber.
  set (num := match value with Some v => v | None => d end).
  destruct (JS.ltb num min) eqn:Hlo; [discriminate|].
  destruct (JS.gtb num max) eqn:Hhi; [discriminate|].
  simpl. intros [= <-].
  apply ltb_false in Hlo. apply ltb_false in Hhi. auto.
Qed.

(** An accepted percentage is stored as a fraction of [[0, 1]]. *)
Lemma validatePercentage_range (value : option Q) (d x : Q) :
  validatePercentage value d = Some x → (0 <= x)%Q ∧ (x <= 1)%Q.
Proof.
  unfold validatePercentage. intros H.
  apply bind_Some in H as (pct & Hpct & [= <-]).
  apply validateNumber_range in Hpct as (Hlo & Hhi & _).
  unfold Qdiv. change (/ 100)%Q with (1 # 100)%Q. split; lra.
Qed.

(** An accepted amount of SOL is stored in whole lamports, between the
    lamports of its bounds: the rounding of the product does not cross
    them. *)
Lemma validateSolAmount_range (value : option Q) (d : Q) (x : Z) :
  validateSolAmount value (1 # 10000) 1 d = Some x →
  100000 <= x <= 1000000000.
Proof.
  unfold validateSolAmount.
  destruct (validateNumber value (1 # 10000) 1 d) as [amount|] eqn:Hamount;
    [|discriminate].
  intros H.
  assert (Hx : Qfloor (JS.mul amount 1000000000) = x)
    by (injection H as Hx; exact Hx).
  rewrite <- Hx. clear H Hx.
  apply validateNumber_range in Hamount as (Hlo & Hhi & _).
  unfold JS.mul. split.
  - apply le_inject_floor. apply double_ge_Z; [lia|lia|].
    change (inject_Z 100000) with 100000%Q. lra.
  - change 1000000000 with (Qfloor (inject_Z 1000000000)) at 2.
    apply Qfloor_resp_le. apply double_le_Z; [lra|lia|].
    change (inject_Z 1000000000) with 1000000000%Q. lra.
Qed.

(** SWAP_AMOUNT=0.0157: the parsed number is the double nearest to 0.0157,
    and its product by [1e9] is a double just below 15700000. *)
Lemma validateSolAmount_rounds_down :
  validateSolAmount (Some (JS.double (157 # 10000))) (1 # 10000) 1 (1 # 100)
  = Some 15699999.
Proof. vm_compute. reflexivity. Qed.

(** X1.  Every configuration that [validateAndLoadConfig] accepts has its
    options inside the ranges of the validators, whether they were set or
    defaulted: probabilities and percentages are fractions of [[0, 1]], the
    swap amount is between 100000 and 1000000000 lamports, the counts and
    delays are inside their bounds.  (The two ends of the cooldown range and
    of the partial-sell band are validated one by one, not against each
    other.) *)
Theorem validateAndLoadConfig_in_range :
  ∀ (env : ProcessEnv) (cfg : ConfigManager),
    validateAndLoadConfig env = Some cfg →
    ((0 <= buyProb cfg)%Q ∧ (buyProb cfg <= 1)%Q)
    ∧ ((1 <= numActionsPerCycle cfg)%Q ∧ (numActionsPerCycle cfg <= 10)%Q)
    ∧ (100000 <= swapAmount cfg <= 1000000000)
    ∧ ((100 <= baseDelayMs cfg)%Q ∧ (baseDelayMs cfg <= 60000)%Q)
    ∧ ((0 <= jitterPct cfg)%Q ∧ (jitterPct cfg <= 1)%Q)
    ∧ ((1 <= maxConsecutiveFailures cfg)%Q
       ∧ (maxConsecutiveFailures cfg <= 100)%Q)
    ∧ ((0 <= maxFailureRate cfg)%Q ∧ (maxFailureRate cfg <= 1)%Q)
    ∧ ((5 <= failureRateWindow cfg)%Q ∧ (failureRateWindow cfg <= 100)%Q)
    ∧ ((0 <= emergencyStopLoss cfg)%Q ∧ (emergencyStopLoss cfg <= 1)%Q)
    ∧ ((1 <= batchSize cfg)%Q ∧ (batchSize cfg <= 1000)%Q)
    ∧ ((0 <= partialSellMin cfg)%Q ∧ (partialSellMin cfg <= 1)%Q)
    ∧ ((0 <= partialSellMax cfg)%Q ∧ (partialSellMax cfg <= 1)%Q)
    ∧ ((60000 <= minWalletCooldownMs cfg)%Q
       ∧ (minWalletCooldownMs cfg <= 3600000)%Q)
    ∧ ((60000 <= maxWalletCooldownMs cfg)%Q
       ∧ (maxWalletCooldownMs cfg <= 3600000)%Q)
    ∧ ((1 <= rebalanceInterval cfg)%Q ∧ (rebalanceInterval cfg <= 1000)%Q)
    ∧ ((1 <= sessionPauseMin cfg)%Q ∧ (sessionPauseMin cfg <= 100)%Q)
    ∧ ((1 <= twapParts cfg)%Q ∧ (twapParts cfg <= 20)%Q)
    ∧ ((1000 <= twapMaxDelay cfg)%Q ∧ (twapMaxDelay cfg <= 60000)%Q)
    ∧ ((0 <= volThreshold cfg)%Q ∧ (volThreshold cfg <= 1)%Q)
    ∧ ((1 <= rampCycles cfg)%Q ∧ (rampCycles cfg <= 1000)%Q).
Proof.
  intros env cfg H. unfold validateAndLoadConfig in H.
  repeat match type of H with
         | (_ ≫= _) = Some _ =>
             let x := fresh "x" in
             let Hx := fresh "Hx" in
             apply bind_Some in H as (x & Hx & H)
         end.
  injection H as <-. cbn.
  repeat match goal with
         | Hx : validateProbability _ _ = Some _ |- _ =>
             unfold validateProbability in Hx
         | Hx : validateNumber _ _ _ _ = Some _ |- _ =>
             apply validateNumber_range in Hx as (? & ? & _)
         | Hx : validatePercentage _ _ = Some _ |- _ =>
             apply validatePercentage_range in Hx as (? & ?)
         | Hx : validateSolAmount _ _ _ _ = Some _ |- _ =>
             apply validateSolAmount_range in Hx
         end.
  repeat split; try assumption;
    match goal with
    | Hsol : _ ≤ _ ≤ _ |- _ => apply Hsol
    end.
Qed.

(** X1 with no option set. *)
Lemma validateAndLoadConfig_in_range_witness :
  (5 <= failureRateWindow defaultConfig)%Q
  ∧ (maxFailureRate defaultConfig <= 1)%Q
  ∧ 100000 <= swapAmount defaultConfig <= 1000000000.
Proof.
  pose proof (validateAndLoadConfig_in_range emptyProcessEnv defaultConfig
                ltac:(vm_compute; reflexivity)) as H.
  repeat split; apply H.
Defined.

(** ** CircuitBreaker: checks after recorded outcomes *)

(** X2 at the default configuration, for a full window with one failure:
    the check trips on the failure rate, 10 against the stored 0.5. *)
Lemma checkCircuitBreakers_tripped_iff_witness :
  let E := calmEnv (1 # 2) 0 0 1000 in
  let w := World_of (recordAll defaultConfig (false :: replicate 9 true))
             (WalletManager_constructor None) VolumeBoosterBot_constructor in
  ∃ result,
    fst (checkCircuitBreakers E defaultConfig None w) = Return result
    ∧ tripped result = true
    ∧ (failureRateWindow defaultConfig <= 10)%Q
    ∧ (maxFailureRate defaultConfig < 1 / 10 * 100)%Q.
Proof.
  intros E w.
  destruct (checkCircuitBreakers E defaultConfig None w) as [out w'] eqn:Hrun.
  assert (Hout : out = Return {| tripped := true;
                                 reason := FailureRate (1 / 10 * 100) |}).
  { vm_compute in Hrun. injection Hrun as <- _. reflexivity. }
  subst out. eexists. split; [reflexivity|].
  pose proof (proj1 (checkCircuitBreakers_tripped_iff E defaultConfig None
                       w w' _ eq_refl Hrun) eq_refl) as Hwhy.
  split; [reflexivity|].
  destruct Hwhy as [Hc|[Hrate|(kp & _ & Hkp & _)]].
  - exfalso. vm_compute in Hc. apply Hc. reflexivity.
  - exact Hrate.
  - discriminate Hkp.
Defined.

(** X3.  With the breaker enabled, once the recorded outcomes end with a
    run of failures that reaches [maxConsecutiveFailures], the next check
    trips, with that run as its reason, before any other test and without
    changing anything (so every later check trips as well, until a success
    is recorded). *)
Theorem checkCircuitBreakers_after_failures :
  ∀ (E : Env) (cfg : ConfigManager) (sink : option Keypair) (w : World)
    (outcomes : list bool),
    enableCircuitBreaker cfg = true →
    circuitBreaker w = recordAll cfg outcomes →
    (maxConsecutiveFailures cfg
     <= inject_Z (Z.of_nat (leadingFailures (rev outcomes))))%Q →
    checkCircuitBreakers E cfg sink w
    = (Return {| tripped := true;
                 reason := ConsecutiveFailures
                             (Z.of_nat (leadingFailures (rev outcomes))) |},
       w).
Proof.
  intros E cfg sink w outcomes Hen Hcb Hmax.
  rewrite <- (recordAll_failures cfg Hen outcomes), <- Hcb in *.
  apply checkCircuitBreakers_consecutive; assumption.
Qed.

(** X3 at the default configuration: a success, then ten failures. *)
Lemma checkCircuitBreakers_after_failures_witness :
  let outcomes := true :: replicate 10 false in
  let w := World_of (recordAll defaultConfig outcomes)
             (WalletManager_constructor None) VolumeBoosterBot_constructor in
  (maxConsecutiveFailures defaultConfig
   <= inject_Z (Z.of_nat (leadingFailures (rev outcomes))))%Q
  ∧ checkCircuitBreakers (calmEnv (1 # 2) 0 0 1000) defaultConfig None w
    = (Return {| tripped := true;
                 reason := ConsecutiveFailures
                             (Z.of_nat (leadingFailures (rev outcomes))) |},
       w).
Proof.
  intros outcomes w.
  assert (Hmax : (maxConsecutiveFailures defaultConfig
                  <= inject_Z (Z.of_nat (leadingFailures (rev outcomes))))%Q)
    by (vm_compute; discriminate).
  split; [exact Hmax|].
  apply (checkCircuitBreakers_after_failures
           (calmEnv (1 # 2) 0 0 1000) defaultConfig None w outcomes).
  - reflexivity.
  - reflexivity.
  - exact Hmax.
Defined.


(** ** WalletManager: shuffling, cooldowns and selection *)

Lemma insert_Permutation {A} (l : list A) (i : nat) (x y : A) :
  l !! i = Some x → x :: <[i := y]> l ≡ₚ y :: l.
Proof.
  intros Hi.
  rewrite insert_take_drop by (eapply lookup_lt_Some; eauto).
  transitivity (y :: (take i l ++ x :: drop (S i) l));
    [|rewrite (take_drop_middle l i x Hi); reflexivity].
  transitivity (x :: y :: take i l ++ drop (S i) l).
  { constructor. symmetry. apply Permutation_middle. }
  transitivity (y :: x :: take i l ++ drop (S i) l); [apply perm_swap|].
  constructor. apply Permutation_middle.
Qed.

Lemma swap_Permutation {A} (l : list A) (i j : nat) : swap l i j ≡ₚ l.
Proof.
  unfold swap.
  destruct (l !! i) as [x|] eqn:Hi; [|reflexivity].
  destruct (l !! j) as [y|] eqn:Hj; [|reflexivity].
  destruct (decide (i = j)) as [->|Hne].
  - assert (x = y) as -> by congruence.
    rewrite (list_insert_id l j y Hj), (list_insert_id l j y Hj). reflexivity.
  - assert (Hj' : <[i := y]> l !! j = Some y)
      by (rewrite list_lookup_insert_ne by exact Hne; exact Hj).
    apply (Permutation_cons_inv (a := y)).
    rewrite (insert_Permutation _ j y x Hj').
    apply (insert_Permutation l i x y Hi).
Qed.

Lemma shuffleArray_loop_Permutation {A} (E : Env) (i : nat) (l : list A)
  (w : World) :
  ∃ l', shuffleArray_loop E i l w = (Return l', tickn i w) ∧ l' ≡ₚ l.
Proof.
  revert l w. induction i as [|i IH]; intros l w.
  - exists l. split; [destruct w; reflexivity|reflexivity].
  - cbn [shuffleArray_loop]. unfold bind at 1, Math_random_call.
    unfold bind at 1, tick, ret.
    match goal with
    | |- context [shuffleArray_loop E i ?l1 ?w1] =>
        destruct (IH l1 w1) as (l' & Hrun & Hperm)
    end.
    exists l'. split.
    + rewrite Hrun. f_equal. unfold tickn. simpl. f_equal. lia.
    + rewrite Hperm. apply swap_Permutation.
Qed.

(** X4.  [shuffleArray] returns a permutation of its argument, after one
    draw per element but the first (none for an empty array), and changes
    nothing else. *)
Theorem shuffleArray_Permutation :
  ∀ {A} (E : Env) (array : list A) (w : World),
    random_ok E →
    ∃ shuffled,
      shuffleArray E array w = (Return shuffled, tickn (length array - 1) w)
      ∧ shuffled ≡ₚ array.
Proof.
  intros A E array w _. unfold shuffleArray.
  apply shuffleArray_loop_Permutation.
Qed.

(** X4 on three elements, every draw being 1/2. *)
Lemma shuffleArray_Permutation_witness :
  ∃ shuffled,
    fst (shuffleArray (calmEnv (1 # 2) 0 0 1000) [1; 2; 3] oneWalletWorld)
    = Return shuffled
    ∧ shuffled ≡ₚ [1; 2; 3].
Proof.
  destruct (shuffleArray_Permutation (calmEnv (1 # 2) 0 0 1000) [1; 2; 3]
              oneWalletWorld (calmEnv_random_ok 0 0 1000))
    as (shuffled & Hrun & Hperm).
  exists shuffled. rewrite Hrun. split; [reflexivity|exact Hperm].
Defined.

(** X5.  [cleanupOldCooldowns(now)] draws one number and keeps exactly the
    cooldown entries that are at most MAX_COOLDOWN_AGE_MS old; the trade
    counts stay as they are unless the draw is below 0.01, in which case
    the counts above 1000 become 1000; the wallets, the batch, the
    personalities and the rest of the heap are untouched. *)
Theorem cleanupOldCooldowns_spec :
  ∀ (E : Env) (now : Z) (w : World),
    let r := Math_random E (clock w) in
    let wm := walletManager w in
    ∃ wm' : WalletManager,
      cleanupOldCooldowns E now w
      = (Return tt,
         {| clock := S (clock w); trace := trace w;
            circuitBreaker := circuitBreaker w;
            tradingEngine := tradingEngine w;
            walletManager := wm'; bot := bot w |})
      ∧ (∀ key ts,
           walletCooldowns wm' !! key = Some ts
           ↔ walletCooldowns wm !! key = Some ts
             ∧ now - ts <= MAX_COOLDOWN_AGE_MS)
      ∧ (∀ key,
           walletTradeCount wm' !! key
           = (λ count, if JS.ltb r (1 # 100) && (1000 <? count)
                       then 1000 else count)
               <$> walletTradeCount wm !! key)
      ∧ walletData wm' = walletData wm
      ∧ activeWallets wm' = activeWallets wm
      ∧ walletPersonalities wm' = walletPersonalities wm
      ∧ sinkKeypair wm' = sinkKeypair wm.
Proof.
  intros E now w r wm. eexists. split; [|split; [|split]].
  - unfold cleanupOldCooldowns, Math_random_call, bind, get_wallets, tick,
      put_wallets, ret. reflexivity.
  - intros key ts. cbn [walletCooldowns set_cooldowns_counts].
    rewrite map_lookup_filter_Some. simpl. fold wm.
    split; intros [H1 H2]; (split; [exact H1|lia]).
  - intros key. cbn [walletTradeCount set_cooldowns_counts]. fold r wm.
    destruct (JS.ltb r (1 # 100)); cbn [andb].
    + rewrite lookup_fmap. reflexivity.
    + destruct (walletTradeCount wm !! key); reflexivity.
  - repeat split; reflexivity.
Qed.

(** The heap of the wallet manager after the purge that opens a selection
    at time [now] with the draw [r]. *)
Lemma cleanupOldCooldowns_eq (E : Env) (now : Z) (w : World) :
  cleanupOldCooldowns E now w
  = (Return tt,
     {| clock := S (clock w); trace := trace w;
        circuitBreaker := circuitBreaker w;
        tradingEngine := tradingEngine w;
        walletManager :=
          set_cooldowns_counts (walletManager w)
            (filter (λ kv : string * Z, ¬ (MAX_COOLDOWN_AGE_MS < now - kv.2))
                    (walletCooldowns (walletManager w)))
            (if JS.ltb (Math_random E (clock w)) (1 # 100)
             then (λ count : Z, if 1000 <? count then 1000 else count)
                    <$> walletTradeCount (walletManager w)
             else walletTradeCount (walletManager w));
        bot := bot w |}).
Proof. reflexivity. Qed.

(** The filter of the selection keeps the order of the wallet file, keeps
    only wallets that passed the test with a draw of their own, and keeps
    every wallet that passes it whatever the draw. *)
Lemma filterM_isReady_sublist (E : Env) (cfg : ConfigManager) (now : Z)
  (l : list WalletData) (w : World) :
  ∃ ready : list WalletData,
    filterM (isReady E cfg now) l w = (Return ready, tickn (length l) w)
    ∧ ready `sublist_of` l
    ∧ (∀ wd, wd ∈ ready →
         ∃ k, cooledDown cfg (walletManager w) now wd (Math_random E k))
    ∧ (∀ wd, wd ∈ l →
         (∀ r, cooledDown cfg (walletManager w) now wd r) → wd ∈ ready).
Proof.
  revert w. induction l as [|x l IH]; intros w.
  - exists []. split; [destruct w; reflexivity|]. split; [constructor|].
    split; intros wd Hin; inversion Hin.
  - destruct (IH (tickn 1 w)) as (rest & Hrest & Hsub & Hsound & Hcomplete).
    cbn [walletManager tickn] in Hsound, Hcomplete.
    set (keep := JS.floor (baseCooldown cfg (Math_random E (clock w))
                   * cooldownMultiplier
                       (default 0 (walletTradeCount (walletManager w)
                                     !! pubkey x)))
                 <=? now - default 0 (walletCooldowns (walletManager w)
                                        !! pubkey x)).
    assert (Hrun : isReady E cfg now x w = (Return keep, tickn 1 w))
      by reflexivity.
    exists (if keep then x :: rest else rest). split; [|split; [|split]].
    + cbn [filterM]. eapply bind_run; [exact Hrun|].
      eapply bind_run; [exact Hrest|]. unfold ret.
      rewrite tickn_tickn. repeat f_equal. simpl. lia.
    + destruct keep; [apply sublist_skip|apply sublist_cons]; exact Hsub.
    + intros wd Hin. destruct keep eqn:Hkeep.
      * apply elem_of_cons in Hin as [->|Hin]; [|apply Hsound, Hin].
        exists (clock w). apply Z.leb_le in Hkeep. exact Hkeep.
      * apply Hsound, Hin.
    + intros wd Hin Hall. apply elem_of_cons in Hin as [->|Hin].
      * assert (Hkeep : keep = true).
        { apply Z.leb_le. exact (Hall (Math_random E (clock w))). }
        rewrite Hkeep. left.
      * specialize (Hcomplete wd Hin Hall).
        destruct keep; [right|]; exact Hcomplete.
Qed.

(** One selection, step by step: the purge, the filter (in the order of
    the wallet file), the shuffle (a permutation, or nothing without
    SHUFFLE_WALLETS), the slice; and the heap it leaves, where only the
    wallet manager's maps and batch can differ. *)
Lemma loadActiveBatch_steps (E : Env) (cfg : ConfigManager) (w : World) :
  let now := Date_now E (clock w) in
  let wm1 := purged E w in
  ∃ (ready shuffled : list WalletData) (w' : World),
    let batch :=
      if (length ready =? 0)%nat then []
      else toActiveWallet E <$> JS.slice0 shuffled (batchSize cfg) in
    loadActiveBatch E cfg w = (Return batch, w')
    ∧ ready `sublist_of` walletData (walletManager w)
    ∧ shuffled ≡ₚ ready
    ∧ (shuffleWallets cfg = false → shuffled = ready)
    ∧ (∀ wd, wd ∈ ready →
         ∃ k, cooledDown cfg wm1 now wd (Math_random E k))
    ∧ fst (filterM (isReady E cfg now) (walletData (walletManager w))
             (cleanupOldCooldowns E now (tickn 1 w)).2)
      = Return ready
    ∧ walletManager w'
      = set_activeWallets wm1
          (if (length ready =? 0)%nat then activeWallets (walletManager w)
           else batch)
    ∧ trace w' = trace w
    ∧ circuitBreaker w' = circuitBreaker w
    ∧ tradingEngine w' = tradingEngine w
    ∧ bot w' = bot w.
Proof.
  intros now wm1.
  pose proof (cleanupOldCooldowns_eq E now (tickn 1 w)) as Hclean.
  assert (Hwm1 : wm1 = walletManager
                         (cleanupOldCooldowns E now (tickn 1 w)).2)
    by reflexivity.
  rewrite Hclean in Hwm1. cbn [snd walletManager] in Hwm1.
  rewrite <- Hwm1 in Hclean.
  assert (Hdata : walletData wm1 = walletData (walletManager w))
    by (rewrite Hwm1; reflexivity).
  assert (Hact : activeWallets wm1 = activeWallets (walletManager w))
    by (rewrite Hwm1; reflexivity).
  clearbody wm1.
  cbn [tickn clock trace circuitBreaker tradingEngine bot] in Hclean.
  set (w2 := {| clock := S (1 + clock w); trace := trace w;
                circuitBreaker := circuitBreaker w;
                tradingEngine := tradingEngine w;
                walletManager := wm1; bot := bot w |}) in *.
  destruct (filterM_isReady_sublist E cfg now (walletData wm1) w2)
    as (ready & Hfilter & Hsub & Hsound & _).
  cbn [walletManager w2] in Hsound.
  set (w3 := tickn (length (walletData wm1)) w2) in *.
  assert (Hshuffle : ∃ shuffled n,
    (if shuffleWallets cfg then shuffleArray E ready else ret ready) w3
    = (Return shuffled, tickn n w3)
    ∧ shuffled ≡ₚ ready
    ∧ (shuffleWallets cfg = false → shuffled = ready)).
  { destruct (shuffleWallets cfg).
    - unfold shuffleArray.
      destruct (shuffleArray_loop_Permutation E (length ready - 1) ready w3)
        as (l' & Hrun & Hperm).
      exists l', (length ready - 1)%nat.
      split; [exact Hrun|]. split; [exact Hperm|discriminate].
    - exists ready, 0%nat. split; [destruct w3; reflexivity|].
      split; [reflexivity|auto]. }
  destruct Hshuffle as (shuffled & n & Hrun & Hperm & Hsame).
  exists ready, shuffled.
  destruct (length ready =? 0)%nat eqn:Hempty.
  - exists w3. cbn zeta.
    split; [|split; [|split; [|split; [|split; [|split]]]]].
    + unfold loadActiveBatch.
      eapply bind_run; [reflexivity|]. fold now.
      eapply bind_run; [exact Hclean|].
      eapply bind_run; [reflexivity|]. cbn [walletManager].
      eapply bind_run; [exact Hfilter|].
      rewrite Hempty. reflexivity.
    + rewrite <- Hdata. exact Hsub.
    + exact Hperm.
    + exact Hsame.
    + exact Hsound.
    + rewrite <- Hdata, Hclean. cbn [snd]. rewrite Hfilter. reflexivity.
    + cbn [walletManager w3 w2 tickn]. rewrite <- Hact.
      split; [destruct wm1; reflexivity|]. repeat split; reflexivity.
  - eexists. cbn zeta.
    split; [|split; [|split; [|split; [|split; [|split]]]]].
    + unfold loadActiveBatch.
      eapply bind_run; [reflexivity|]. fold now.
      eapply bind_run; [exact Hclean|].
      eapply bind_run; [reflexivity|]. cbn [walletManager].
      eapply bind_run; [exact Hfilter|].
      rewrite Hempty.
      eapply bind_run; [exact Hrun|].
      eapply bind_run; [reflexivity|].
      eapply bind_run; [reflexivity|].
      reflexivity.
    + rewrite <- Hdata. exact Hsub.
    + exact Hperm.
    + exact Hsame.
    + exact Hsound.
    + rewrite <- Hdata, Hclean. cbn [snd]. rewrite Hfilter. reflexivity.
    + cbn [walletManager w3 w2 tickn trace circuitBreaker tradingEngine bot].
      repeat split; reflexivity.
Qed.

(** ** Cooldown bounds *)

Lemma cooldownMultiplier_bounds (tradeCount : Z) :
  0 <= tradeCount →
  (1 <= cooldownMultiplier tradeCount)%Q
  ∧ (cooldownMultiplier tradeCount <= 18 # 10)%Q.
Proof.
  intros Hcount. unfold cooldownMultiplier.
  assert (Hrem : 0 <= Z.rem tradeCount 5 <= 4).
  { pose proof (Z.rem_bound_pos tradeCount 5 Hcount). lia. }
  destruct Hrem as [H0 H4].
  rewrite Zle_Qle in H0, H4.
  set (m := inject_Z (Z.rem tradeCount 5)) in *.
  change (inject_Z 0) with 0%Q in H0. change (inject_Z 4) with 4%Q in H4.
  split; lra.
Qed.

Lemma baseCooldown_bounds (cfg : ConfigManager) (lo hi r : Q) :
  (lo <= minWalletCooldownMs cfg)%Q → (minWalletCooldownMs cfg <= hi)%Q →
  (lo <= maxWalletCooldownMs cfg)%Q → (maxWalletCooldownMs cfg <= hi)%Q →
  (0 <= r)%Q → (r < 1)%Q →
  (lo <= baseCooldown cfg r)%Q ∧ (baseCooldown cfg r <= hi)%Q.
Proof.
  intros Hlo1 Hhi1 Hlo2 Hhi2 Hr0 Hr1. unfold baseCooldown.
  set (a := minWalletCooldownMs cfg) in *.
  set (b := maxWalletCooldownMs cfg) in *.
  split; nra.
Qed.

Lemma cooldown_bounds (cfg : ConfigManager) (lo hi r : Q) (tradeCount : Z) :
  (0 <= lo)%Q →
  (lo <= minWalletCooldownMs cfg)%Q → (minWalletCooldownMs cfg <= hi)%Q →
  (lo <= maxWalletCooldownMs cfg)%Q → (maxWalletCooldownMs cfg <= hi)%Q →
  (0 <= r)%Q → (r < 1)%Q →
  0 <= tradeCount →
  JS.floor lo
  <= JS.floor (baseCooldown cfg r * cooldownMultiplier tradeCount)
  <= JS.floor (hi * (18 # 10)).
Proof.
  intros Hlo Hlo1 Hhi1 Hlo2 Hhi2 Hr0 Hr1 Hcount.
  destruct (cooldownMultiplier_bounds tradeCount Hcount) as [Hm1 Hm2].
  destruct (baseCooldown_bounds cfg lo hi r Hlo1 Hhi1 Hlo2 Hhi2 Hr0 Hr1)
    as [Hb1 Hb2].
  set (base := baseCooldown cfg r) in *.
  set (mult := cooldownMultiplier tradeCount) in *.
  unfold JS.floor. split; apply Qfloor_resp_le; nra.
Qed.



(** ** Selection: minimum cooldown, duplicates, first selection *)

Lemma purged_eq (E : Env) (w : World) :
  purged E w
  = set_cooldowns_counts (walletManager w)
      (filter (λ kv : string * Z,
                 ¬ (MAX_COOLDOWN_AGE_MS < Date_now E (clock w) - kv.2))
              (walletCooldowns (walletManager w)))
      (if JS.ltb (Math_random E (S (clock w))) (1 # 100)
       then (λ count : Z, if 1000 <? count then 1000 else count)
              <$> walletTradeCount (walletManager w)
       else walletTradeCount (walletManager w)).
Proof. reflexivity. Qed.

(** The purge keeps trade counts non-negative. *)
Lemma purged_counts_nonneg (E : Env) (w : World) (key : string) :
  (∀ key count,
     walletTradeCount (walletManager w) !! key = Some count → 0 <= count) →
  0 <= default 0 (walletTradeCount (purged E w) !! key).
Proof.
  intros Hcounts. rewrite purged_eq. cbn [walletTradeCount set_cooldowns_counts].
  destruct (JS.ltb _ _).
  - rewrite lookup_fmap.
    destruct (walletTradeCount (walletManager w) !! key) as [count|] eqn:Hc;
      cbn; [|lia].
    specialize (Hcounts key count Hc). destruct (1000 <? count); lia.
  - destruct (walletTradeCount (walletManager w) !! key) as [count|] eqn:Hc;
      cbn; [|lia].
    exact (Hcounts key count Hc).
Qed.

Lemma cooldown_lower (cfg : ConfigManager) (lo r : Q) (tradeCount : Z) :
  (0 <= lo)%Q →
  (lo <= minWalletCooldownMs cfg)%Q → (lo <= maxWalletCooldownMs cfg)%Q →
  (0 <= r)%Q → (r < 1)%Q →
  0 <= tradeCount →
  JS.floor lo
  <= JS.floor (baseCooldown cfg r * cooldownMultiplier tradeCount).
Proof.
  intros Hlo Hlo1 Hlo2 Hr0 Hr1 Hcount.
  destruct (cooldownMultiplier_bounds tradeCount Hcount) as [Hm1 _].
  assert (Hb : (lo <= baseCooldown cfg r)%Q).
  { unfold baseCooldown.
    set (a := minWalletCooldownMs cfg) in *.
    set (b := maxWalletCooldownMs cfg) in *. nra. }
  set (base := baseCooldown cfg r) in *.
  set (mult := cooldownMultiplier tradeCount) in *.
  unfold JS.floor. apply Qfloor_resp_le. nra.
Qed.

(** A wallet of the batch had, before the selection, no timestamp younger
    than the smallest cooldown. *)
Lemma loadActiveBatch_elapsed :
  ∀ (E : Env) (cfg : ConfigManager) (lo : Q) (w : World),
    random_ok E →
    (0 <= lo)%Q →
    (lo <= minWalletCooldownMs cfg)%Q → (lo <= maxWalletCooldownMs cfg)%Q →
    (lo <= inject_Z MAX_COOLDOWN_AGE_MS)%Q →
    (∀ key count,
       walletTradeCount (walletManager w) !! key = Some count → 0 <= count) →
    ∃ (batch : list Wallet) (w' : World),
      loadActiveBatch E cfg w = (Return batch, w')
      ∧ ∀ wallet ts,
          wallet ∈ batch →
          walletCooldowns (walletManager w) !! wallet_pubkey wallet = Some ts →
          JS.floor lo <= Date_now E (clock w) - ts.
Proof.
  intros E cfg lo w Hrandom Hlo Hlo1 Hlo2 Hage Hcounts.
  destruct (loadActiveBatch_steps E cfg w)
    as (ready & shuffled & w' & Hrun & _ & Hperm & _ & Hsound & _).
  cbv zeta in Hrun. eexists _, w'. split; [exact Hrun|].
  intros wallet ts Hin Hts.
  destruct (length ready =? 0)%nat; [inversion Hin|].
  apply list_elem_of_fmap in Hin as (wd & -> & Hin).
  apply slice0_elem_of in Hin. rewrite Hperm in Hin.
  destruct (Hsound wd Hin) as (k & Hcool).
  cbn [wallet_pubkey toActiveWallet] in Hts.
  destruct (Hrandom k) as [Hr0 Hr1].
  pose proof (purged_counts_nonneg E w (pubkey wd) Hcounts) as Hcount.
  pose proof (cooldown_lower cfg lo (Math_random E k) _ Hlo Hlo1 Hlo2
                Hr0 Hr1 Hcount) as Hlower.
  unfold cooledDown in Hcool. unfold baseCooldown, cooldownMultiplier in Hlower.
  destruct (Z_lt_le_dec MAX_COOLDOWN_AGE_MS (Date_now E (clock w) - ts))
    as [Hold|Hfresh].
  - assert (Hfloor : JS.floor lo <= MAX_COOLDOWN_AGE_MS).
    { unfold JS.floor. rewrite <- (Qfloor_Z MAX_COOLDOWN_AGE_MS).
      apply Qfloor_resp_le, Hage. }
    lia.
  - assert (Hkept : walletCooldowns (purged E w) !! pubkey wd = Some ts).
    { rewrite purged_eq. cbn [walletCooldowns set_cooldowns_counts].
      apply map_lookup_filter_Some. split; [exact Hts|]. simpl. lia. }
    rewrite Hkept in Hcool. cbn [default from_option id] in Hcool. lia.
Qed.

(** X7.  The selection never returns a wallet before the minimum cooldown
    has elapsed since its recorded last trade: with draws in [[0, 1)],
    non-negative trade counts and [lo] below both configured cooldown
    bounds (and below the retention horizon of the cooldown map), a wallet
    whose public key has a timestamp less than [floor(lo)] before the
    selection time is not in the batch. *)
Theorem loadActiveBatch_min_cooldown :
  ∀ (E : Env) (cfg : ConfigManager) (lo : Q) (w : World) (wallet : Wallet)
    (ts : Z),
    random_ok E →
    (0 <= lo)%Q →
    (lo <= minWalletCooldownMs cfg)%Q → (lo <= maxWalletCooldownMs cfg)%Q →
    (lo <= inject_Z MAX_COOLDOWN_AGE_MS)%Q →
    (∀ key count,
       walletTradeCount (walletManager w) !! key = Some count → 0 <= count) →
    walletCooldowns (walletManager w) !! wallet_pubkey wallet = Some ts →
    Date_now E (clock w) - ts < JS.floor lo →
    ∃ (batch : list Wallet) (w' : World),
      loadActiveBatch E cfg w = (Return batch, w') ∧ wallet ∉ batch.
Proof.
  intros E cfg lo w wallet ts Hrandom Hlo Hlo1 Hlo2 Hage Hcounts Hts Hyoung.
  destruct (loadActiveBatch_elapsed E cfg lo w Hrandom Hlo Hlo1 Hlo2 Hage
              Hcounts) as (batch & w' & Hrun & Helapsed).
  exists batch, w'. split; [exact Hrun|].
  intros Hin. specialize (Helapsed wallet ts Hin Hts). lia.
Qed.

(** X7 at the default configuration: Wallet1 traded one second before the
    selection. *)
Lemma loadActiveBatch_min_cooldown_witness :
  ∃ (batch : list Wallet) (w' : World),
    loadActiveBatch (calmEnv (1 # 2) 50000000000 2000000 1000) defaultConfig
      tradedWalletWorld
    = (Return batch, w')
    ∧ wallet1 ∉ batch.
Proof.
  apply (loadActiveBatch_min_cooldown
           (calmEnv (1 # 2) 50000000000 2000000 1000) defaultConfig
           300000%Q tradedWalletWorld wallet1 1699999999000
           (calmEnv_random_ok 50000000000 2000000 1000)).
  - vm_compute; discriminate.
  - vm_compute; discriminate.
  - vm_compute; discriminate.
  - vm_compute; discriminate.
  - intros key count Hcount. cbn in Hcount.
    apply lookup_singleton_Some in Hcount as [_ <-]. lia.
  - reflexivity.
  - reflexivity.
Defined.

(** X8.  If the wallet file has no two entries with the same public key,
    the batch has no two wallets with the same public key: a wallet is
    never scheduled twice in one cycle. *)
Theorem loadActiveBatch_NoDup :
  ∀ (E : Env) (cfg : ConfigManager) (w : World),
    NoDup (pubkey <$> walletData (walletManager w)) →
    ∃ (batch : list Wallet) (w' : World),
      loadActiveBatch E cfg w = (Return batch, w')
      ∧ NoDup (wallet_pubkey <$> batch).
Proof.
  intros E cfg w Hnodup.
  destruct (loadActiveBatch_steps E cfg w)
    as (ready & shuffled & w' & Hrun & Hsub & Hperm & _).
  cbv zeta in Hrun. eexists _, w'. split; [exact Hrun|].
  destruct (length ready =? 0)%nat; [constructor|].
  rewrite <- list_fmap_compose.
  change (wallet_pubkey ∘ toActiveWallet E) with pubkey.
  assert (Hshuffled : NoDup (pubkey <$> shuffled)).
  { rewrite Hperm. eapply sublist_NoDup; [exact Hnodup|].
    apply fmap_sublist, Hsub. }
  eapply sublist_NoDup; [exact Hshuffled|].
  apply fmap_sublist. unfold JS.slice0.
  destruct (JS.trunc (batchSize cfg) <? 0); apply sublist_take.
Qed.

(** X8 on the heap with two stored wallets that never traded: both are
    selected, each once. *)
Lemma loadActiveBatch_NoDup_witness :
  ∃ (batch : list Wallet) (w' : World),
    loadActiveBatch (calmEnv (1 # 2) 50000000000 2000000 1000) defaultConfig
      twoWalletWorld
    = (Return batch, w')
    ∧ NoDup (wallet_pubkey <$> batch)
    ∧ wallet_pubkey <$> batch = ["Wallet1"; "Wallet2"].
Proof.
  destruct (loadActiveBatch_NoDup
              (calmEnv (1 # 2) 50000000000 2000000 1000) defaultConfig
              twoWalletWorld) as (batch & w' & Hrun & Hnodup).
  { cbn. apply NoDup_cons. split; [|apply NoDup_singleton].
    rewrite list_elem_of_singleton. discriminate. }
  exists batch, w'. split; [exact Hrun|]. split; [exact Hnodup|].
  pose proof (f_equal fst Hrun) as Hfst. cbn [fst] in Hfst.
  vm_compute in Hfst. injection Hfst as <-. reflexivity.
Defined.

Lemma cooldown_upper (cfg : ConfigManager) (hi r : Q) (tradeCount : Z) :
  (0 <= hi)%Q →
  (minWalletCooldownMs cfg <= hi)%Q → (maxWalletCooldownMs cfg <= hi)%Q →
  (0 <= r)%Q → (r < 1)%Q →
  0 <= tradeCount →
  JS.floor (baseCooldown cfg r * cooldownMultiplier tradeCount)
  <= JS.floor (hi * (18 # 10)).
Proof.
  intros Hhi Hhi1 Hhi2 Hr0 Hr1 Hcount.
  destruct (cooldownMultiplier_bounds tradeCount Hcount) as [Hm1 Hm2].
  assert (Hb : (baseCooldown cfg r <= hi)%Q).
  { unfold baseCooldown.
    set (a := minWalletCooldownMs cfg) in *.
    set (b := maxWalletCooldownMs cfg) in *. nra. }
  set (base := baseCooldown cfg r) in *.
  set (mult := cooldownMultiplier tradeCount) in *.
  unfold JS.floor. apply Qfloor_resp_le. nra.
Qed.

(** The filter keeps the whole list when every wallet passes the test for
    every draw of [[0, 1)]. *)
Lemma filterM_isReady_all (E : Env) (cfg : ConfigManager) (now : Z)
  (l : list WalletData) (w : World) :
  random_ok E →
  (∀ wd r, wd ∈ l → (0 <= r)%Q → (r < 1)%Q →
           cooledDown cfg (walletManager w) now wd r) →
  filterM (isReady E cfg now) l w = (Return l, tickn (length l) w).
Proof.
  intros Hrandom. revert w. induction l as [|x l IH]; intros w Hall.
  - destruct w; reflexivity.
  - cbn [filterM].
    assert (Hx : isReady E cfg now x w = (Return true, tickn 1 w)).
    { unfold isReady, getWalletCooldown, Math_random_call, bind, get_wallets,
        tick, ret. do 2 f_equal. apply Z.leb_le.
      destruct (Hrandom (clock w)) as [Hr0 Hr1].
      apply (Hall x _ ltac:(left) Hr0 Hr1). }
    eapply bind_run; [exact Hx|].
    eapply bind_run.
    { apply IH. intros wd r Hin. apply Hall. right. exact Hin. }
    unfold ret. rewrite tickn_tickn. repeat f_equal. simpl. lia.
Qed.



(** X10.  A wallet that was just marked used is not selected again too
    early.  After [markWalletUsed(wallet)] at time [t], and any number of
    interactions that leave the maps alone, a selection at a time [now]
    with [now - t < floor(lo)] returns no wallet with that public key
    (draws in [[0, 1)], non-negative trade counts, [lo] below both cooldown
    bounds and the retention horizon). *)
Theorem markWalletUsed_then_loadActiveBatch :
  ∀ (E : Env) (cfg : ConfigManager) (lo : Q) (wallet : Wallet) (n : nat)
    (w : World),
    let w1 := tickn n (markWalletUsed E wallet w).2 in
    random_ok E →
    (0 <= lo)%Q →
    (lo <= minWalletCooldownMs cfg)%Q → (lo <= maxWalletCooldownMs cfg)%Q →
    (lo <= inject_Z MAX_COOLDOWN_AGE_MS)%Q →
    (∀ key count,
       walletTradeCount (walletManager w) !! key = Some count → 0 <= count) →
    Date_now E (clock w1) - Date_now E (clock w) < JS.floor lo →
    ∃ (batch : list Wallet) (w' : World),
      loadActiveBatch E cfg w1 = (Return batch, w')
      ∧ ∀ other, other ∈ batch →
                 wallet_pubkey other ≠ publicKey (keypair wallet).
Proof.
  intros E cfg lo wallet n w w1 Hrandom Hlo Hlo1 Hlo2 Hage Hcounts Hyoung.
  set (key := publicKey (keypair wallet)).
  assert (Hmaps :
    walletCooldowns (walletManager w1)
    = <[key := Date_now E (clock w)]> (walletCooldowns (walletManager w))
    ∧ walletTradeCount (walletManager w1)
      = <[key := default 0 (walletTradeCount (walletManager w) !! key) + 1]>
          (walletTradeCount (walletManager w))) by (split; reflexivity).
  destruct Hmaps as [Hcool Hcount].
  destruct (loadActiveBatch_elapsed E cfg lo w1 Hrandom Hlo Hlo1 Hlo2 Hage)
    as (batch & w' & Hrun & Helapsed).
  { intros key' count. rewrite Hcount.
    intros [[_ <-]|[_ Hold]]%lookup_insert_Some.
    - destruct (walletTradeCount (walletManager w) !! key) as [c|] eqn:Hc;
        cbn [default from_option id]; [|lia].
      specialize (Hcounts key c Hc). lia.
    - exact (Hcounts key' count Hold). }
  exists batch, w'. split; [exact Hrun|].
  intros other Hin Hkey.
  specialize (Helapsed other (Date_now E (clock w)) Hin).
  rewrite Hcool, Hkey in Helapsed. fold key in Helapsed.
  rewrite lookup_insert_eq in Helapsed. specialize (Helapsed eq_refl). lia.
Qed.

(** X10 at the default configuration: Wallet1 is marked, and the
    selection comes two interactions (two seconds) later. *)
Lemma markWalletUsed_then_loadActiveBatch_witness :
  let E := calmEnv (1 # 2) 50000000000 2000000 1000 in
  ∃ (batch : list Wallet) (w' : World),
    loadActiveBatch E defaultConfig
      (tickn 1 (markWalletUsed E wallet1 oneWalletWorld).2)
    = (Return batch, w')
    ∧ ∀ other, other ∈ batch → wallet_pubkey other ≠ "Wallet1".
Proof.
  intros E.
  apply (markWalletUsed_then_loadActiveBatch E defaultConfig 300000%Q
           wallet1 1 oneWalletWorld
           (calmEnv_random_ok 50000000000 2000000 1000)).
  - vm_compute; discriminate.
  - vm_compute; discriminate.
  - vm_compute; discriminate.
  - vm_compute; discriminate.
  - intros key count Hcount. cbn in Hcount.
    rewrite lookup_empty in Hcount. discriminate.
  - reflexivity.
Defined.

(** ** TradingEngine: sentiment, sizing, actions *)

(** What [fetchSentiment] does, by cases. *)
Lemma fetchSentiment_run (E : Env) (w : World) :
  let te := tradingEngine w in
  fetchSentiment E w
  = if Date_now E (clock w) - lastSentimentFetch te
       <? SENTIMENT_FETCH_COOLDOWN_MS
    then (Return (sentimentScore te), tickn 1 w)
    else
      match axios_fearAndGreed E (S (clock w)) with
      | Return score =>
          (Return score,
           {| clock := 3 + clock w; trace := trace w;
              circuitBreaker := circuitBreaker w;
              tradingEngine :=
                {| sentimentScore := score;
                   lastSentimentFetch := Date_now E (S (S (clock w)));
                   cycleCount := cycleCount te;
                   isRunning := isRunning te |};
              walletManager := walletManager w; bot := bot w |})
      | Throw _ => (Return (sentimentScore te), tickn 2 w)
      end.
Proof.
  intros te. unfold fetchSentiment, Date_now_call.
  unfold bind at 1. unfold bind at 1, tick, ret. cbn beta iota.
  unfold bind at 1, get_engine. cbn beta iota.
  cbn [tradingEngine clock]. fold te.
  destruct (_ <? SENTIMENT_FETCH_COOLDOWN_MS); [reflexivity|].
  unfold bind, try_catch, tick, lift, modify_engine, get_engine, ret.
  cbn beta iota. cbn [clock].
  destruct (axios_fearAndGreed E (S (clock w))); reflexivity.
Qed.

(** X11.  [fetchSentiment] never throws and returns the score the engine
    holds afterwards.  Less than an hour after the last successful fetch it
    makes no request and leaves the engine as it is; a failed request
    leaves the engine as it is as well (so the next call asks again); a
    successful one stores the score and the time. *)
Theorem fetchSentiment_cache_and_failure :
  ∀ (E : Env) (w : World),
    let te := tradingEngine w in
    let fresh :=
      Date_now E (clock w) - lastSentimentFetch te
      <? SENTIMENT_FETCH_COOLDOWN_MS in
    ∃ w',
      fetchSentiment E w = (Return (sentimentScore (tradingEngine w')), w')
      ∧ trace w' = trace w
      ∧ circuitBreaker w' = circuitBreaker w
      ∧ walletManager w' = walletManager w
      ∧ (fresh = true → w' = tickn 1 w)
      ∧ (fresh = false →
         match axios_fearAndGreed E (S (clock w)) with
         | Return score =>
             sentimentScore (tradingEngine w') = score
             ∧ lastSentimentFetch (tradingEngine w')
               = Date_now E (S (S (clock w)))
         | Throw _ => w' = tickn 2 w
         end).
Proof.
  intros E w te fresh. rewrite fetchSentiment_run. fold te fresh.
  destruct fresh.
  - exists (tickn 1 w). split; [reflexivity|].
    repeat split; try reflexivity. discriminate.
  - destruct (axios_fearAndGreed E (S (clock w))) as [score|e] eqn:Haxios.
    + match goal with |- ∃ w', (_, ?w1) = _ ∧ _ => exists w1 end.
      split; [reflexivity|].
      repeat split; try reflexivity. discriminate.
    + exists (tickn 2 w). split; [reflexivity|].
      repeat split; try reflexivity. discriminate.
Qed.

Lemma fetchSentiment_returns (E : Env) (w : World) :
  ∃ score w',
    fetchSentiment E w = (Return score, w')
    ∧ observable w' = observable w
    ∧ (clock w < clock w')%nat.
Proof.
  rewrite fetchSentiment_run.
  destruct (_ <? SENTIMENT_FETCH_COOLDOWN_MS);
    [|destruct (axios_fearAndGreed E (S (clock w)))];
    eexists _, _; (split; [reflexivity|split; [reflexivity|cbn; lia]]).
Qed.

(** Running a sequence whose first call returns, under a postcondition. *)
Lemma bind_returns {A B} (m : M A) (f : A → M B) (w w1 : World) (a : A)
  (P : B → World → Prop) :
  m w = (Return a, w1) →
  (∃ b w', f a w1 = (Return b, w') ∧ P b w') →
  ∃ b w', bind m f w = (Return b, w') ∧ P b w'.
Proof.
  intros Hm (b & w' & Hf & HP). exists b, w'. split; [|exact HP].
  eapply bind_run; eauto.
Qed.

Ltac run_step := eapply bind_returns; [reflexivity|]; cbn beta iota zeta.

(** A buy is sized to at most [swapAmount * maxCapMultiplier], with a
    multiplier of at most 5. *)
Lemma getProfileAdjustedAmount_buy_run (E : Env) (cfg : ConfigManager)
  (wallet : Wallet) (w : World) :
  0 <= swapAmount cfg →
  ∃ (amount : Z) (w' : World),
    getProfileAdjustedAmount E cfg wallet true w = (Return amount, w')
    ∧ amount <= 5 * swapAmount cfg.
Proof.
  intros Hswap.
  assert (Hcap : ∀ amount cap : Z,
             cap <= 5 →
             (if amount <? swapAmount cfg * cap then amount
              else swapAmount cfg * cap) <= 5 * swapAmount cfg).
  { intros amount cap Hle.
    destruct (Z.ltb_spec amount (swapAmount cfg * cap)); nia. }
  unfold getProfileAdjustedAmount.
  destruct (behaviorProfile cfg);
    run_step; run_step;
    match goal with
    | |- context [match ?p with hodler => _ | flipper => _ | momentum => _ end] =>
        destruct p
    end.
  all: try (run_step; run_step; eexists _, _; split; [reflexivity|];
            apply Hcap; lia).
  all: match goal with
       | |- ∃ b w', bind (bind _ _) _ ?w1 = _ ∧ _ =>
           destruct (fetchSentiment_returns E w1)
             as (score & w2 & Hsent & _)
       end.
  all: eapply bind_returns;
         [eapply bind_run; [exact Hsent|reflexivity]|]; cbn beta iota zeta.
  all: run_step; eexists _, _; split; [reflexivity|]; apply Hcap; lia.
Qed.

(** X12.  A buy is sized to at most five times SWAP_AMOUNT, whatever the
    profile, the personality and the sentiment: [getProfileAdjustedAmount]
    for a buy returns (it never throws) an amount capped at
    [swapAmount * maxCapMultiplier] with a multiplier of at most 5, and
    makes no trade. *)
Theorem getProfileAdjustedAmount_buy_cap :
  ∀ (E : Env) (cfg : ConfigManager) (wallet : Wallet) (w : World),
    0 <= swapAmount cfg →
    ∃ (amount : Z) (w' : World),
      getProfileAdjustedAmount E cfg wallet true w = (Return amount, w')
      ∧ amount <= 5 * swapAmount cfg
      ∧ observable w' = observable w.
Proof.
  intros E cfg wallet w Hswap.
  destruct (getProfileAdjustedAmount_buy_run E cfg wallet w Hswap)
    as (amount & w' & Hrun & Hcap).
  exists amount, w'. split; [exact Hrun|]. split; [exact Hcap|].
  pose proof (quiet_getProfileAdjustedAmount E cfg wallet true w) as Hquiet.
  rewrite Hrun in Hquiet. exact Hquiet.
Qed.

(** X12 at the default configuration: at most 0.05 SOL. *)
Lemma getProfileAdjustedAmount_buy_cap_witness :
  ∃ (amount : Z) (w' : World),
    getProfileAdjustedAmount (calmEnv (1 # 2) 50000000000 2000000 1000)
      defaultConfig wallet1 true oneWalletWorld
    = (Return amount, w')
    ∧ amount <= 50000000
    ∧ observable w' = observable oneWalletWorld.
Proof.
  apply (getProfileAdjustedAmount_buy_cap
           (calmEnv (1 # 2) 50000000000 2000000 1000) defaultConfig wallet1
           oneWalletWorld).
  vm_compute; discriminate.
Defined.

(** X13.  A sell is sized to the whole token balance of the wallet, read
    once, whatever the profile, the personality and the sentiment, and to
    0 when the token account cannot be read; [getProfileAdjustedAmount]
    for a sell never throws and makes no trade. *)
Theorem getProfileAdjustedAmount_sell_is_balance :
  ∀ (E : Env) (cfg : ConfigManager) (wallet : Wallet) (w : World),
    ∃ (amount : Z) (w' : World),
      getProfileAdjustedAmount E cfg wallet false w = (Return amount, w')
      ∧ ∃ k : nat,
          (clock w <= k < clock w')%nat
          ∧ amount = match getAccount E k (publicKey (keypair wallet)) with
                     | Return tokens => tokens
                     | Throw _ => 0
                     end
          ∧ observable w' = observable w.
Proof.
  intros E cfg wallet w.
  assert (Hread : ∀ w1 : World,
    getCurrentMemeBalance E wallet w1
    = (Return match getAccount E (clock w1) (publicKey (keypair wallet)) with
              | Return tokens => tokens
              | Throw _ => 0
              end, tickn 1 w1)).
  { intros w1. unfold getCurrentMemeBalance, try_catch, getAccount_amount,
      bind, tick, lift, ret. cbn beta iota.
    destruct (getAccount E (clock w1) _); reflexivity. }
  unfold getProfileAdjustedAmount.
  destruct (behaviorProfile cfg);
    run_step; run_step;
    match goal with
    | |- context [match ?p with hodler => _ | flipper => _ | momentum => _ end] =>
        destruct p
    end.
  all: try (run_step;
            eapply bind_returns; [apply Hread|]; cbn beta iota zeta;
            eexists _, _; split; [reflexivity|];
            eexists; split; [|split; [reflexivity|reflexivity]];
            cbn; lia).
  all: match goal with
       | |- ∃ b w', bind (bind _ _) _ ?w1 = _ ∧ _ =>
           destruct (fetchSentiment_returns E w1)
             as (score & w2 & Hsent & Hobs & Hclock)
       end.
  all: eapply bind_returns;
         [eapply bind_run; [exact Hsent|reflexivity]|]; cbn beta iota zeta.
  all: eapply bind_returns; [apply Hread|]; cbn beta iota zeta;
         eexists _, _; split; [reflexivity|];
         exists (clock w2); split; [|split; [reflexivity|]];
         [cbn in Hclock |- *; lia|].
  all: cbn [observable tickn trace circuitBreaker walletManager bot];
         exact Hobs.
Qed.

(** The market adjustment of an amount: a factor 0.5, 1 or 1.5 for the
    volatility, then 0.5, 1 or 1.2 for the liquidity, each truncated. *)
Lemma getAdaptiveAmount_run (E : Env) (cfg : ConfigManager) (wallet : Wallet)
  (isBuy : bool) (baseAmount : Z) (w : World) :
  ∃ (amount : Z) (w' : World),
    getAdaptiveAmount E cfg wallet isBuy baseAmount w = (Return amount, w')
    ∧ (0 <= baseAmount →
       0 <= amount ∧ 10 * amount <= 18 * baseAmount
       ∧ baseAmount <= 4 * amount + 3)
    ∧ (baseAmount <= 0 → amount <= 0).
Proof.
  unfold getAdaptiveAmount. run_step.
  set (vol := marketData_fetchVolatility E (clock w)).
  set (amount1 :=
         if JS.gtb vol (volThreshold cfg) then Z.quot (baseAmount * 5) 10
         else if JS.ltb vol (1 # 100) then Z.quot (baseAmount * 15) 10
         else baseAmount).
  assert (Hbounds : ∀ a1 amount2,
    (a1 = Z.quot (baseAmount * 5) 10
     ∨ a1 = Z.quot (baseAmount * 15) 10 ∨ a1 = baseAmount) →
    (amount2 = Z.quot (a1 * 5) 10 ∨ amount2 = Z.quot (a1 * 12) 10
     ∨ amount2 = a1) →
    (0 <= baseAmount →
       0 <= amount2 ∧ 10 * amount2 <= 18 * baseAmount
       ∧ baseAmount <= 4 * amount2 + 3)
    ∧ (baseAmount <= 0 → amount2 <= 0)).
  { intros a1 amount2 [H1|[H1|H1]] [H2|[H2|H2]]; subst amount2 a1;
      (split; intros Hb; Z.to_euclidean_division_equations; lia). }
  assert (H1 : amount1 = Z.quot (baseAmount * 5) 10
               ∨ amount1 = Z.quot (baseAmount * 15) 10
               ∨ amount1 = baseAmount).
  { subst amount1. destruct (JS.gtb _ _); [|destruct (JS.ltb _ _)]; auto. }
  assert (H2 : ∀ amount2,
    amount2 = Z.quot (amount1 * 5) 10 ∨ amount2 = Z.quot (amount1 * 12) 10
    ∨ amount2 = amount1 →
    (0 <= baseAmount →
       0 <= amount2 ∧ 10 * amount2 <= 18 * baseAmount
       ∧ baseAmount <= 4 * amount2 + 3)
    ∧ (baseAmount <= 0 → amount2 <= 0))
    by (intros amount2; apply Hbounds, H1).
  clearbody amount1. clear Hbounds H1.
  destruct (useBirdeye cfg).
  - run_step. destruct (marketData_getMarketData E _) as [l|].
    + eexists _, _. split; [reflexivity|]. apply H2.
      destruct (JS.ltb _ 1); [auto|]. destruct (JS.gtb _ 10); auto.
    + eexists _, _. split; [reflexivity|]. apply H2. auto.
  - eexists _, _. split; [reflexivity|]. apply H2. auto.
Qed.

(** The whole percentage of the ramp is between 0 and 100, and 100 once
    the engine's cycle counter has reached [rampCycles - 1]. *)
Lemma rampFactor_percent (cfg : ConfigManager) (te : TradingEngine) :
  (0 < rampCycles cfg)%Q → 0 <= cycleCount te →
  0 <= JS.floor (rampFactor cfg te * 100) <= 100
  ∧ ((rampCycles cfg <= inject_Z (cycleCount te + 1))%Q →
     JS.floor (rampFactor cfg te * 100) = 100).
Proof.
  intros Hramp Hcount. unfold rampFactor, JS.min, JS.floor.
  set (x := (inject_Z (cycleCount te + 1) / rampCycles cfg)%Q).
  assert (Hx : (0 <= x)%Q).
  { subst x. apply Qle_shift_div_l; [exact Hramp|].
    rewrite Qmult_0_l. change 0%Q with (inject_Z 0). rewrite <- Zle_Qle. lia. }
  assert (H100 : Qfloor (1 * 100) = 100) by reflexivity.
  destruct (JS.leb 1 x) eqn:Hle.
  - rewrite H100. split; [lia|auto].
  - assert (Hlt : (x < 1)%Q).
    { apply Qnot_le_lt. intros H. apply leb_true in H. congruence. }
    split.
    + split.
      * assert (H0 : (inject_Z 0 <= x * 100)%Q)
          by (change (inject_Z 0) with 0%Q; nra).
        apply Qfloor_resp_le in H0. rewrite Qfloor_Z in H0. exact H0.
      * assert (H1 : (x * 100 <= inject_Z 100)%Q)
          by (change (inject_Z 100) with 100%Q; nra).
        apply Qfloor_resp_le in H1. rewrite Qfloor_Z in H1. exact H1.
    + intros Hfull. exfalso. apply (Qlt_not_le _ _ Hlt).
      subst x. apply Qle_shift_div_l; [exact Hramp|].
      rewrite Qmult_1_l. exact Hfull.
Qed.

Lemma rampedAmount_bounds_aux (cfg : ConfigManager) (te : TradingEngine)
  (adjustedAmount : Z) :
  (0 < rampCycles cfg)%Q → 0 <= cycleCount te →
  (0 <= adjustedAmount →
   0 <= rampedAmount cfg te adjustedAmount <= adjustedAmount)
  ∧ (adjustedAmount <= 0 → rampedAmount cfg te adjustedAmount <= 0).
Proof.
  intros Hramp Hcount.
  destruct (rampFactor_percent cfg te Hramp Hcount) as [Hpct _].
  unfold rampedAmount.
  set (pct := JS.floor (rampFactor cfg te * 100)) in *.
  split; intros Ha; Z.to_euclidean_division_equations; nia.
Qed.

(** X14.  The ramp never enlarges an amount and never changes its sign:
    with a positive [rampCycles] and a non-negative cycle counter on the
    engine, a non-negative amount is scaled to between 0 and itself, and
    to itself once the counter has reached [rampCycles - 1]. *)
Theorem rampedAmount_bounds :
  ∀ (cfg : ConfigManager) (te : TradingEngine) (adjustedAmount : Z),
    (0 < rampCycles cfg)%Q → 0 <= cycleCount te →
    (0 <= adjustedAmount →
     0 <= rampedAmount cfg te adjustedAmount <= adjustedAmount)
    ∧ (adjustedAmount <= 0 → rampedAmount cfg te adjustedAmount <= 0)
    ∧ ((rampCycles cfg <= inject_Z (cycleCount te + 1))%Q →
       rampedAmount cfg te adjustedAmount = adjustedAmount).
Proof.
  intros cfg te adjustedAmount Hramp Hcount.
  destruct (rampedAmount_bounds_aux cfg te adjustedAmount Hramp Hcount)
    as [Hpos Hneg].
  destruct (rampFactor_percent cfg te Hramp Hcount) as [_ Hfull].
  split; [exact Hpos|]. split; [exact Hneg|].
  intros Hreached. unfold rampedAmount. rewrite (Hfull Hreached).
  apply Z.quot_mul. lia.
Qed.

(** X14 at the default configuration (RAMP_CYCLES = 30), on the engine as
    constructed: 10000000 is scaled to 300000. *)
Lemma rampedAmount_bounds_witness :
  0 <= rampedAmount defaultConfig TradingEngine_constructor 10000000
  <= 10000000.
Proof.
  apply (rampedAmount_bounds defaultConfig TradingEngine_constructor 10000000);
    [reflexivity|vm_compute; discriminate|vm_compute; discriminate].
Defined.

(** X15.  The market adjustment never throws, makes no trade, and keeps a
    non-negative amount between a quarter of it and 1.8 times it (up to
    truncation): a factor 0.5, 1 or 1.5 for the volatility, then 0.5, 1 or
    1.2 for the liquidity. *)
Theorem getAdaptiveAmount_bounds :
  ∀ (E : Env) (cfg : ConfigManager) (wallet : Wallet) (isBuy : bool)
    (baseAmount : Z) (w : World),
    0 <= baseAmount →
    ∃ (amount : Z) (w' : World),
      getAdaptiveAmount E cfg wallet isBuy baseAmount w = (Return amount, w')
      ∧ 0 <= amount
      ∧ 10 * amount <= 18 * baseAmount
      ∧ baseAmount <= 4 * amount + 3
      ∧ observable w' = observable w.
Proof.
  intros E cfg wallet isBuy baseAmount w Hbase.
  destruct (getAdaptiveAmount_run E cfg wallet isBuy baseAmount w)
    as (amount & w' & Hrun & Hpos & _).
  destruct (Hpos Hbase) as (H0 & Hup & Hlow).
  exists amount, w'. repeat (split; [assumption|]).
  pose proof (quiet_getAdaptiveAmount E cfg wallet isBuy baseAmount w)
    as Hquiet.
  rewrite Hrun in Hquiet. exact Hquiet.
Qed.

(** X15 at the default configuration, for a base amount of 10000000. *)
Lemma getAdaptiveAmount_bounds_witness :
  ∃ (amount : Z) (w' : World),
    getAdaptiveAmount (calmEnv (1 # 2) 50000000000 2000000 1000)
      defaultConfig wallet1 true 10000000 oneWalletWorld
    = (Return amount, w')
    ∧ 0 <= amount
    ∧ 10 * amount <= 180000000
    ∧ 10000000 <= 4 * amount + 3
    ∧ observable w' = observable oneWalletWorld.
Proof.
  apply (getAdaptiveAmount_bounds
           (calmEnv (1 # 2) 50000000000 2000000 1000) defaultConfig wallet1
           true 10000000 oneWalletWorld).
  vm_compute; discriminate.
Defined.

(** X16.  No buy is sized above nine times SWAP_AMOUNT.  When the sizing
    of a buy goes on to the swap, the final amount is positive and at most
    [9 * swapAmount]: the profile and personality cap (5), the market
    adjustment (1.8) and the ramp (at most 1) compose. *)
Theorem sizeAndCheck_buy_bounded :
  ∀ (E : Env) (cfg : ConfigManager) (wallet : Wallet) (w w' : World)
    (finalAmount : Z),
    0 <= swapAmount cfg →
    (0 < rampCycles cfg)%Q →
    0 <= cycleCount (tradingEngine w) →
    sizeAndCheck E cfg true wallet w = (Return (Some finalAmount), w') →
    0 < finalAmount <= 9 * swapAmount cfg.
Proof.
  intros E cfg wallet w w' finalAmount Hswap Hramp Hcount Hrun.
  destruct (getProfileAdjustedAmount_buy_run E cfg wallet w Hswap)
    as (baseAmount & w1 & Hrun1 & Hcap).
  destruct (getAdaptiveAmount_run E cfg wallet true baseAmount w1)
    as (adjusted & w2 & Hrun2 & Hpos & Hneg).
  assert (Hengine : cycleCount (tradingEngine w2) = cycleCount (tradingEngine w)).
  { pose proof (keeps_getProfileAdjustedAmount E cfg wallet true w) as [H1 _].
    pose proof (keeps_getAdaptiveAmount E cfg wallet true baseAmount w1)
      as [H2 _].
    rewrite Hrun1 in H1. rewrite Hrun2 in H2. cbn [snd] in H1, H2. congruence. }
  rewrite <- Hengine in Hcount.
  destruct (rampedAmount_bounds_aux cfg (tradingEngine w2) adjusted Hramp Hcount)
    as (Hr1 & Hr2).
  unfold sizeAndCheck in Hrun.
  unfold bind at 1 in Hrun. rewrite Hrun1 in Hrun.
  unfold bind at 1 in Hrun. rewrite Hrun2 in Hrun.
  unfold bind at 1, get_engine in Hrun. cbn beta iota in Hrun.
  set (final := rampedAmount cfg (tradingEngine w2) adjusted) in *.
  destruct (Z.leb_spec final 0) as [Hle|Hgt]; [discriminate Hrun|].
  assert (Hfinal : finalAmount = final).
  { unfold checkMarketConditions, bind, lift, tick, ret in Hrun.
    cbn beta iota in Hrun.
    destruct (JS.BN_toNumber _); [|discriminate Hrun].
    destruct (marketData_checkMarketConditions E _ _) as [[|]|];
      cbn in Hrun; congruence. }
  subst finalAmount.
  destruct (Z_le_gt_dec adjusted 0) as [Hadj|Hadj]; [specialize (Hr2 Hadj); lia|].
  destruct (Z_le_gt_dec baseAmount 0) as [Hb|Hb]; [specialize (Hneg Hb); lia|].
  specialize (Hpos ltac:(lia)). specialize (Hr1 ltac:(lia)). lia.
Qed.

(** X16 at the default configuration, on the heap with one stored wallet:
    the first buy is sized to 150000 lamports. *)
Lemma sizeAndCheck_buy_bounded_witness :
  let E := calmEnv (1 # 2) 50000000000 2000000 1000 in
  ∃ (finalAmount : Z) (w' : World),
    sizeAndCheck E defaultConfig true wallet1 oneWalletWorld
    = (Return (Some finalAmount), w')
    ∧ 0 < finalAmount <= 90000000.
Proof.
  intros E.
  destruct (sizeAndCheck E defaultConfig true wallet1 oneWalletWorld)
    as [out w'] eqn:Hrun.
  assert (Hout : out = Return (Some 150000)).
  { vm_compute in Hrun. injection Hrun as <- _. reflexivity. }
  subst out. exists 150000, w'. split; [reflexivity|].
  apply (sizeAndCheck_buy_bounded E defaultConfig wallet1 oneWalletWorld w'
           150000).
  - vm_compute; discriminate.
  - reflexivity.
  - vm_compute; discriminate.
  - exact Hrun.
Defined.

(** ** The wallet cycle *)

(** Only [loadActiveBatch] and [markWalletUsed] write to the wallet
    manager. *)

Lemma wallets_kept_ret {A} (a : A) : wallets_kept (ret a).
Proof. intros w. reflexivity. Qed.

Lemma wallets_kept_throw {A} (e : string) : wallets_kept (@throw A e).
Proof. intros w. reflexivity. Qed.

Lemma wallets_kept_lift {A} (o : Outcome A) : wallets_kept (lift o).
Proof. intros w. reflexivity. Qed.

Lemma wallets_kept_bind {A B} (m : M A) (f : A → M B) :
  wallets_kept m → (∀ a, wallets_kept (f a)) → wallets_kept (bind m f).
Proof.
  intros Hm Hf w. unfold bind. specialize (Hm w).
  destruct (m w) as [[a|e] w']; simpl in *; [|exact Hm].
  rewrite Hf. exact Hm.
Qed.

Lemma wallets_kept_try_catch {A} (m : M A) (h : string → M A) :
  wallets_kept m → (∀ e, wallets_kept (h e)) → wallets_kept (try_catch m h).
Proof.
  intros Hm Hh w. unfold try_catch. specialize (Hm w).
  destruct (m w) as [[a|e] w']; simpl in *; [exact Hm|].
  rewrite Hh. exact Hm.
Qed.

Lemma wallets_kept_tick : wallets_kept tick.
Proof. intros w. reflexivity. Qed.

Lemma wallets_kept_emit (ev : Event) : wallets_kept (emit ev).
Proof. intros w. reflexivity. Qed.

Lemma wallets_kept_get_breaker : wallets_kept get_breaker.
Proof. intros w. reflexivity. Qed.

Lemma wallets_kept_get_engine : wallets_kept get_engine.
Proof. intros w. reflexivity. Qed.

Lemma wallets_kept_get_wallets : wallets_kept get_wallets.
Proof. intros w. reflexivity. Qed.

Lemma wallets_kept_get_bot : wallets_kept get_bot.
Proof. intros w. reflexivity. Qed.

Lemma wallets_kept_put_breaker (cb : CircuitBreaker) :
  wallets_kept (put_breaker cb).
Proof. intros w. reflexivity. Qed.

Lemma wallets_kept_put_bot (b : VolumeBoosterBot) : wallets_kept (put_bot b).
Proof. intros w. reflexivity. Qed.

Lemma wallets_kept_modify_engine (f : TradingEngine → TradingEngine) :
  wallets_kept (modify_engine f).
Proof. intros w. reflexivity. Qed.

Create HintDb wallets_kept.
#[export] Hint Resolve wallets_kept_ret wallets_kept_throw wallets_kept_lift
  wallets_kept_tick wallets_kept_emit wallets_kept_get_breaker
  wallets_kept_get_engine wallets_kept_get_wallets wallets_kept_get_bot
  wallets_kept_put_breaker wallets_kept_put_bot wallets_kept_modify_engine
  : wallets_kept.

Create HintDb methods.
#[export] Hint Unfold Math_random_call Date_now_call delay getBalance
  getAccount_amount trader_call fetchVolatility getMarketData_liquidity
  checkMarketConditions getPersonality getJitteredValue getRandomDelay
  fetchSentiment getCurrentMemeBalance getProfileAdjustedAmount
  getAdaptiveAmount isBuyFirst getTradeActions attemptSwap performSingleSwap
  twapSwap partialSell sizeAndCheck executeSwap afterMarketCheck performSwap
  record processAction : methods.

Ltac wallets_kept_step :=
  match goal with
  | |- wallets_kept (bind _ _) => apply wallets_kept_bind; [|intros ?]
  | |- wallets_kept (try_catch _ _) => apply wallets_kept_try_catch; [|intros ?]
  | |- wallets_kept (match ?x with _ => _ end) => destruct x
  | |- wallets_kept _ => solve [eauto with wallets_kept]
  | |- wallets_kept _ => progress autounfold with methods
  end.

Ltac wallets_kept_auto := repeat wallets_kept_step.

Lemma wallets_kept_randomActions (E : Env) (cfg : ConfigManager) (n : nat) :
  wallets_kept (randomActions E cfg n).
Proof. induction n as [|n IH]; simpl; wallets_kept_auto. Qed.
#[export] Hint Resolve wallets_kept_randomActions : wallets_kept.

Lemma wallets_kept_performSingleSwap_loop (E : Env) (cfg : ConfigManager)
  (remaining attempt : nat) isBuy wallet amount :
  wallets_kept
    (performSingleSwap_loop E cfg remaining attempt isBuy wallet amount).
Proof.
  revert attempt. induction remaining as [|k IH]; intros attempt; simpl;
    wallets_kept_auto.
Qed.
#[export] Hint Resolve wallets_kept_performSingleSwap_loop : wallets_kept.

Lemma wallets_kept_twapSwap_loop (E : Env) (cfg : ConfigManager) isBuy wallet
  (len i : nat) (todo : list Z) (anySuccess : bool) :
  wallets_kept (twapSwap_loop E cfg isBuy wallet len i todo anySuccess).
Proof.
  revert i anySuccess.
  induction todo as [|share todo IH]; intros i anySuccess; simpl;
    wallets_kept_auto.
Qed.
#[export] Hint Resolve wallets_kept_twapSwap_loop : wallets_kept.

Lemma wallets_kept_processActions (E : Env) (cfg : ConfigManager) wallet
  (cycleVolume : Z) (actions : list bool) :
  wallets_kept (processActions E cfg wallet cycleVolume actions).
Proof.
  revert cycleVolume.
  induction actions as [|isBuy rest IH]; intros cycleVolume; simpl.
  - wallets_kept_auto.
  - apply wallets_kept_bind; [|intros ?; apply IH].
    wallets_kept_auto.
Qed.

Lemma wallets_kept_getTradeActions (E : Env) (cfg : ConfigManager) wallet :
  wallets_kept (getTradeActions E cfg wallet).
Proof. wallets_kept_auto. Qed.

Lemma bind_throw {A B} (m : M A) (f : A → M B) (w w1 : World) (e : string) :
  m w = (Throw e, w1) → bind m f w = (Throw e, w1).
Proof. intros Hm. unfold bind. rewrite Hm. reflexivity. Qed.

(** X17.  [processWalletCycle] never throws.  A cycle that reports a
    failure (a balance below 0.01 SOL, or an exception anywhere in the
    cycle) has volume 0 and leaves the wallet manager as it was: the
    wallet is not put on cooldown.  A cycle that reports success has put
    the wallet on cooldown, at a time read from the clock, and counted one
    more trade cycle for it; no other entry changes. *)
Theorem processWalletCycle_result :
  ∀ (E : Env) (cfg : ConfigManager) (wallet : Wallet) (w : World),
    let key := publicKey (keypair wallet) in
    let wm := walletManager w in
    ∃ (result : CycleResult) (w' : World),
      processWalletCycle E cfg wallet w = (Return result, w')
      ∧ (success result = false →
         volume result = 0 ∧ walletManager w' = wm)
      ∧ (success result = true →
         ∃ k : nat,
           walletManager w'
           = set_cooldowns_counts wm
               (<[key := Date_now E k]> (walletCooldowns wm))
               (<[key := default 0 (walletTradeCount wm !! key) + 1]>
                  (walletTradeCount wm))).
Proof.
  intros E cfg wallet w key wm. subst key.
  unfold processWalletCycle, try_catch.
  match goal with |- context [bind ?m ?f w] => set (body := bind m f) end.
  assert (Hbody :
    (∃ w1, body w = (Return {| success := false; volume := 0 |}, w1)
           ∧ walletManager w1 = wm)
    ∨ (∃ e w1, body w = (Throw e, w1) ∧ walletManager w1 = wm)
    ∨ (∃ v w3, body w
               = (Return {| success := true; volume := v |},
                  (markWalletUsed E wallet w3).2)
               ∧ walletManager w3 = wm)).
  { subst body.
    destruct (getBalance E (publicKey (keypair wallet)) w)
      as [[balance|e] w0] eqn:H0;
      pose proof (eq_refl : walletManager
                            (getBalance E (publicKey (keypair wallet)) w).2
                          = wm) as Hw0;
      rewrite H0 in Hw0; cbn [snd] in Hw0.
    2: { right. left. exists e, w0. split; [|exact Hw0].
         eapply bind_throw, H0. }
    destruct (balance <? JS.floor (0.01 * inject_Z LAMPORTS_PER_SOL))
      eqn:Hlow.
    { left. exists w0. split; [|exact Hw0].
      eapply bind_run; [exact H0|]. rewrite Hlow. reflexivity. }
    pose proof (wallets_kept_getTradeActions E cfg wallet w0) as Hw2.
    destruct (getTradeActions E cfg wallet w0) as [[actions|e] w2] eqn:H2;
      cbn [snd] in Hw2.
    2: { right. left. exists e, w2. split; [|congruence].
         eapply bind_run; [exact H0|]. rewrite Hlow.
         eapply bind_throw, H2. }
    pose proof (wallets_kept_processActions E cfg wallet 0 actions w2) as Hw3.
    destruct (processActions E cfg wallet 0 actions w2) as [[v|e] w3] eqn:H3;
      cbn [snd] in Hw3.
    2: { right. left. exists e, w3. split; [|congruence].
         eapply bind_run; [exact H0|]. rewrite Hlow.
         eapply bind_run; [exact H2|]. eapply bind_throw, H3. }
    right. right. exists v, w3. split; [|congruence].
    eapply bind_run; [exact H0|]. rewrite Hlow.
    eapply bind_run; [exact H2|]. eapply bind_run; [exact H3|].
    reflexivity. }
  destruct Hbody as [(w1 & -> & Hwm)|[(e & w1 & -> & Hwm)|(v & w3 & -> & Hwm)]].
  - eexists _, _. split; [reflexivity|]. split; [auto|discriminate].
  - eexists _, _. split; [reflexivity|]. split; [|discriminate].
    intros _. split; [reflexivity|exact Hwm].
  - eexists _, _. split; [reflexivity|]. split; [discriminate|].
    intros _. exists (clock w3). cbn. rewrite Hwm. reflexivity.
Qed.

(** ** The test on the minimum token balance *)

(** Events are only ever added at the end of the trace. *)

Lemma appends_ret {A} (a : A) : appends (ret a).
Proof. intros w. exists []. symmetry. apply app_nil_r. Qed.

Lemma appends_throw {A} (e : string) : appends (@throw A e).
Proof. intros w. exists []. symmetry. apply app_nil_r. Qed.

Lemma appends_lift {A} (o : Outcome A) : appends (lift o).
Proof. intros w. exists []. symmetry. apply app_nil_r. Qed.

Lemma appends_bind {A B} (m : M A) (f : A → M B) :
  appends m → (∀ a, appends (f a)) → appends (bind m f).
Proof.
  intros Hm Hf w. unfold bind. destruct (Hm w) as [evs Hevs].
  destruct (m w) as [[a|e] w']; cbn [snd] in *; [|eauto].
  destruct (Hf a w') as [evs' Hevs']. exists (evs ++ evs').
  rewrite Hevs', Hevs, app_assoc. reflexivity.
Qed.

Lemma appends_try_catch {A} (m : M A) (h : string → M A) :
  appends m → (∀ e, appends (h e)) → appends (try_catch m h).
Proof.
  intros Hm Hh w. unfold try_catch. destruct (Hm w) as [evs Hevs].
  destruct (m w) as [[a|e] w']; cbn [snd] in *; [eauto|].
  destruct (Hh e w') as [evs' Hevs']. exists (evs ++ evs').
  rewrite Hevs', Hevs, app_assoc. reflexivity.
Qed.

Lemma appends_emit (ev : Event) : appends (emit ev).
Proof. intros w. exists [ev]. reflexivity. Qed.

Lemma appends_quiet {A} (m : M A) : quiet m → appends m.
Proof.
  intros Hm w. exists []. rewrite app_nil_r.
  pose proof (Hm w) as Hobs. unfold observable in Hobs. congruence.
Qed.

Create HintDb appends.
#[export] Hint Resolve appends_ret appends_throw appends_lift appends_emit
  : appends.

Ltac appends_step :=
  match goal with
  | |- appends (bind _ _) => apply appends_bind; [|intros ?]
  | |- appends (try_catch _ _) => apply appends_try_catch; [|intros ?]
  | |- appends (match ?x with _ => _ end) => destruct x
  | |- appends _ => solve [eauto with appends]
  | |- appends _ => progress autounfold with methods
  | |- appends _ =>
      solve [intros ?; exists []; symmetry; apply app_nil_r]
  end.

Ltac appends_auto := repeat appends_step.

Lemma appends_performSingleSwap_loop (E : Env) (cfg : ConfigManager)
  (remaining attempt : nat) isBuy wallet amount :
  appends (performSingleSwap_loop E cfg remaining attempt isBuy wallet amount).
Proof.
  revert attempt. induction remaining as [|k IH]; intros attempt; simpl;
    appends_auto.
Qed.
#[export] Hint Resolve appends_performSingleSwap_loop : appends.

(** The first thing [performSingleSwap] does is to send the order. *)
Lemma performSingleSwap_first_event (E : Env) (cfg : ConfigManager)
  (isBuy : bool) (wallet : Wallet) (amount : Z) (w : World) :
  ∃ evs : list Event,
    trace (performSingleSwap E cfg isBuy wallet amount w).2
    = trace w ++ EvTrade (swapRequest cfg isBuy wallet amount) :: evs.
Proof.
  destruct w as [c tr cb te wm b].
  unfold performSingleSwap, maxRetries. cbn [performSingleSwap_loop].
  unfold bind, try_catch, attemptSwap, trader_call, delay, bind, tick, emit,
    lift, ret, throw. cbn.
  destruct (trader E c _) as [sig0|e0]; cbn; [exists []; reflexivity|].
  destruct (trader E (S (S c)) _) as [sig1|e1]; cbn;
    [eexists; rewrite <- !app_assoc; reflexivity|].
  destruct (trader E (S (S (S (S c)))) _) as [sig2|e2]; cbn;
    eexists; rewrite <- !app_assoc; reflexivity.
Qed.

Lemma bind_first_event {A B} (m : M A) (f : A → M B) (w : World)
  (ev : Event) :
  (∃ evs, trace (m w).2 = trace w ++ ev :: evs) →
  (∀ a, appends (f a)) →
  ∃ evs, trace (bind m f w).2 = trace w ++ ev :: evs.
Proof.
  intros [evs Hevs] Hf. unfold bind.
  destruct (m w) as [[a|e] w1]; cbn [snd] in *; [|eauto].
  destruct (Hf a w1) as [evs' Hevs']. exists (evs ++ evs').
  rewrite Hevs', Hevs, <- app_assoc. reflexivity.
Qed.

Lemma getCurrentMemeBalance_run (E : Env) (wallet : Wallet) (w : World) :
  getCurrentMemeBalance E wallet w
  = (Return match getAccount E (clock w) (publicKey (keypair wallet)) with
            | Return tokens => tokens
            | Throw _ => 0
            end,
     tickn 1 w).
Proof.
  unfold getCurrentMemeBalance, try_catch, getAccount_amount, bind, tick,
    lift, ret.
  destruct (getAccount E (clock w) _); reflexivity.
Qed.

Lemma partialSellAmount_0 (cfg : ConfigManager) (r : Q) :
  partialSellAmount cfg 0 r = 0.
Proof. unfold partialSellAmount. rewrite Z.mul_0_l. reflexivity. Qed.

(** X18.  The test on the minimum token balance never skips a sell:
    [MIN_MEME_TOKENS] is a [BigInt], and [lt] of bn.js answers false for
    it.  With partial sells enabled, a sell action whose first balance
    read succeeds always sends an order to the Trade Execution Service,
    before any other event: for the part of the token balance [tokens]
    that [partialSellAmount] computes, where [tokens] is what the token
    account holds at the second reading (0 when it cannot be read),
    however small.  For an empty wallet the order is for 0 tokens. *)
Theorem processAction_sell_never_skipped :
  ∀ (E : Env) (cfg : ConfigManager) (wallet : Wallet) (cycleVolume : Z)
    (solBefore : Z) (w : World),
    partialSellEnabled cfg = true →
    connection_getBalance E (S (clock w)) (publicKey (keypair wallet))
    = Return solBefore →
    ∃ (n : nat) (evs : list Event),
      let tokens := match getAccount E n (publicKey (keypair wallet)) with
                    | Return tokens => tokens
                    | Throw _ => 0
                    end in
      let r := Math_random E (S n) in
      trace (processAction E cfg wallet cycleVolume false w).2
      = trace w
        ++ EvTrade (swapRequest cfg false wallet
                      (partialSellAmount cfg tokens r)) :: evs
      ∧ (tokens = 0 → partialSellAmount cfg tokens r = 0).
Proof.
  intros E cfg wallet cycleVolume solBefore w Hpartial Hbalance.
  destruct (fetchSentiment_returns E (tickn 2 w))
    as (score & w3 & Hsentiment & Hobs & _).
  assert (Htrace3 : trace w3 = trace w).
  { unfold observable in Hobs. injection Hobs as Htr _ _ _. exact Htr. }
  exists (clock w3).
  assert (Hgoal : ∃ evs,
    trace (processAction E cfg wallet cycleVolume false w).2
    = trace w
      ++ EvTrade (swapRequest cfg false wallet
                    (partialSellAmount cfg
                       match getAccount E (clock w3)
                               (publicKey (keypair wallet)) with
                       | Return tokens => tokens
                       | Throw _ => 0
                       end
                       (Math_random E (S (clock w3))))) :: evs).
  { unfold processAction. cbn [negb].
    erewrite bind_run; cycle 1.
    { eapply bind_run; [apply getCurrentMemeBalance_run|]. reflexivity. }
    { reflexivity. }
    unfold JS.BN_lt_BigInt. cbv iota.
    erewrite bind_run; cycle 1.
    { unfold getBalance, bind, tick, lift.
      change (clock (tickn 1 w)) with (S (clock w)).
      rewrite Hbalance. reflexivity. }
    { reflexivity. }
    change {| clock := S (1 + clock w); trace := trace (tickn 1 w);
              circuitBreaker := circuitBreaker (tickn 1 w);
              tradingEngine := tradingEngine (tickn 1 w);
              walletManager := walletManager (tickn 1 w);
              bot := bot (tickn 1 w) |} with (tickn 2 w).
    change (trace w) with (trace (tickn 2 w)).
    apply bind_first_event.
    - unfold performSwap.
      erewrite bind_run; [|exact Hsentiment|reflexivity].
      rewrite Hpartial. cbn [negb andb].
      unfold partialSell.
      erewrite bind_run; [|apply getCurrentMemeBalance_run|reflexivity].
      unfold JS.BN_lt_BigInt. cbv iota.
      erewrite bind_run; [|reflexivity|reflexivity].
      destruct (performSingleSwap_first_event E cfg false wallet
                  (partialSellAmount cfg
                     match getAccount E (clock w3)
                             (publicKey (keypair wallet)) with
                     | Return tokens => tokens
                     | Throw _ => 0
                     end
                     (Math_random E (S (clock w3))))
                  (tickn 2 w3)) as [evs Hevs].
      exists evs. refine (eq_trans Hevs _). cbn [trace tickn].
      rewrite Htrace3. reflexivity.
    - intros ok. appends_auto. }
  destruct Hgoal as [evs Hevs]. exists evs. cbv zeta.
  split; [exact Hevs|]. intros ->. apply partialSellAmount_0.
Qed.

(** X18 at the default configuration, for a wallet with 50 SOL and no
    token: the first event of the sell action is an order for 0 tokens,
    and the accepted order is recorded as a success. *)
Lemma processAction_sell_never_skipped_witness :
  let E := calmEnv (1 # 2) 50000000000 0 1000 in
  let w' := (processAction E defaultConfig wallet1 0 false oneWalletWorld).2 in
  (∃ evs : list Event,
     trace w' = EvTrade (swapRequest defaultConfig false wallet1 0) :: evs)
  ∧ recentTrades (circuitBreaker w') = [true].
Proof.
  intros E w'.
  destruct (processAction_sell_never_skipped E defaultConfig wallet1 0
              50000000000 oneWalletWorld eq_refl eq_refl)
    as (n & evs & Htrace & Hzero).
  rewrite (Hzero eq_refl) in Htrace.
  split.
  - exists evs. exact Htrace.
  - vm_compute. reflexivity.
Defined.

Lemma Qfloor_minus_one (x : Q) : Qfloor (x - 1) = Qfloor x - 1.
Proof.
  apply Z.le_antisymm.
  - assert (H : Qfloor (x - 1) + 1 <= Qfloor x); [|lia].
    apply le_inject_floor. rewrite inject_Z_plus.
    pose proof (Qfloor_le (x - 1)). change (inject_Z 1) with 1%Q. lra.
  - apply le_inject_floor. unfold Z.sub. rewrite inject_Z_plus.
    pose proof (Qfloor_le x). change (inject_Z (- (1))) with (- (1))%Q. lra.
Qed.

Lemma isInteger_minus_one (n : Q) :
  JS.isInteger n = false → JS.isInteger (n - 1) = false.
Proof.
  unfold JS.isInteger. intros H.
  destruct (Qle_bool (n - 1) _) eqn:Hle; [|reflexivity].
  apply Qle_bool_iff in Hle. rewrite Qfloor_minus_one in Hle.
  unfold Z.sub in Hle. rewrite inject_Z_plus in Hle.
  change (inject_Z (- (1))) with (- (1))%Q in Hle.
  assert (Hn : (n <= inject_Z (Qfloor n))%Q) by lra.
  apply Qle_bool_iff in Hn. congruence.
Qed.

(** X19.  A fractional NUM_ACTIONS_PER_CYCLE, which the validation
    accepts, makes every funded wallet cycle fail in the four fixed-order
    trade modes: [Array(n)] (or [Array(n - 1)]) throws a RangeError, which
    the cycle catches; it reports a failure with volume 0, records one
    failed trade in the breaker, makes no trade and does not put the wallet
    on cooldown. *)
Theorem processWalletCycle_fractional_actions :
  ∀ (E : Env) (cfg : ConfigManager) (wallet : Wallet) (balance : Z)
    (w : World),
    JS.isInteger (numActionsPerCycle cfg) = false →
    match tradeMode cfg with
    | buy_only | sell_only | buy_first | sell_first => True
    | adaptive | random => False
    end →
    connection_getBalance E (clock w) (publicKey (keypair wallet))
    = Return balance →
    10000000 <= balance →
    processWalletCycle E cfg wallet w
    = (Return {| success := false; volume := 0 |},
       (record cfg false (tickn 1 w)).2).
Proof.
  intros E cfg wallet balance w Hfrac Hmode Hbalance Hfunded.
  assert (Hthrow : ∃ e, getTradeActions E cfg wallet (tickn 1 w)
                        = (Throw e, tickn 1 w)).
  { unfold getTradeActions, Array_length.
    pose proof (isInteger_minus_one _ Hfrac) as Hfrac'.
    destruct (tradeMode cfg); try contradiction;
      rewrite ?Hfrac, ?Hfrac'; cbn [andb]; eexists; reflexivity. }
  destruct Hthrow as [e Hthrow].
  unfold processWalletCycle, try_catch.
  match goal with
  | |- match ?body w with _ => _ end = _ =>
      assert (Hbody : body w = (Throw e, tickn 1 w))
  end.
  { eapply (bind_run _ _ w (tickn 1 w) balance).
    { unfold getBalance, bind, tick, lift. cbn beta iota.
      rewrite Hbalance. reflexivity. }
    assert (Hlow : (balance <? JS.floor (0.01 * inject_Z LAMPORTS_PER_SOL))
                   = false).
    { apply Z.ltb_ge. change (JS.floor _) with 10000000. exact Hfunded. }
    rewrite Hlow. eapply bind_throw, Hthrow. }
  rewrite Hbody. reflexivity.
Qed.

(** X19 for NUM_ACTIONS_PER_CYCLE=2.5 in [buy_only] mode: the value is
    accepted by the validator, and the first cycle of a wallet with 50 SOL
    fails. *)
Lemma processWalletCycle_fractional_actions_witness :
  let E := calmEnv (1 # 2) 50000000000 2000000 1000 in
  validateNumber (Some (25 # 10)) 1 10 2 = Some (25 # 10)
  ∧ ∃ w',
      processWalletCycle E (withActions defaultConfig buy_only (25 # 10))
        wallet1 oneWalletWorld
      = (Return {| success := false; volume := 0 |}, w')
      ∧ trace w' = []
      ∧ consecutiveFailures (circuitBreaker w') = 1
      ∧ walletManager w' = oneWalletManager.
Proof.
  intros E. split; [reflexivity|]. eexists. split.
  - apply (processWalletCycle_fractional_actions E
             (withActions defaultConfig buy_only (25 # 10)) wallet1
             50000000000 oneWalletWorld).
    + reflexivity.
    + exact I.
    + reflexivity.
    + vm_compute; discriminate.
  - split; [reflexivity|]. split; reflexivity.
Defined.

(** ** The actions of a cycle *)

Lemma Array_length_Return (n : Q) (k : nat) :
  Array_length n = Return k →
  (n == inject_Z (Qfloor n))%Q ∧ 0 <= Qfloor n ∧ k = Z.to_nat (Qfloor n)
  ∧ (n < inject_Z (2 ^ 32))%Q.
Proof.
  unfold Array_length, JS.isInteger, JS.leb, JS.floor.
  destruct (Qle_bool n (inject_Z (Qfloor n))) eqn:Hint; [|discriminate].
  destruct (Qle_bool 0 n) eqn:Hpos; [|discriminate].
  destruct (JS.ltb n (inject_Z (2 ^ 32))) eqn:Hmax; [|discriminate].
  cbn [andb]. intros [= <-].
  apply Qle_bool_iff in Hint, Hpos. apply ltb_true in Hmax.
  split; [apply Qle_antisym; [exact Hint|apply Qfloor_le]|].
  split; [|split; [reflexivity|exact Hmax]].
  change 0 with (Qfloor 0). apply Qfloor_resp_le, Hpos.
Qed.

Lemma Array_length_minus_one (n : Q) (k : nat) :
  Array_length n = Return k → (1 <= k)%nat →
  Array_length (n - 1) = Return (k - 1)%nat.
Proof.
  intros Hlen Hk.
  destruct (Array_length_Return n k Hlen) as (Hint & Hpos & -> & Hmax).
  assert (H1 : 1 <= Qfloor n) by lia.
  assert (Hn : (1 <= n)%Q).
  { rewrite Hint. change 1%Q with (inject_Z 1). rewrite <- Zle_Qle. exact H1. }
  unfold Array_length, JS.isInteger, JS.leb, JS.floor.
  rewrite Qfloor_minus_one.
  assert (Hint' : Qle_bool (n - 1) (inject_Z (Qfloor n - 1)) = true).
  { apply Qle_bool_iff. unfold Z.sub. rewrite inject_Z_plus.
    change (inject_Z (- (1))) with (- (1))%Q. lra. }
  assert (Hpos' : Qle_bool 0 (n - 1) = true) by (apply Qle_bool_iff; lra).
  assert (Hmax' : JS.ltb (n - 1) (inject_Z (2 ^ 32)) = true)
    by (apply ltb_true; lra).
  rewrite Hint', Hpos', Hmax'. cbn [andb]. f_equal. lia.
Qed.

Lemma randomActions_run (E : Env) (cfg : ConfigManager) (n : nat) (w : World) :
  ∃ actions,
    randomActions E cfg n w = (Return actions, tickn n w)
    ∧ length actions = n.
Proof.
  revert w. induction n as [|n IH]; intros w.
  - exists []. split; [destruct w; reflexivity|reflexivity].
  - destruct (IH (tickn 1 w)) as (rest & Hrest & Hlen).
    eexists. split.
    + cbn [randomActions]. eapply bind_run; [reflexivity|].
      eapply bind_run; [exact Hrest|]. unfold ret. rewrite tickn_tickn.
      replace (n + 1)%nat with (S n) by lia. reflexivity.
    + cbn [length]. rewrite Hlen. reflexivity.
Qed.

Lemma length_alternate (first : bool) (n : nat) :
  length (alternate first n) = n.
Proof.
  revert first. induction n as [|n IH]; intros first; [reflexivity|].
  cbn [alternate length]. rewrite IH. reflexivity.
Qed.

Lemma quiet_randomActions (E : Env) (cfg : ConfigManager) (n : nat) :
  quiet (randomActions E cfg n).
Proof. induction n as [|n IH]; simpl; quiet_auto. Qed.

Lemma quiet_getTradeActions (E : Env) (cfg : ConfigManager) wallet :
  quiet (getTradeActions E cfg wallet).
Proof.
  pose proof (quiet_randomActions E cfg).
  unfold getTradeActions, isBuyFirst. quiet_auto.
Qed.

(** X20.  With a whole NUM_ACTIONS_PER_CYCLE of at least 1, every trade
    mode gives a cycle of exactly that many actions, without a trade or a
    write to the heap: all buys, all sells, one buy then sells, one sell
    then buys, independent draws, or (adaptive) an alternation from a first
    action drawn by [isBuyFirst]. *)
Theorem getTradeActions_length :
  ∀ (E : Env) (cfg : ConfigManager) (wallet : Wallet) (k : nat) (w : World),
    Array_length (numActionsPerCycle cfg) = Return k →
    (1 <= k)%nat →
    ∃ (actions : list bool) (w' : World),
      getTradeActions E cfg wallet w = (Return actions, w')
      ∧ length actions = k
      ∧ observable w' = observable w
      ∧ match tradeMode cfg with
        | buy_only => actions = replicate k true
        | sell_only => actions = replicate k false
        | buy_first => actions = true :: replicate (k - 1) false
        | sell_first => actions = false :: replicate (k - 1) true
        | random => True
        | adaptive => ∃ first, actions = alternate first k
        end.
Proof.
  intros E cfg wallet k w Hlen Hk.
  pose proof (Array_length_minus_one _ _ Hlen Hk) as Hlen'.
  destruct (Array_length_Return _ _ Hlen) as (Hint & Hpos & Hkeq & _).
  assert (Hrun : ∃ actions w',
    getTradeActions E cfg wallet w = (Return actions, w')
    ∧ length actions = k
    ∧ match tradeMode cfg with
      | buy_only => actions = replicate k true
      | sell_only => actions = replicate k false
      | buy_first => actions = true :: replicate (k - 1) false
      | sell_first => actions = false :: replicate (k - 1) true
      | random => True
      | adaptive => ∃ first, actions = alternate first k
      end).
  { unfold getTradeActions. destruct (tradeMode cfg).
    - assert (Hceil : Z.to_nat (Qceiling (numActionsPerCycle cfg)) = k).
      { rewrite (Qceiling_comp _ _ Hint), Qceiling_Z. auto. }
      rewrite Hceil.
      destruct (isBuyFirst E cfg wallet w) as [[first|e] w1] eqn:Hfirst.
      + eexists _, _. split; [eapply bind_run; [exact Hfirst|reflexivity]|].
        split; [apply length_alternate|eauto].
      + exfalso. revert Hfirst. unfold isBuyFirst, getPersonality,
          Math_random_call, bind, get_engine, get_wallets, tick, ret.
        discriminate.
    - rewrite Hlen'. eexists _, _. split; [reflexivity|].
      split; [|reflexivity]. cbn [length]. rewrite length_replicate. lia.
    - rewrite Hlen'. eexists _, _. split; [reflexivity|].
      split; [|reflexivity]. cbn [length]. rewrite length_replicate. lia.
    - rewrite Hlen. eexists _, _. split; [reflexivity|].
      split; [apply length_replicate|reflexivity].
    - rewrite Hlen. eexists _, _. split; [reflexivity|].
      split; [apply length_replicate|reflexivity].
    - assert (Htrunc : Z.to_nat (JS.trunc (numActionsPerCycle cfg)) = k).
      { unfold JS.trunc.
        assert (Hnn : Qle_bool 0 (numActionsPerCycle cfg) = true).
        { apply Qle_bool_iff. rewrite Hint. change 0%Q with (inject_Z 0).
          rewrite <- Zle_Qle. exact Hpos. }
        rewrite Hnn. auto. }
      rewrite Htrunc.
      destruct (randomActions_run E cfg k w) as (actions & Hactions & Hl).
      eexists _, _. split; [exact Hactions|]. split; [exact Hl|exact I]. }
  destruct Hrun as (actions & w' & Hrun & Hl & Hshape).
  exists actions, w'. split; [exact Hrun|]. split; [exact Hl|].
  split; [|exact Hshape].
  pose proof (quiet_getTradeActions E cfg wallet w) as Hquiet.
  rewrite Hrun in Hquiet. exact Hquiet.
Qed.

(** X20 at the default configuration (adaptive, two actions). *)
Lemma getTradeActions_length_witness :
  ∃ (actions : list bool) (w' : World),
    getTradeActions (calmEnv (1 # 2) 50000000000 2000000 1000) defaultConfig
      wallet1 oneWalletWorld
    = (Return actions, w')
    ∧ length actions = 2%nat.
Proof.
  destruct (getTradeActions_length
              (calmEnv (1 # 2) 50000000000 2000000 1000) defaultConfig
              wallet1 2 oneWalletWorld eq_refl ltac:(lia))
    as (actions & w' & Hrun & Hlen & _).
  exists actions, w'. split; [exact Hrun|exact Hlen].
Defined.

(** ** Delays and the orchestrator *)

(** X21.  [getJitteredValue(base, jitterPct)] draws one number and stays
    within [jitterPct] of a non-negative base: for a jitter of [[0, 1]]
    and a draw of [[0, 1)] the value lies between [base * (1 - jitterPct)]
    and [base * (1 + jitterPct)], so it is never negative. *)
Theorem getJitteredValue_bounds :
  ∀ (E : Env) (base jitter : Q) (w : World),
    random_ok E →
    (0 <= base)%Q → (0 <= jitter)%Q → (jitter <= 1)%Q →
    ∃ value : Q,
      getJitteredValue E base jitter w = (Return value, tickn 1 w)
      ∧ (base * (1 - jitter) <= value)%Q
      ∧ (value <= base * (1 + jitter))%Q
      ∧ (0 <= value)%Q.
Proof.
  intros E base jitter w Hrandom Hbase Hj0 Hj1.
  destruct (Hrandom (clock w)) as [Hr0 Hr1].
  eexists. split; [reflexivity|].
  set (r := Math_random E (clock w)) in *.
  assert (Hv : (- jitter <= (r - (1 # 2)) * 2 * jitter)%Q
               ∧ ((r - (1 # 2)) * 2 * jitter <= jitter)%Q) by (split; nra).
  destruct Hv as [Hv1 Hv2].
  set (variance := ((r - (1 # 2)) * 2 * jitter)%Q) in *.
  repeat split; nra.
Qed.

(** X21 for the delay between two actions at the default configuration:
    5000 ms, 10 % jitter. *)
Lemma getJitteredValue_bounds_witness :
  ∃ value : Q,
    getRandomDelay (calmEnv (1 # 2) 50000000000 2000000 1000) defaultConfig
      oneWalletWorld
    = (Return value, tickn 1 oneWalletWorld)
    ∧ (4500 <= value)%Q ∧ (value <= 5500)%Q.
Proof.
  destruct (getJitteredValue_bounds
              (calmEnv (1 # 2) 50000000000 2000000 1000)
              (baseDelayMs defaultConfig) (jitterPct defaultConfig)
              oneWalletWorld (calmEnv_random_ok 50000000000 2000000 1000))
    as (value & Hrun & Hlow & Hhigh & _);
    [vm_compute; discriminate..|].
  exists value. split; [exact Hrun|].
  split; [refine (Qle_trans _ _ _ _ Hlow)|refine (Qle_trans _ _ _ Hhigh _)];
    vm_compute; discriminate.
Defined.


Lemma no_trade_trans (w1 w2 w3 : World) :
  no_trade w1 w2 → no_trade w2 w3 → no_trade w1 w3.
Proof.
  intros (H1 & H2 & H3 & H4) (G1 & G2 & G3 & G4).
  repeat split; congruence.
Qed.

Lemma delay_run (ms : Q) (w : World) :
  ∃ w', delay ms w = (Return tt, w')
        ∧ trace w' = trace w ++ [EvDelay ms]
        ∧ no_trade w w'.
Proof.
  eexists. split; [reflexivity|]. split; [reflexivity|].
  split; [apply tradesOf_delay|]. repeat split; reflexivity.
Qed.

(** The call to the rebalancer: the event, and what the rebalancer
    answers at that point of the clock. *)
Lemma rebalanceWallets_run (E : Env) (w : World) :
  ∃ w', rebalanceWallets E w = (rebalancer_rebalanceWallets E (clock w), w')
        ∧ trace w' = trace w ++ [EvRebalance].
Proof.
  unfold rebalanceWallets, bind, tick, emit, lift. cbn.
  destruct (rebalancer_rebalanceWallets E (clock w)) as [[]|e];
    eexists; split; reflexivity.
Qed.

Lemma sessionPause_step_run (E : Env) (cfg : ConfigManager) (c : bool)
  (w : World) :
  ∃ w',
    (if c then
       let* r := Math_random_call E in
       let* pauseMs := getJitteredValue E (60000 * (1 + r * 4)) (jitterPct cfg) in
       delay pauseMs
     else ret tt) w = (Return tt, w')
    ∧ no_trade w w'.
Proof.
  destruct c; (eexists; split; [reflexivity|]).
  - split; [|repeat split; reflexivity]. cbn [trace]. apply tradesOf_delay.
  - repeat split; reflexivity.
Qed.

(** The pauses that end the half, from any heap. *)
Lemma runLoop_pauses_run (E : Env) (cfg : ConfigManager) (batchNum : Z)
  (w : World) :
  random_ok E →
  ∃ (w' : World) (d : Q),
    ((if JS.rem_is_zero (inject_Z batchNum) (sessionPauseMin cfg) then
        let* r := Math_random_call E in
        let* pauseMs :=
          getJitteredValue E (60000 * (1 + r * 4)) (jitterPct cfg) in
        delay pauseMs
      else ret tt);;
     let* r := Math_random_call E in
     delay (r * 10000 + 5000)) w
    = (Return tt, w')
    ∧ last (trace w') = Some (EvDelay d)
    ∧ (5000 <= d)%Q ∧ (d < 15000)%Q
    ∧ no_trade w w'.
Proof.
  intros Hrandom.
  destruct (sessionPause_step_run E cfg
              (JS.rem_is_zero (inject_Z batchNum) (sessionPauseMin cfg)) w)
    as (w2 & Hrun2 & Hcalm2).
  destruct (delay_run (Math_random E (clock w2) * 10000 + 5000) (tickn 1 w2))
    as (w3 & Hrun3 & Htrace & Hcalm3).
  exists w3, (Math_random E (clock w2) * 10000 + 5000)%Q. split.
  - eapply bind_run; [exact Hrun2|].
    eapply bind_run; [reflexivity|]. exact Hrun3.
  - split; [rewrite Htrace; apply last_snoc|].
    destruct (Hrandom (clock w2)) as [Hr0 Hr1].
    split; [lra|]. split; [lra|].
    eapply no_trade_trans; [exact Hcalm2|exact Hcalm3].
Qed.

(** X22.  What follows a batch.  A rebalancing is due when it is enabled
    and the cycle counter of the bot is a multiple of [rebalanceInterval].
    The call to the rebalancer is not protected: when the rebalancer
    rejects, [runLoop] is left with that rejection at once, before any
    pause.  In every other case, with draws in [[0, 1)], the loop waits
    between 5 and 15 seconds before its next turn: the last event is a
    delay [d] with [5000 <= d < 15000].  When no rebalancing is due, what
    follows the batch makes no trade and leaves the breaker, the wallet
    manager and the counters alone. *)
Theorem runLoop_afterBatch_waits :
  ∀ (E : Env) (cfg : ConfigManager) (batchNum : Z) (w : World),
    random_ok E →
    let due :=
      enableRebalancing cfg
      && JS.rem_is_zero (inject_Z (bot_cycleCount (bot w)))
           (rebalanceInterval cfg) in
    match (if due then rebalancer_rebalanceWallets E (clock w)
           else Return tt) with
    | Throw e =>
        ∃ w' : World,
          runLoop_afterBatch E cfg batchNum w = (Throw e, w')
          ∧ trace w' = trace w ++ [EvRebalance]
    | Return _ =>
        ∃ (w' : World) (d : Q),
          runLoop_afterBatch E cfg batchNum w = (Return tt, w')
          ∧ last (trace w') = Some (EvDelay d)
          ∧ (5000 <= d)%Q ∧ (d < 15000)%Q
          ∧ (due = true → EvRebalance ∈ trace w')
          ∧ (due = false →
             tradesOf (trace w') = tradesOf (trace w)
             ∧ circuitBreaker w' = circuitBreaker w
             ∧ walletManager w' = walletManager w
             ∧ bot w' = bot w)
    end.
Proof.
  intros E cfg batchNum w Hrandom due.
  unfold runLoop_afterBatch.
  destruct due eqn:Hdue; subst due.
  - destruct (rebalanceWallets_run E w) as (w1 & Hrun1 & Htrace1).
    destruct (rebalancer_rebalanceWallets E (clock w)) as [[]|e].
    + destruct (runLoop_pauses_run E cfg batchNum w1 Hrandom)
        as (w' & d & Hrun & Hlast & Hlo & Hhi & Htrades & _).
      exists w', d. split.
      { eapply bind_run; [reflexivity|]. cbn [bot]. rewrite Hdue.
        eapply bind_run; [exact Hrun1|]. exact Hrun. }
      split; [exact Hlast|]. split; [exact Hlo|]. split; [exact Hhi|].
      split; [|discriminate]. intros _.
      assert (Hin : EvRebalance ∈ trace w1).
      { rewrite Htrace1. apply elem_of_app. right. left. }
      clear - Hrun Hin.
      assert (Happ : appends
        ((if JS.rem_is_zero (inject_Z batchNum) (sessionPauseMin cfg) then
            let* r := Math_random_call E in
            let* pauseMs :=
              getJitteredValue E (60000 * (1 + r * 4)) (jitterPct cfg) in
            delay pauseMs
          else ret tt);;
         let* r := Math_random_call E in
         delay (r * 10000 + 5000))) by appends_auto.
      destruct (Happ w1) as [evs Hevs]. rewrite Hrun in Hevs.
      cbn [snd] in Hevs. rewrite Hevs. apply elem_of_app. left. exact Hin.
    + exists w1. split; [|exact Htrace1].
      eapply bind_run; [reflexivity|]. cbn [bot]. rewrite Hdue.
      eapply bind_throw. exact Hrun1.
  - destruct (runLoop_pauses_run E cfg batchNum w Hrandom)
      as (w' & d & Hrun & Hlast & Hlo & Hhi & Hcalm).
    exists w', d. split.
    { eapply bind_run; [reflexivity|]. cbn [bot]. rewrite Hdue.
      eapply bind_run; [reflexivity|]. exact Hrun. }
    split; [exact Hlast|]. split; [exact Hlo|]. split; [exact Hhi|].
    split; [discriminate|]. intros _. exact Hcalm.
Qed.

(** X22 at the default configuration, for the first batch of a started
    bot: a rebalancing is due (the counter is 0), the rebalancer returns,
    and the loop then waits 10 seconds. *)
Lemma runLoop_afterBatch_waits_witness :
  ∃ (w' : World) (d : Q),
    runLoop_afterBatch (calmEnv (1 # 2) 50000000000 2000000 1000)
      defaultConfig 1 oneWalletWorld
    = (Return tt, w')
    ∧ last (trace w') = Some (EvDelay d)
    ∧ (5000 <= d)%Q ∧ (d < 15000)%Q
    ∧ EvRebalance ∈ trace w'.
Proof.
  pose proof (runLoop_afterBatch_waits
                (calmEnv (1 # 2) 50000000000 2000000 1000) defaultConfig 1
                oneWalletWorld (calmEnv_random_ok 50000000000 2000000 1000))
    as Hthm.
  cbv zeta in Hthm.
  change (enableRebalancing defaultConfig
          && JS.rem_is_zero
               (inject_Z (bot_cycleCount (bot oneWalletWorld)))
               (rebalanceInterval defaultConfig)) with true in Hthm.
  cbv iota in Hthm.
  change (rebalancer_rebalanceWallets
            (calmEnv (1 # 2) 50000000000 2000000 1000)
            (clock oneWalletWorld)) with (@Return unit tt) in Hthm.
  cbv iota in Hthm.
  destruct Hthm as (w' & d & Hrun & Hlast & Hlow & Hhigh & Hdue & _).
  exists w', d. repeat (split; [assumption|]). apply Hdue. reflexivity.
Defined.

(** X23.  A run of failed trades stops the bot before the next selection.
    With the breaker enabled and the bot running, once the recorded
    outcomes end with [maxConsecutiveFailures] failures or more, the next
    turn of the loop trips with that run as its reason and clears
    [isRunning]; it selects no batch, makes no trade and leaves the wallet
    manager, the breaker and the cycle counter as they were. *)
Theorem runLoop_cycle_trips_after_failures :
  ∀ (E : Env) (cfg : ConfigManager) (batchNum : Z) (w : World)
    (outcomes : list bool),
    enableCircuitBreaker cfg = true →
    bot_isRunning (bot w) = true →
    circuitBreaker w = recordAll cfg outcomes →
    (maxConsecutiveFailures cfg
     <= inject_Z (Z.of_nat (leadingFailures (rev outcomes))))%Q →
    runLoop_cycle E cfg batchNum w
    = (Return (Trip (ConsecutiveFailures
                       (Z.of_nat (leadingFailures (rev outcomes))))),
       {| clock := clock w; trace := trace w;
          circuitBreaker := circuitBreaker w;
          tradingEngine := tradingEngine w;
          walletManager := walletManager w;
          bot := {| bot_isRunning := false;
                    bot_cycleCount := bot_cycleCount (bot w) |} |}).
Proof.
  intros E cfg batchNum w outcomes Hen Hrunning Hcb Hmax.
  assert (Hcount : consecutiveFailures (circuitBreaker w)
                   = Z.of_nat (leadingFailures (rev outcomes))).
  { rewrite Hcb. apply (recordAll_failures cfg Hen outcomes). }
  rewrite <- Hcount in *.
  unfold runLoop_cycle.
  eapply bind_run; [reflexivity|]. rewrite Hrunning. cbn [negb].
  eapply bind_run; [reflexivity|].
  eapply bind_run;
    [apply (checkCircuitBreakers_consecutive E cfg _ w Hen Hmax)|].
  reflexivity.
Qed.

(** X23 at the default configuration: a success, then ten failures. *)
Lemma runLoop_cycle_trips_after_failures_witness :
  let outcomes := true :: replicate 10 false in
  let w := World_of (recordAll defaultConfig outcomes) oneWalletManager
             startedBot in
  ∃ w',
    runLoop_cycle (calmEnv (1 # 2) 50000000000 2000000 1000) defaultConfig 0 w
    = (Return (Trip (ConsecutiveFailures 10)), w')
    ∧ bot_isRunning (bot w') = false
    ∧ trace w' = []
    ∧ activeWallets (walletManager w') = [].
Proof.
  intros outcomes w. eexists. split.
  - apply (runLoop_cycle_trips_after_failures
             (calmEnv (1 # 2) 50000000000 2000000 1000) defaultConfig 0 w
             outcomes).
    + reflexivity.
    + reflexivity.
    + reflexivity.
    + vm_compute; discriminate.
  - split; [reflexivity|]. split; reflexivity.
Defined.

(** ** MarketDataProvider *)

Section MarketDataProviderProperties.

Import MarketDataProvider.

Context (E : Env) (cfg : Config).

Ltac destruct_tiers :=
  repeat match goal with
         | |- context [match ?x with _ => _ end] => destruct x eqn:?
         end.

Lemma tier_Birdeye_run (now : Z) (p : Provider) :
  let r := tier_Birdeye E cfg now p in
  r.1 = cache r.2
  ∧ lastApiCall r.2 = lastApiCall p
  ∧ waits r.2 = waits p
  ∧ (cache r.2 = cache p
     ∨ (lastUpdate (cache r.2) = now ∧ source (cache r.2) ≠ none))
  ∧ (only_CoinGecko E cfg →
     liquidity (cache r.2) = liquidity (cache p)
     ∨ liquidity (cache r.2) = or_zero (liquidity (cache p))).
Proof.
  unfold tier_Birdeye, tier_DexScreener, tier_CoinGecko.
  destruct_tiers; cbn;
    (repeat split; [auto..|]);
    try (intros _; auto; fail);
    intros [Hb Hd]; exfalso;
    first [ eapply Hb; eauto; fail | eapply Hd; eauto ].
Qed.

(** X24.  [getMarketData] returns the cache it leaves in the provider.
    Less than a minute after the last update it makes no request and no
    wait; otherwise it waits for the rest of the second since the last
    request, if any, and then the cache is either the previous one (every
    tier failed: stale data is returned, with its old time stamp) or a
    quote stamped with the time read at the start of the call. *)
Theorem getMarketData_result :
  ∀ p : Provider,
    let now := Date_now E (clock p) in
    let r := getMarketData E cfg p in
    r.1 = cache r.2
    ∧ (now - lastUpdate (cache p) < cacheDuration → r.2 = tick p)
    ∧ (cache r.2 = cache p
       ∨ (lastUpdate (cache r.2) = now ∧ source (cache r.2) ≠ none))
    ∧ (cacheDuration <= now - lastUpdate (cache p) →
       waits r.2
       = waits p
         ++ (if now - lastApiCall p <? apiCallInterval
             then [apiCallInterval - (now - lastApiCall p)] else [])).
Proof.
  intros p now r. subst r. unfold getMarketData. fold now.
  cbn [cache tick lastApiCall].
  destruct (Z.ltb_spec (now - lastUpdate (cache p)) cacheDuration)
    as [Hfresh|Hstale].
  - cbn [fst snd]. repeat split; auto. lia.
  - match goal with
    | |- context [tier_Birdeye E cfg now ?p1] =>
        destruct (tier_Birdeye_run now p1) as (H1 & _ & H3 & H4 & _)
    end.
    split; [exact H1|]. split; [lia|].
    split.
    + destruct (now - lastApiCall p <? apiCallInterval); exact H4.
    + intros _. rewrite H3.
      destruct (now - lastApiCall p <? apiCallInterval); cbn [waits];
        [reflexivity|rewrite app_nil_r; reflexivity].
Qed.

Lemma getMarketData_liquidity_kept (p : Provider) :
  only_CoinGecko E cfg →
  liquidity (cache (getMarketData E cfg p).2) = liquidity (cache p)
  ∨ liquidity (cache (getMarketData E cfg p).2)
    = or_zero (liquidity (cache p)).
Proof.
  intros Honly. unfold getMarketData. cbn [cache tick lastApiCall].
  destruct (_ <? cacheDuration); [left; reflexivity|].
  match goal with
  | |- context [tier_Birdeye E cfg ?now ?p1] =>
      destruct (tier_Birdeye_run now p1) as (_ & _ & _ & _ & H5)
  end.
  destruct (_ <? apiCallInterval); exact (H5 Honly).
Qed.

Lemma lt_true_kept (a b : JSNumber) (c : JSNumber) :
  lt a c = true → b = a ∨ b = or_zero a → lt b c = true.
Proof.
  intros Hlt [->| ->]; [exact Hlt|].
  destruct a; [exact Hlt|discriminate].
Qed.

(** X25.  With CoinGecko as the only source that answers, the bot never
    judges a trade safe: CoinGecko quotes carry no liquidity, the cache
    keeps the liquidity it had, and a liquidity below MIN_LIQUIDITY_USD (0
    in a new provider) stays below it, so [checkMarketConditions] reports
    low liquidity, for this call and every later one. *)
Theorem checkMarketConditions_only_CoinGecko :
  ∀ (amountInSol : Q) (p : Provider),
    only_CoinGecko E cfg →
    lt (liquidity (cache p)) (Some (minLiquidity cfg)) = true →
    let r := checkMarketConditions E cfg amountInSol p in
    safe r.1 = false
    ∧ lt (liquidity (cache r.2)) (Some (minLiquidity cfg)) = true.
Proof.
  intros amountInSol p Honly Hlow r. subst r. unfold checkMarketConditions.
  pose proof (getMarketData_liquidity_kept p Honly) as Hkept.
  destruct (getMarketData E cfg p) as [c p1]. cbn [snd] in Hkept.
  rewrite (lt_true_kept _ _ _ Hlow Hkept). cbn [fst snd].
  split; [reflexivity|]. exact (lt_true_kept _ _ _ Hlow Hkept).
Qed.

Lemma estimatePriceImpact_run (amountInSol : Q) (p : Provider) :
  let r := estimatePriceImpact E cfg amountInSol p in
  ∃ solPriceUsd : JSNumber,
    r.1 = (if is_zero (liquidity (cache r.2)) then Some 100%Q
           else min (mul (div (mul (Some amountInSol) solPriceUsd)
                              (liquidity (cache r.2)))
                         (Some 100%Q))
                    (Some 100%Q)).
Proof.
  unfold estimatePriceImpact.
  destruct (getMarketData E cfg p) as [c p1].
  destruct (getSolPriceUsd E p1) as [sol p2] eqn:Hsol.
  assert (Hcache : cache p2 = cache p1).
  { unfold getSolPriceUsd in Hsol.
    destruct (dexscreener_sol E _) as [[x|]|e];
      [|destruct (coingecko_sol E _) as [[y|]|e']
       |destruct (coingecko_sol E _) as [[y|]|e']];
      injection Hsol as _ <-; reflexivity. }
  exists sol. destruct (is_zero (liquidity (cache p2))) eqn:Hz;
    cbn [fst snd]; rewrite Hz; reflexivity.
Qed.

(** X26.  The estimate of the price impact is a percentage capped at
    100: whatever the quotes, a numeric estimate is never above 100, and
    the estimate is 100 when the cached liquidity is 0.  A trade is judged
    safe only if that estimate is at most the stored [maxPriceImpact],
    which [validatePercentage] stores as a fraction (0.05 for
    MAX_PRICE_IMPACT_PCT=5): a percentage is compared with a fraction. *)
Theorem checkMarketConditions_safe_impact :
  ∀ (amountInSol : Q) (p : Provider),
    let e := estimatePriceImpact E cfg amountInSol p in
    let r := checkMarketConditions E cfg amountInSol p in
    (∀ impact : Q, e.1 = Some impact → (impact <= 100)%Q)
    ∧ (is_zero (liquidity (cache e.2)) = true → e.1 = Some 100%Q)
    ∧ (safe r.1 = true →
       ∀ impact : Q, priceImpact r.1 = Some impact →
                     (impact <= maxPriceImpact cfg)%Q).
Proof.
  intros amountInSol p e r. subst e r. split; [|split].
  - intros impact Hi.
    pose proof (estimatePriceImpact_run amountInSol p) as [sol Hrun].
    cbv zeta in Hrun. rewrite Hi in Hrun.
    destruct (is_zero (liquidity (cache _))).
    + injection Hrun as ->. apply Qle_refl.
    + destruct (mul (div _ _) _) as [x|]; [|discriminate].
      injection Hrun as ->. unfold JS.min.
      destruct (JS.leb x 100) eqn:Hle; [apply leb_true, Hle|apply Qle_refl].
  - intros Hz.
    pose proof (estimatePriceImpact_run amountInSol p) as [sol Hrun].
    cbv zeta in Hrun. rewrite Hz in Hrun. exact Hrun.
  - unfold checkMarketConditions.
    destruct (getMarketData E cfg p) as [c p1].
    destruct (lt (liquidity (cache p1)) _); [discriminate|].
    destruct (estimatePriceImpact E cfg amountInSol p1) as [i p2].
    destruct (gt i (Some (maxPriceImpact cfg))) eqn:Hgt; [discriminate|].
    cbn [fst snd safe priceImpact]. intros _ impact Hi.
    rewrite Hi in Hgt. unfold gt, lt in Hgt. apply ltb_false in Hgt.
    exact Hgt.
Qed.

Lemma getMarketData_fresh (p : Provider) :
  Date_now E (clock p) - lastUpdate (cache p) < cacheDuration →
  getMarketData E cfg p = (cache p, tick p).
Proof.
  intros Hfresh. unfold getMarketData. cbn [cache tick].
  apply Z.ltb_lt in Hfresh. rewrite Hfresh. reflexivity.
Qed.

Lemma getSolPriceUsd_cache (p : Provider) :
  cache (getSolPriceUsd E p).2 = cache p.
Proof.
  unfold getSolPriceUsd.
  destruct (dexscreener_sol E _) as [[x|]|e];
    [|destruct (coingecko_sol E _) as [[y|]|e']
     |destruct (coingecko_sol E _) as [[y|]|e']]; reflexivity.
Qed.

(** X27.  A cached quote without a liquidity figure disables both safety
    tests: while the cache is fresh, [NaN < minLiquidity] is false and the
    estimated impact is [NaN], which is not above the threshold, so every
    trade is judged safe. *)
Theorem checkMarketConditions_missing_liquidity :
  ∀ (amountInSol : Q) (p : Provider),
    liquidity (cache p) = None →
    Date_now E (clock p) - lastUpdate (cache p) < cacheDuration →
    Date_now E (S (clock p)) - lastUpdate (cache p) < cacheDuration →
    (checkMarketConditions E cfg amountInSol p).1
    = {| safe := true; priceImpact := None |}.
Proof.
  intros amountInSol p Hliq Hfresh1 Hfresh2.
  unfold checkMarketConditions.
  rewrite (getMarketData_fresh p Hfresh1). cbn [cache tick].
  rewrite Hliq. cbn [lt].
  unfold estimatePriceImpact.
  rewrite (getMarketData_fresh (tick p) Hfresh2).
  pose proof (getSolPriceUsd_cache (tick (tick p))) as Hcache.
  destruct (getSolPriceUsd E (tick (tick p))) as [sol p2].
  cbn [snd cache tick] in Hcache. rewrite Hcache, Hliq. cbn [is_zero].
  destruct (mul (Some amountInSol) sol); reflexivity.
Qed.

End MarketDataProviderProperties.

(** X25 for a new provider and the default thresholds. *)
Lemma checkMarketConditions_only_CoinGecko_witness :
  MarketDataProvider.safe
    (MarketDataProvider.checkMarketConditions
       MarketDataProvider.coinGeckoEnv
       (MarketDataProvider.defaultConfig true) 0
       MarketDataProvider.constructor).1
  = false.
Proof.
  apply (checkMarketConditions_only_CoinGecko MarketDataProvider.coinGeckoEnv
           (MarketDataProvider.defaultConfig true) 0
           MarketDataProvider.constructor).
  - split; [intros _ n q; discriminate|intros address Ha; discriminate].
  - reflexivity.
Defined.

(** X26 for a buy of less than one whole SOL (the engine passes whole SOL:
    0) on a pool of 50000 USD, which is judged safe with an estimate of at
    most 0.05, and for a buy of one SOL on a pool without liquidity, whose
    estimate is 100. *)
Lemma checkMarketConditions_safe_impact_witness :
  let cfg := MarketDataProvider.defaultConfig true in
  let r := MarketDataProvider.checkMarketConditions
             (MarketDataProvider.birdeyeEnv (Some 50000%Q)) cfg 0
             MarketDataProvider.constructor in
  let e := MarketDataProvider.estimatePriceImpact
             (MarketDataProvider.birdeyeEnv (Some 0%Q)) cfg 1
             MarketDataProvider.constructor in
  MarketDataProvider.safe r.1 = true
  ∧ (∃ impact, MarketDataProvider.priceImpact r.1 = Some impact
               ∧ (impact <= 5 / 100)%Q)
  ∧ e.1 = Some 100%Q.
Proof.
  intros cfg r e. split; [reflexivity|]. split.
  - eexists. split; [reflexivity|].
    apply (checkMarketConditions_safe_impact
             (MarketDataProvider.birdeyeEnv (Some 50000%Q)) cfg 0
             MarketDataProvider.constructor); reflexivity.
  - apply (checkMarketConditions_safe_impact
             (MarketDataProvider.birdeyeEnv (Some 0%Q)) cfg 1
             MarketDataProvider.constructor). reflexivity.
Defined.

(** X27 for a Birdeye quote without liquidity, fetched a second before:
    a buy of 1000 SOL is judged safe. *)
Lemma checkMarketConditions_missing_liquidity_witness :
  let E := MarketDataProvider.birdeyeEnv None in
  let cfg := MarketDataProvider.defaultConfig true in
  let p := (MarketDataProvider.getMarketData E cfg
              MarketDataProvider.constructor).2 in
  MarketDataProvider.source (MarketDataProvider.cache p)
  = MarketDataProvider.Birdeye
  ∧ (MarketDataProvider.checkMarketConditions E cfg 1000 p).1
    = {| MarketDataProvider.safe := true;
         MarketDataProvider.priceImpact := None |}.
Proof.
  intros E cfg p. split; [reflexivity|].
  apply (checkMarketConditions_missing_liquidity E cfg 1000 p);
    reflexivity.
Defined.

(** ** Funding and the final sweep *)

(** X28.  [withdrawSingleWallet] never sweeps anything: the balance is a
    Number and the buffer a BigInt, so the first subtraction throws a
    TypeError, which the function catches; it returns [false] and submits
    no transfer, whatever the balance, cached or read. *)
Theorem withdrawSingleWallet_never_sweeps :
  ∀ (E : Transfers.Env) (sink : Keypair) (wallet : Wallet)
    (cachedBalance : option Z) (h : Transfers.Heap),
    ∃ h' : Transfers.Heap,
      Transfers.withdrawSingleWallet E sink wallet cachedBalance h
      = (Return false, h')
      ∧ Transfers.sent h' = Transfers.sent h
      ∧ Transfers.funded h' = Transfers.funded h.
Proof.
  intros E sink wallet cachedBalance h.
  unfold Transfers.withdrawSingleWallet, Transfers.try_catch.
  destruct cachedBalance as [b|].
  - eexists. split; [reflexivity|split; reflexivity].
  - unfold Transfers.bind at 1. unfold Transfers.bind at 1.
    unfold Transfers.connection_getBalance, Transfers.bind, Transfers.tick,
      Transfers.lift. cbn beta iota.
    destruct (Transfers.getBalance E _ _) as [b|e];
      (eexists; split; [reflexivity|split; reflexivity]).
Qed.

Section FundingProperties.

Import Transfers.

Context (E : Env).

(** One pass through the loop of [fundSingleWallet]: nothing when the
    shortfall is within the buffer; otherwise at most one transfer, and an
    exception in every case (the last one from the assignment to
    [remaining], a [const]). *)
Lemma fundSingleWallet_loop_first (fuel : nat) (parts remaining : Z)
  (relayerKeypairs : list Keypair) (kp : Keypair) (h : Heap) :
  0 < parts →
  let r := fundSingleWallet_loop E (S fuel) parts 0 remaining
             relayerKeypairs kp h in
  funded r.2 = funded h
  ∧ if MIN_SOL_BUFFER_LAMPORTS <? remaining
    then (∃ e, r.1 = Throw e)
         ∧ (sent r.2 = sent h
            ∨ ∃ relayer amount,
                sent r.2
                = sent h ++ [{| fromPubkey := publicKey relayer;
                                toPubkey := publicKey kp;
                                lamports := BigInt amount |}]
                ∧ relayer ∈ relayerKeypairs
                ∧ MIN_SOL_BUFFER_LAMPORTS <= amount <= remaining)
    else r = (Return tt, h).
Proof.
  intros Hparts r. subst r. cbn [fundSingleWallet_loop].
  apply Z.ltb_lt in Hparts as Hp. rewrite Hp. cbn [andb].
  destruct (Z.ltb_spec MIN_SOL_BUFFER_LAMPORTS remaining) as [Hneed|Hfull];
    [|split; reflexivity].
  cbv beta iota zeta delta
    [bind random tick ret connection_sendTransaction submit lift
     connection_confirmTransaction assign_const throw
     clock funded sent waits].
  match goal with
  | |- context [if ?c then None else relayerKeypairs !! ?i] =>
      destruct (if c then None else relayerKeypairs !! i)
        as [relayer|] eqn:Hrelayer
  end.
  2: { split; [reflexivity|]. split; [eexists; reflexivity|left; reflexivity]. }
  assert (Hmember : relayer ∈ relayerKeypairs).
  { destruct (_ <? 0); [discriminate|].
    eapply list_elem_of_lookup_2, Hrelayer. }
  clear Hrelayer. rename Hmember into Hrelayer.
  match goal with
  | |- context [sendTransaction E ?n ?t] =>
      destruct (sendTransaction E n t) as [sig|e]
  end.
  - match goal with
    | |- context [confirmTransaction E ?n ?s] =>
        destruct (confirmTransaction E n s) as [[]|e']
    end;
      (split; [reflexivity|]; split; [eexists; reflexivity|];
       right; eexists relayer, _; split; [reflexivity|];
       split; [exact Hrelayer|lia]).
  - split; [reflexivity|]. split; [eexists; reflexivity|].
    right. eexists relayer, _. split; [reflexivity|].
    split; [exact Hrelayer|lia].
Qed.

Lemma Tbind_run {A B} (m : T A) (f : A → T B) (h h1 : Heap) (a : A)
  (r : Outcome B * Heap) :
  m h = (Return a, h1) → f a h1 = r → bind m f h = r.
Proof. intros Hm Hf. unfold bind. rewrite Hm. exact Hf. Qed.

Lemma Tbind_throw {A B} (m : T A) (f : A → T B) (h h1 : Heap) (e : string) :
  m h = (Throw e, h1) → bind m f h = (Throw e, h1).
Proof. intros Hm. unfold bind. rewrite Hm. reflexivity. Qed.

(** X29.  [fundSingleWallet] never throws and never marks as funded a
    wallet it sent money to.  For a wallet not yet in [funded] and draws
    that are not negative: if the balance cannot be read nothing happens;
    if the balance is at least 80 % of FUND_AMOUNT, or the shortfall is
    within the 500000-lamport buffer, the wallet is marked funded and no
    transfer is submitted; otherwise at most one transfer is submitted, of
    an amount between the buffer and the shortfall, from one of the
    relayers, and the wallet is not marked funded (the loop ends in a
    TypeError at the assignment to the constant [remaining]).  No other
    wallet's mark changes, and a wallet already marked is left alone. *)
Theorem fundSingleWallet_result :
  ∀ (fundAmount : Z) (relayerKeypairs : list Keypair) (wallet : WalletData)
    (h : Heap),
    (∀ n, (0 <= Math_random E n)%Q) →
    let kp := fromSecretKey E (privateKey wallet) in
    let r := fundSingleWallet E fundAmount relayerKeypairs wallet h in
    r.1 = Return tt
    ∧ (∀ pk, pk ≠ pubkey wallet → pk ∈ funded r.2 ↔ pk ∈ funded h)
    ∧ (pubkey wallet ∈ funded h → r.2 = h)
    ∧ (pubkey wallet ∉ funded h →
       match getBalance E (clock h) (publicKey kp) with
       | Throw _ => sent r.2 = sent h ∧ pubkey wallet ∉ funded r.2
       | Return balance =>
           if (Z.quot (fundAmount * 8) 10 <=? balance)
              || (fundAmount - balance <=? MIN_SOL_BUFFER_LAMPORTS)
           then sent r.2 = sent h ∧ pubkey wallet ∈ funded r.2
           else
             (pubkey wallet ∉ funded r.2)
             ∧ (sent r.2 = sent h
                ∨ ∃ relayer amount,
                    sent r.2
                    = sent h ++ [{| fromPubkey := publicKey relayer;
                                    toPubkey := publicKey kp;
                                    lamports := BigInt amount |}]
                    ∧ relayer ∈ relayerKeypairs
                    ∧ MIN_SOL_BUFFER_LAMPORTS <= amount
                      <= fundAmount - balance)
       end).
Proof.
  intros fundAmount relayerKeypairs wallet h Hrandom kp r. subst r.
  unfold fundSingleWallet. fold kp.
  destruct (decide (pubkey wallet ∈ funded h)) as [Hin|Hout].
  { cbn [fst snd]. repeat split; auto. contradiction. }
  unfold try_catch.
  match goal with
  | |- context [bind ?m ?f h] => set (body := bind m f)
  end.
  assert (Hbody :
    match getBalance E (clock h) (publicKey kp) with
    | Throw _ =>
        ∃ e h', body h = (Throw e, h') ∧ sent h' = sent h
                ∧ funded h' = funded h
    | Return balance =>
        if (Z.quot (fundAmount * 8) 10 <=? balance)
           || (fundAmount - balance <=? MIN_SOL_BUFFER_LAMPORTS)
        then ∃ h', body h = (Return tt, h') ∧ sent h' = sent h
                   ∧ funded h' = {[ pubkey wallet ]} ∪ funded h
        else ∃ e h', body h = (Throw e, h')
                     ∧ funded h' = funded h
                     ∧ (sent h' = sent h
                        ∨ ∃ relayer amount,
                            sent h'
                            = sent h ++ [{| fromPubkey := publicKey relayer;
                                            toPubkey := publicKey kp;
                                            lamports := BigInt amount |}]
                            ∧ relayer ∈ relayerKeypairs
                            ∧ MIN_SOL_BUFFER_LAMPORTS <= amount
                              <= fundAmount - balance)
    end).
  { subst body.
    assert (Hread : connection_getBalance E (publicKey kp) h
                    = (getBalance E (clock h) (publicKey kp),
                       {| clock := S (clock h); funded := funded h;
                          sent := sent h; waits := waits h |}))
      by reflexivity.
    destruct (getBalance E (clock h) (publicKey kp)) as [balance|e].
    2: { eexists _, _. split; [eapply Tbind_throw, Hread|].
         split; reflexivity. }
    destruct (Z.quot (fundAmount * 8) 10 <=? balance) eqn:Henough.
    { cbn [orb]. eexists. split.
      - eapply Tbind_run; [exact Hread|]. rewrite Henough. reflexivity.
      - split; reflexivity. }
    cbn [orb].
    set (h1 := {| clock := S (clock h); funded := funded h;
                  sent := sent h; waits := waits h |}) in *.
    set (h2 := {| clock := S (S (clock h)); funded := funded h;
                  sent := sent h; waits := waits h |}).
    set (parts := JS.floor (Math_random E (S (clock h)) * 4) + 1).
    assert (Hdraw : random E h1 = (Return (Math_random E (S (clock h))), h2))
      by reflexivity.
    assert (Hparts : 0 < parts).
    { subst parts.
      assert (H0 : 0 <= JS.floor (Math_random E (S (clock h)) * 4)); [|lia].
      unfold JS.floor. change 0 with (Qfloor 0). apply Qfloor_resp_le.
      specialize (Hrandom (S (clock h))). lra. }
    destruct (Z.to_nat parts) as [|fuel] eqn:Hfuel; [lia|].
    pose proof (fundSingleWallet_loop_first fuel parts (fundAmount - balance)
                  relayerKeypairs kp h2 Hparts) as Hloop.
    cbv zeta in Hloop.
    destruct (fundSingleWallet_loop E (S fuel) parts 0 (fundAmount - balance)
                relayerKeypairs kp h2) as [o h3] eqn:Hrun.
    cbn [fst snd] in Hloop. destruct Hloop as [Hfunded Hloop].
    assert (Hstart : ∀ res,
      bind (fundSingleWallet_loop E (S fuel) parts 0 (fundAmount - balance)
              relayerKeypairs kp)
           (λ _, add_funded (pubkey wallet)) h2 = res →
      bind (connection_getBalance E (publicKey kp))
        (λ balance0,
           if Z.quot (fundAmount * 8) 10 <=? balance0
           then add_funded (pubkey wallet)
           else
             bind (random E)
               (λ r,
                  bind
                    (fundSingleWallet_loop E
                       (Z.to_nat (JS.floor (r * 4) + 1))
                       (JS.floor (r * 4) + 1) 0 (fundAmount - balance0)
                       relayerKeypairs kp)
                    (λ _, add_funded (pubkey wallet)))) h = res).
    { intros res Hres. eapply Tbind_run; [exact Hread|]. rewrite Henough.
      eapply Tbind_run; [exact Hdraw|]. fold parts. rewrite Hfuel.
      exact Hres. }
    destruct (Z.ltb_spec MIN_SOL_BUFFER_LAMPORTS (fundAmount - balance))
      as [Hneed|Hfull].
    - destruct (Z.leb_spec (fundAmount - balance) MIN_SOL_BUFFER_LAMPORTS);
        [lia|].
      destruct Hloop as [[e ->] Hsent].
      exists e, h3. split; [|split; assumption].
      apply Hstart. eapply Tbind_throw, Hrun.
    - destruct (Z.leb_spec (fundAmount - balance) MIN_SOL_BUFFER_LAMPORTS);
        [|lia].
      injection Hloop as -> ->.
      eexists. split; [apply Hstart; eapply Tbind_run; [exact Hrun|];
                       reflexivity|].
      split; reflexivity. }
  destruct (getBalance E (clock h) (publicKey kp)) as [balance|e0].
  - destruct ((Z.quot (fundAmount * 8) 10 <=? balance)
              || (fundAmount - balance <=? MIN_SOL_BUFFER_LAMPORTS)).
    + destruct Hbody as (h' & -> & Hsent & Hfunded). cbn [fst snd].
      split; [reflexivity|]. rewrite Hfunded.
      split.
      { intros pk Hpk. rewrite elem_of_union, elem_of_singleton.
        split; [intros [Heq|Hpk']; [contradiction|exact Hpk']|auto]. }
      split; [contradiction|]. intros _. split; [exact Hsent|].
      apply elem_of_union_l, elem_of_singleton. reflexivity.
    + destruct Hbody as (e & h' & -> & Hfunded & Hsent). cbn [fst snd ret].
      split; [reflexivity|]. rewrite Hfunded.
      split; [reflexivity|]. split; [contradiction|]. intros _.
      split; [exact Hout|exact Hsent].
  - destruct Hbody as (e & h' & -> & Hsent & Hfunded). cbn [fst snd ret].
    split; [reflexivity|]. rewrite Hfunded.
    split; [reflexivity|]. split; [contradiction|]. intros _.
    split; [exact Hsent|exact Hout].
Qed.

End FundingProperties.

(** X29 for a wallet holding 1000000 lamports, FUND_AMOUNT=0.05 SOL and
    one relayer: one transfer is submitted and the wallet is not marked
    funded. *)
Lemma fundSingleWallet_result_witness :
  let r := Transfers.fundSingleWallet (Transfers.calmEnv 1000000) 50000000
             [sinkKeypair0] walletData1 Transfers.emptyHeap in
  r.1 = Return tt
  ∧ length (Transfers.sent r.2) = 1%nat
  ∧ Transfers.funded r.2 = ∅.
Proof.
  intros r.
  destruct (fundSingleWallet_result (Transfers.calmEnv 1000000) 50000000
              [sinkKeypair0] walletData1 Transfers.emptyHeap)
    as (Hreturn & _).
  - intros n. vm_compute. discriminate.
  - split; [exact Hreturn|]. split; reflexivity.
Defined.

(** ** One outcome per executed action *)

Lemma breaker_kept_bind {A B} (m : M A) (f : A → M B) :
  breaker_kept m → (∀ a, breaker_kept (f a)) → breaker_kept (bind m f).
Proof.
  intros Hm Hf w. unfold bind. specialize (Hm w).
  destruct (m w) as [[a|e] w']; simpl in *; [|exact Hm].
  rewrite Hf. exact Hm.
Qed.

Lemma breaker_kept_try_catch {A} (m : M A) (h : string → M A) :
  breaker_kept m → (∀ e, breaker_kept (h e)) → breaker_kept (try_catch m h).
Proof.
  intros Hm Hh w. unfold try_catch. specialize (Hm w).
  destruct (m w) as [[a|e] w']; simpl in *; [exact Hm|].
  rewrite Hh. exact Hm.
Qed.

Create HintDb breaker_kept.

(** Through the syntax of a computation, down to the primitive steps,
    which leave the breaker alone by computation. *)
Ltac breaker_kept_step :=
  match goal with
  | |- breaker_kept (bind _ _) => apply breaker_kept_bind; [|intros ?]
  | |- breaker_kept (try_catch _ _) => apply breaker_kept_try_catch; [|intros ?]
  | |- breaker_kept (match ?x with _ => _ end) => destruct x
  | |- breaker_kept _ => solve [eauto with breaker_kept]
  | |- breaker_kept _ => progress autounfold with methods
  | |- breaker_kept _ => solve [intros ?; reflexivity]
  end.

Ltac breaker_kept_auto := repeat breaker_kept_step.

Lemma breaker_kept_performSingleSwap_loop (E : Env) (cfg : ConfigManager)
  (remaining attempt : nat) isBuy wallet amount :
  breaker_kept
    (performSingleSwap_loop E cfg remaining attempt isBuy wallet amount).
Proof.
  revert attempt. induction remaining as [|k IH]; intros attempt; simpl;
    breaker_kept_auto.
Qed.
#[export] Hint Resolve breaker_kept_performSingleSwap_loop : breaker_kept.

Lemma breaker_kept_twapSwap_loop (E : Env) (cfg : ConfigManager) isBuy wallet
  (len i : nat) (todo : list Z) (anySuccess : bool) :
  breaker_kept (twapSwap_loop E cfg isBuy wallet len i todo anySuccess).
Proof.
  revert i anySuccess.
  induction todo as [|share todo IH]; intros i anySuccess; simpl;
    breaker_kept_auto.
Qed.
#[export] Hint Resolve breaker_kept_twapSwap_loop : breaker_kept.

Lemma breaker_kept_performSwap (E : Env) (cfg : ConfigManager) isBuy wallet :
  breaker_kept (performSwap E cfg isBuy wallet).
Proof. breaker_kept_auto. Qed.

Lemma bind_Return_inv {A B} (m : M A) (f : A → M B) (w w' : World) (b : B) :
  bind m f w = (Return b, w') →
  ∃ a w1, m w = (Return a, w1) ∧ f a w1 = (Return b, w').
Proof.
  unfold bind. destruct (m w) as [[a|e] w1]; [eauto|discriminate].
Qed.


